(** * atomate2: VASP file handling, input-set writing and the fake-VASP fixture

    A shallow embedding of

      - [src/atomate2/vasp/file.py]   ([get_largest_relax_extension],
        [copy_vasp_outputs]),
      - [src/atomate2/vasp/inputs.py] ([write_vasp_input_set]),
      - [tests/vasp/conftest.py]      ([fake_run_vasp] and its helpers),

    with the properties of these functions stated and proved below.

    Python strings are embedded as [string] (one [ascii] per character; file
    names outside ASCII are not covered).  Code that raises returns
    [inl e]; code that touches the working directory threads it explicitly
    through a small state-and-exception monad. *)

From Stdlib Require Import String Ascii NArith Bool Lia.
From stdpp Require Import base option list strings gmap.

Local Open Scope N_scope.

(** ** Exceptions and results *)

(** The Python exception classes the embedded code raises or catches.
    [OtherError] stands for an exception of any class that derives from none
    of [AttributeError], [ImportError] and [OSError]. *)
Inductive exn : Type :=
| AttributeError (msg : string)
| FileExistsError (msg : string)
| FileNotFoundError (msg : string)
| ImportError (msg : string)
| ModuleNotFoundError (msg : string)
| ValueError (msg : string)
| OtherError (cls msg : string).

Definition result (A : Type) : Type := (exn + A)%type.

(** A computation over a state [S] that returns an [A] or raises; the state
    reached when it raises is kept, as it is for a Python function that has
    already mutated the directory. *)
Definition ST (S A : Type) : Type := S -> result A * S.

Definition raise {S A} (e : exn) : ST S A := fun s => (inl e, s).
Definition lift {S A} (r : result A) : ST S A := fun s => (r, s).
Definition reads {S A} (f : S -> result A) : ST S A := fun s => (f s, s).
Definition modify {S} (f : S -> S) : ST S unit := fun s => (inr tt, f s).

#[global] Instance st_ret {S} : MRet (ST S) := fun A a s => (inr a, s).
#[global] Instance st_bind {S} : MBind (ST S) := fun A B k m s =>
  match m s with
  | (inr a, s') => k a s'
  | (inl e, s') => (inl e, s')
  end.

(** [for x in l: body x] over a state. *)
Fixpoint for_each {S A} (body : A -> ST S unit) (l : list A) : ST S unit :=
  match l with
  | [] => mret tt
  | x :: l' => body x ;; for_each body l'
  end.

(** A list comprehension whose element expression may raise: the first
    element that raises aborts the whole comprehension. *)
Fixpoint comprehension {A B} (f : A -> result B) (l : list A) : result (list B) :=
  match l with
  | [] => inr []
  | x :: l' =>
      match f x with
      | inl e => inl e
      | inr y =>
          match comprehension f l' with
          | inl e => inl e
          | inr ys => inr (y :: ys)
          end
      end
  end.

(** ** Python string operations *)

Module PyStr.

Definition newline : ascii := ascii_of_nat 10.

(** [c.isdigit()] on ASCII, and the class [\d] of [re]. *)
Definition is_digit (c : ascii) : bool :=
  let n := nat_of_ascii c in (48 <=? n)%nat && (n <=? 57)%nat.

Fixpoint all_digits (s : string) : bool :=
  match s with
  | EmptyString => true
  | String c s' => is_digit c && all_digits s'
  end.

(** The longest run of digits at the start of [s]: what a greedy [\d*]
    consumes. *)
Fixpoint take_digits (s : string) : string :=
  match s with
  | EmptyString => EmptyString
  | String c s' => if is_digit c then String c (take_digits s') else EmptyString
  end.

Fixpoint drop (n : nat) (s : string) : string :=
  match n, s with
  | O, _ => s
  | S n', String _ s' => drop n' s'
  | S _, EmptyString => EmptyString
  end.

Definition first_is_digit (s : string) : bool :=
  match s with
  | String c _ => is_digit c
  | EmptyString => false
  end.

(** [int(s)] for a string of decimal digits. *)
Definition digit_value (c : ascii) : N := N.of_nat (nat_of_ascii c - 48).

Fixpoint int_from (acc : N) (s : string) : N :=
  match s with
  | EmptyString => acc
  | String c s' => int_from (10 * acc + digit_value c) s'
  end.

Definition int (s : string) : N := int_from 0 s.

(** [old in s]. *)
Fixpoint contains (old s : string) : bool :=
  String.prefix old s ||
  match s with
  | EmptyString => false
  | String _ s' => contains old s'
  end.

(** [s.endswith(suffix)]. *)
Fixpoint endswith (suffix s : string) : bool :=
  String.eqb suffix s ||
  match s with
  | EmptyString => false
  | String _ s' => endswith suffix s'
  end.

(** [s.replace(old, new)]: occurrences of [old] are found from the left and
    do not overlap.  [skip] counts the characters of a found occurrence that
    are still to be passed over.  For an empty [old] Python puts [new]
    before every character and at the end. *)
Fixpoint replace_go (old new : string) (skip : nat) (s : string) : string :=
  match s with
  | EmptyString => EmptyString
  | String c s' =>
      match skip with
      | S k => replace_go old new k s'
      | O =>
          if String.prefix old s
          then new +:+ replace_go old new (String.length old - 1) s'
          else String c (replace_go old new 0 s')
      end
  end.

Fixpoint interleave (new s : string) : string :=
  match s with
  | EmptyString => new
  | String c s' => new +:+ String c (interleave new s')
  end.

Definition replace (old new s : string) : string :=
  match old with
  | EmptyString => interleave new s
  | _ => replace_go old new 0 s
  end.

(** [s.rsplit(sep, 1)] for a one-character separator, when [sep] occurs in
    [s]: the text before the last [sep] and the text after it. *)
Fixpoint rsplit1 (sep : ascii) (s : string) : option (string * string) :=
  match s with
  | EmptyString => None
  | String c s' =>
      match rsplit1 sep s' with
      | Some (a, b) => Some (String c a, b)
      | None => if Ascii.eqb c sep then Some (EmptyString, s') else None
      end
  end.

(** [s.split(sep)] for a one-character separator. *)
Fixpoint split (sep : ascii) (s : string) : list string :=
  match s with
  | EmptyString => [EmptyString]
  | String c s' =>
      if Ascii.eqb c sep then EmptyString :: split sep s'
      else match split sep s' with
           | [] => [String c EmptyString]
           | w :: ws => String c w :: ws
           end
  end.

(** What reading a file in text mode does to line ends: "\r\n" and a lone
    "\r" become "\n". *)
Definition carriage_return : ascii := ascii_of_nat 13.

Fixpoint universal_newlines (s : string) : string :=
  match s with
  | EmptyString => EmptyString
  | String c s' =>
      if Ascii.eqb c carriage_return then
        match s' with
        | String d s'' =>
            if Ascii.eqb d newline then String newline (universal_newlines s'')
            else String newline (universal_newlines s')
        | EmptyString => String newline EmptyString
        end
      else String c (universal_newlines s')
  end.

(** [fnmatch] for patterns made of literal characters, [*] and [?]. *)
Fixpoint fnmatch (pat s : string) : bool :=
  match pat with
  | EmptyString => match s with EmptyString => true | _ => false end
  | String p pat' =>
      if Ascii.eqb p "*" then
        (fix star (t : string) : bool :=
           fnmatch pat' t ||
           match t with
           | EmptyString => false
           | String _ t' => star t'
           end) s
      else
        match s with
        | EmptyString => false
        | String c s' => (Ascii.eqb p "?" || Ascii.eqb p c) && fnmatch pat' s'
        end
  end.

End PyStr.

(** ** The file client *)

(** A file system as the file client sees it: for a host ([None] is the local
    machine) and a directory path, the entries of that directory in listing
    order, each a file name with its content. *)
Definition filesystem : Type := option string -> string -> list (string * string).

Module FileClient.

(** [file_client.listdir(path, host=host)]; a listed path is represented by
    its [name]. *)
Definition listdir (fs : filesystem) (path : string) (host : option string)
  : list string :=
  (fs host path).*1.

(** Modelled from the spec: [FileClient.glob] belongs to
    [atomate2.utils.file_client], which is not among the sources.  Following
    the words "files matching" a pattern, [glob (dir / pattern)] is the
    entries of the directory whose names match the pattern. *)
Definition glob (fs : filesystem) (dir pattern : string) (host : option string)
  : list string :=
  filter (fun f => Is_true (PyStr.fnmatch pattern f)) (listdir fs dir host).

End FileClient.

(** ** [atomate2.vasp.file.get_largest_relax_extension] *)

Module RelaxExt.
Import PyStr.

(** [re.match(r".relax(\d+)", s)], group 1: any character but a newline,
    then "relax", then the longest non-empty run of digits. *)
Definition match_relax_here (s : string) : option string :=
  match s with
  | EmptyString => None
  | String c rest =>
      if negb (Ascii.eqb c newline) && String.prefix "relax" rest
      then let ds := take_digits (drop 5 rest) in
           match ds with
           | EmptyString => None
           | _ => Some ds
           end
      else None
  end.

(** [re.search(r".relax(\d+)", s)], group 1 of the leftmost match. *)
Fixpoint re_search_relax (s : string) : option string :=
  match match_relax_here s with
  | Some ds => Some ds
  | None =>
      match s with
      | EmptyString => None
      | String _ s' => re_search_relax s'
      end
  end.

(** [max(best :: l, key=int)]: a later element replaces the running maximum
    only when its key is strictly larger. *)
Fixpoint max_by_int (best : string) (l : list string) : string :=
  match l with
  | [] => best
  | x :: l' => if int best <? int x then max_by_int x l' else max_by_int best l'
  end.

Definition no_group : exn :=
  AttributeError "'NoneType' object has no attribute 'group'".

Definition get_largest_relax_extension
    (fs : filesystem) (directory : string) (host : option string) : result string :=
  let relax_files := FileClient.glob fs directory "*.relax*" host in
  if (length relax_files =? 0)%nat then inr EmptyString
  else
    match comprehension
            (fun file => match re_search_relax file with
                         | Some ds => inr ds
                         | None => inl no_group
                         end) relax_files with
    | inl e => inl e
    | inr [] => inl (ValueError "max() arg is an empty sequence")
    | inr (n :: numbers) => inr (".relax" +:+ max_by_int n numbers)
    end.

End RelaxExt.

(** ** The helpers of [atomate2.common.file] and [atomate2.utils.path]

    [copy_vasp_outputs] calls [get_zfile], [copy_files], [gunzip_files],
    [rename_files] and [strip_hostname]; their modules are not among the
    sources.  The working directory is a finite map from file names to
    contents. *)

(** What the absent helpers raise is not fixed by the sources: the exception
    of [get_zfile] for a base name it does not find, of [copy_files] for a file
    absent from the source directory, and of [gunzip_files] and [rename_files]
    (without [allow_missing]) for a file absent from the working directory.
    Nor is what [gunzip_files] does when the name without ".gz" is already
    taken in the working directory: [gunzip_exists] gives the exception it
    then raises, or [None] when it replaces the file. *)
Record helper_exns : Type := {
  zfile_missing : string -> exn;
  copy_missing : string -> exn;
  gunzip_missing : string -> exn;
  gunzip_exists : string -> option exn;
  rename_missing : string -> exn
}.

Module CommonFile.
Import PyStr.

Definition zname_matches (base_name f : string) : bool :=
  String.eqb f base_name || String.eqb f (base_name +:+ ".gz").

(** Modelled from the spec: [get_zfile(directory_listing, base_name)] finds the
    plain or gzipped version of a file ("sets of gzip-suffixed files", "find
    required files"): the first entry of the listing named [base_name] or
    [base_name.gz]; it raises when there is none. *)
Definition get_zfile (E : helper_exns) (directory_listing : list string)
    (base_name : string) : result string :=
  match List.find (zname_matches base_name) directory_listing with
  | Some f => inr f
  | None => inl (zfile_missing E base_name)
  end.

(** Modelled from the spec: [get_zfile(..., allow_missing=True)] returns
    [None] instead of raising ("do not fail if KPOINTS is missing"). *)
Definition get_zfile_allow_missing (directory_listing : list string)
    (base_name : string) : option string :=
  List.find (zname_matches base_name) directory_listing.

Definition lookup_entry (dir : list (string * string)) (f : string) : option string :=
  snd <$> List.find (fun e => String.eqb e.1 f) dir.

(** Modelled from the spec: [copy_files(src_dir, src_host=..., include_files=...)]
    copies each of the included files from the source directory on the source
    host into the working directory, under its own name. *)
Definition copy_files (E : helper_exns) (fs : filesystem) (src_dir : string)
    (src_host : option string) (include_files : list string)
  : ST (gmap string string) unit :=
  for_each (fun f =>
              match lookup_entry (fs src_host src_dir) f with
              | Some data => modify (insert f data)
              | None => raise (copy_missing E f)
              end) include_files.

(** A name without its last three characters (".gz"). *)
Definition strip_gz (f : string) : string :=
  String.substring 0 (String.length f - 3) f.

(** Modelled from the spec: [gunzip_files(include_files=..., allow_missing=...)]
    "will gunzip any gzipped files": each included file of the working
    directory whose name ends in ".gz" is replaced by its decompressed content
    under the name without ".gz".  When that name is already taken, the
    helper raises or replaces the file, as [gunzip_exists] says; the words
    of the docstring decide neither. *)
Definition gunzip_files (E : helper_exns) (gunzip : string -> string)
    (include_files : list string) (allow_missing : bool)
  : ST (gmap string string) unit :=
  for_each (fun f =>
              if endswith ".gz" f then
                fun cwd : gmap string string =>
                  match cwd !! strip_gz f, gunzip_exists E (strip_gz f) with
                  | Some _, Some e => (inl e, cwd)
                  | _, _ =>
                      match cwd !! f with
                      | Some data => (inr tt, <[strip_gz f := gunzip data]> (delete f cwd))
                      | None => if allow_missing then (inr tt, cwd)
                                else (inl (gunzip_missing E f), cwd)
                      end
                  end
              else mret tt) include_files.

(** A Python [dict] in insertion order: assigning to a key already present
    replaces its value and keeps its place. *)
Fixpoint dict_set (k v : string) (d : list (string * string)) : list (string * string) :=
  match d with
  | [] => [(k, v)]
  | (k', v') :: d' => if String.eqb k' k then (k, v) :: d' else (k', v') :: dict_set k v d'
  end.

(** [{key x: value x for x in l}]. *)
Definition dict_comprehension {A} (key value : A -> string) (l : list A)
  : list (string * string) :=
  foldl (fun d x => dict_set (key x) (value x) d) [] l.

(** Modelled from the spec: [rename_files(filenames, allow_missing=...)]
    renames, in the order of the dictionary, each old name of the working
    directory to its new name ("rename files to remove relax extension",
    "Move CONTCAR to POSCAR"); a file already under the new name is
    replaced. *)
Definition rename_files (E : helper_exns) (filenames : list (string * string))
    (allow_missing : bool) : ST (gmap string string) unit :=
  for_each (fun '(old_name, new_name) =>
              fun cwd : gmap string string =>
                match cwd !! old_name with
                | Some data => (inr tt, <[new_name := data]> (delete old_name cwd))
                | None => if allow_missing then (inr tt, cwd)
                          else (inl (rename_missing E old_name), cwd)
                end) filenames.

(** Modelled from the spec: [strip_hostname] turns "host:path" into "path"
    ("a hostname embedded in src_dir"); a path without a colon is returned as
    it is. *)
Fixpoint strip_hostname (path : string) : string :=
  match path with
  | EmptyString => EmptyString
  | String c rest =>
      if Ascii.eqb c ":" then rest
      else if contains ":" rest then strip_hostname rest else path
  end.

End CommonFile.

(** ** [atomate2.vasp.file.copy_vasp_outputs] *)

Module VaspFile.
Import PyStr CommonFile.

Definition no_potcar : exn := FileNotFoundError "Could not find POTCAR file to copy.".

(** The function acts on the working directory; [fs] is what the file client
    can list and read, [gunzip] the decompression of a file's content. *)
Definition copy_vasp_outputs (E : helper_exns) (gunzip : string -> string)
    (fs : filesystem) (src_dir : string) (src_host : option string)
    (additional_vasp_files : list string) (contcar_to_poscar : bool)
  : ST (gmap string string) unit :=
  let src_dir := strip_hostname src_dir in
  relax_ext ← lift (RelaxExt.get_largest_relax_extension fs src_dir src_host);
  let directory_listing := FileClient.listdir fs src_dir src_host in
  (* find required files *)
  let files := ["INCAR"; "OUTCAR"; "CONTCAR"; "vasprun.xml"] ++ additional_vasp_files in
  required_files ←
    lift (comprehension (fun r => get_zfile E directory_listing (r +:+ relax_ext)) files);
  (* find optional files *)
  let optional_files :=
    omap (get_zfile_allow_missing directory_listing)
         ["POTCAR"; "POTCAR.spec"; "KPOINTS" +:+ relax_ext] in
  (* check at least one type of POTCAR file is included *)
  if (length (List.filter (contains "POTCAR") optional_files) =? 0)%nat
  then raise no_potcar
  else
    copy_files E fs src_dir src_host (required_files ++ optional_files);;
    gunzip_files E gunzip (required_files ++ optional_files) true;;
    (* rename files to remove relax extension *)
    (if negb (String.eqb relax_ext "") then
       let all_files := optional_files ++ required_files in
       let files_to_rename :=
         dict_comprehension
           (fun k => replace ".gz" "" k)
           (fun k => replace ".gz" "" (replace relax_ext "" k)) all_files in
       rename_files E files_to_rename true
     else mret tt);;
    (if contcar_to_poscar
     then rename_files E [("CONTCAR", "POSCAR")] false
     else mret tt).

End VaspFile.

(** ** [atomate2.vasp.inputs.write_vasp_input_set] *)

Module InputSet.
Import PyStr.

Section WriteInputSet.

(** Structures, keyword dictionaries and input-set objects belong to pymatgen;
    [world] is whatever constructing an input set and writing it can read or
    change (the files of the current directory). *)
Context {structure kwargs vis world : Type}.

(** The value found under a class name in a module: calling it builds an
    input set ([init]); it may or may not have a [from_prev] attribute. *)
Record input_set_class : Type := {
  init : structure -> kwargs -> ST world vis;
  from_prev_method : option (string -> structure -> kwargs -> ST world vis)
}.

(** [{}]. *)
Variable empty_kwargs : kwargs.

(** [importlib.import_module(name)]: it raises, or gives a module, seen here
    as the table of its attributes. *)
Variable import_module : string -> result (string -> option input_set_class).

(** [vis.write_input(directory, **kwargs)]. *)
Variable write_input : vis -> string -> kwargs -> ST world unit.

(** [getattr(module, name)]. *)
Definition getattr (module : string -> option input_set_class) (name : string)
  : result input_set_class :=
  match module name with
  | Some c => inr c
  | None => inl (AttributeError ("module has no attribute '" +:+ name +:+ "'"))
  end.

(** [s.rsplit(".", 1)] as the list Python returns. *)
Definition rsplit_dot (s : string) : list string :=
  match rsplit1 "." s with
  | Some (a, b) => [a; b]
  | None => [s]
  end.

(** Lines 44-47: the module to import and the name of the class in it. *)
Definition resolve (input_set : string) : result (string * string) :=
  if contains "." input_set then
    match rsplit_dot input_set with
    | [module; input_set] => inr (module, input_set)
    | _ => inl (ValueError "not enough values to unpack (expected 2, got 1)")
    end
  else inr ("pymatgen.io.vasp.sets", input_set).

(** The classes named by [except (ModuleNotFoundError, AttributeError,
    ImportError)]. *)
Definition caught (e : exn) : bool :=
  match e with
  | ModuleNotFoundError _ | AttributeError _ | ImportError _ => true
  | _ => false
  end.

Definition could_not_import (input_set module : string) : exn :=
  ImportError ("Could not import input set " +:+ input_set +:+ " from " +:+ module +:+ ".").

(** Lines 49-52. *)
Definition load_class (module input_set : string) : result input_set_class :=
  match (match import_module module with
         | inl e => inl e
         | inr m => getattr m input_set
         end) with
  | inr vis_cls => inr vis_cls
  | inl e => if caught e then inl (could_not_import input_set module) else inl e
  end.

(** Lines 55-58. *)
Definition instantiate (vis_cls : input_set_class) (from_prev : bool)
    (s : structure) (input_set_kwargs : kwargs) : ST world vis :=
  match from_prev, from_prev_method vis_cls with
  | true, Some from_prev_fn => from_prev_fn "." s input_set_kwargs
  | _, _ => init vis_cls s input_set_kwargs
  end.

Definition write_vasp_input_set (s : structure) (input_set : string)
    (input_set_kwargs write_input_kwargs : option kwargs) (from_prev : bool)
  : ST world unit :=
  let input_set_kwargs := default empty_kwargs input_set_kwargs in
  let write_input_kwargs := default empty_kwargs write_input_kwargs in
  '(module, input_set) ← lift (resolve input_set);
  vis_cls ← lift (load_class module input_set);
  vis ← instantiate vis_cls from_prev s input_set_kwargs;
  write_input vis "." write_input_kwargs.

End WriteInputSet.

(** [importlib.import_module(name)] over a table of the installed modules,
    called without a package: a name that starts with a dot is a relative
    import and a [TypeError]; the empty name is a [ValueError]; a name that is
    not installed is a [ModuleNotFoundError]. *)
Definition py_import_module {M : Type} (installed : string -> option M) (name : string)
  : result M :=
  if String.prefix "." name then
    inl (OtherError "TypeError"
           ("the 'package' argument is required to perform a relative import for '"
              +:+ name +:+ "'"))
  else if String.eqb name "" then inl (ValueError "Empty module name")
  else match installed name with
       | Some m => inr m
       | None => inl (ModuleNotFoundError ("No module named '" +:+ name +:+ "'"))
       end.

End InputSet.

(** ** [tests/vasp/conftest.py]: the fake VASP run *)

Module FakeVasp.
Import PyStr.

(** An entry of a directory as [iterdir] and [is_file] see it. *)
Inductive node : Type :=
| RegularFile (data : string)
| Directory.

(** The reference directory of a job: the files of its "inputs" folder and
    the entries of its "outputs" folder ([None] when there is no such
    folder). *)
Record ref_dir : Type := {
  inputs : gmap string string;
  outputs : option (list (string * node))
}.

(** [open(name)] for reading. *)
Definition read_file (dir : gmap string string) (name : string) : result string :=
  match dir !! name with
  | Some data => inr data
  | None => inl (FileNotFoundError ("No such file or directory: '" +:+ name +:+ "'"))
  end.

Section Fixture.

(** The values of INCAR tags and the styles of k-point meshes are pymatgen's;
    [value_eqb] is Python's [==] on tag values. *)
Context {value style : Type} `{EqDecision style}.
Variable value_eqb : value -> value -> bool.
Variables (py_int_1 py_float_0_2 : value).

Record Kpoints : Type := { kpoints_style : style; num_kpts : N }.
Record Poscar : Type := { natoms : list N; site_symbols : list string }.
Record Potcar : Type := { symbols : list string }.

(** The parsers behind [Incar.from_file], [Kpoints.from_file],
    [Poscar.from_file] and [Potcar.from_file], applied to a file's content. *)
Variable parse_incar : string -> result (gmap string value).
Variable parse_kpoints : string -> result Kpoints.
Variable parse_poscar : string -> result Poscar.
Variable parse_potcar : string -> result Potcar.

Definition from_file {A} (parse : string -> result A) (dir : gmap string string)
    (name : string) : result A :=
  match read_file dir name with
  | inl e => inl e
  | inr data => parse data
  end.

(** [a != b] for two results of [dict.get] ([None] for an absent tag). *)
Definition get_differs (a b : option value) : bool :=
  match a, b with
  | Some x, Some y => negb (value_eqb x y)
  | None, None => false
  | _, _ => true
  end.

Definition incar_defaults : gmap string value :=
  <["ISPIN" := py_int_1]> (<["ISMEAR" := py_int_1]> (<["SIGMA" := py_float_0_2]> ∅)).

(** [d.get(p, default)]. *)
Definition dict_get (d : gmap string value) (p : string) (dflt : option value)
  : option value :=
  match d !! p with
  | Some v => Some v
  | None => dflt
  end.

Fixpoint check_incar_settings (user ref : gmap string value) (incar_settings : list string)
  : result unit :=
  match incar_settings with
  | [] => inr tt
  | p :: rest =>
      if get_differs (dict_get user p (incar_defaults !! p))
                     (dict_get ref p (incar_defaults !! p))
      then inl (ValueError ("INCAR value of " +:+ p +:+ " is inconsistent"))
      else check_incar_settings user ref rest
  end.

Definition check_incar (ref_path : ref_dir) (incar_settings : list string)
    (cwd : gmap string string) : result unit :=
  match from_file parse_incar cwd "INCAR" with
  | inl e => inl e
  | inr user =>
      match from_file parse_incar (inputs ref_path) "INCAR" with
      | inl e => inl e
      | inr ref => check_incar_settings user ref incar_settings
      end
  end.

Definition check_kpoints (ref_path : ref_dir) (cwd : gmap string string) : result unit :=
  match from_file parse_kpoints cwd "KPOINTS" with
  | inl e => inl e
  | inr user =>
      match from_file parse_kpoints (inputs ref_path) "KPOINTS" with
      | inl e => inl e
      | inr ref =>
          if negb (bool_decide (kpoints_style user = kpoints_style ref))
             || negb (num_kpts user =? num_kpts ref)
          then inl (ValueError "KPOINTS files are inconsistent")
          else inr tt
      end
  end.

Definition check_poscar (ref_path : ref_dir) (cwd : gmap string string) : result unit :=
  match from_file parse_poscar cwd "POSCAR" with
  | inl e => inl e
  | inr user =>
      match from_file parse_poscar (inputs ref_path) "POSCAR" with
      | inl e => inl e
      | inr ref =>
          if negb (bool_decide (natoms user = natoms ref))
             || negb (bool_decide (site_symbols user = site_symbols ref))
          then inl (ValueError "POSCAR files are inconsistent")
          else inr tt
      end
  end.

Definition check_potcar (ref_path : ref_dir) (cwd : gmap string string) : result unit :=
  match from_file parse_potcar (inputs ref_path) "POTCAR" with
  | inl e => inl e
  | inr ref =>
      match cwd !! "POTCAR", cwd !! "POTCAR.spec" with
      | Some data, _ =>
          match parse_potcar data with
          | inl e => inl e
          | inr user =>
              if negb (bool_decide (symbols user = symbols ref))
              then inl (ValueError "POTCAR files are inconsistent")
              else inr tt
          end
      | None, Some data =>
          (* [read_text] opens the file in text mode *)
          let text := universal_newlines data in
          let user_spec := split newline text in
          if negb (bool_decide (user_spec = symbols ref))
          then inl (ValueError "POTCAR symbols are inconsistent")
          else inr tt
      | None, None => inl (FileNotFoundError "no POTCAR or POTCAR.spec file found")
      end
  end.

Definition clear_vasp_inputs : ST (gmap string string) unit :=
  for_each (fun vasp_file =>
              fun cwd : gmap string string =>
                if bool_decide (is_Some (cwd !! vasp_file))
                then (inr tt, delete vasp_file cwd)
                else (inr tt, cwd))
           ["INCAR"; "KPOINTS"; "POSCAR"; "POTCAR"; "CHGCAR"; "OUTCAR"; "vasprun.xml"].

(** The fixture's own [copy_vasp_outputs] (lines 205-211). *)
Definition copy_vasp_outputs (ref_path : ref_dir) : ST (gmap string string) unit :=
  match outputs ref_path with
  | None => raise (FileNotFoundError "No such file or directory: 'outputs'")
  | Some entries =>
      for_each (fun '(name, output_file) =>
                  match output_file with
                  | RegularFile data => modify (insert name data)
                  | Directory => mret tt
                  end) entries
  end.

(** Lines 121-131: the checks named in [check_inputs], in the order incar,
    kpoints, poscar, potcar; none of them writes. *)
Definition check_phase (ref_path : ref_dir) (incar_settings check_inputs : list string)
  : ST (gmap string string) unit :=
  (if bool_decide ("incar" ∈ check_inputs)
   then reads (check_incar ref_path incar_settings) else mret tt);;
  (if bool_decide ("kpoints" ∈ check_inputs)
   then reads (check_kpoints ref_path) else mret tt);;
  (if bool_decide ("poscar" ∈ check_inputs)
   then reads (check_poscar ref_path) else mret tt);;
  (if bool_decide ("potcar" ∈ check_inputs)
   then reads (check_potcar ref_path) else mret tt).

Definition vfiles : list string := ["incar"; "kpoints"; "potcar"; "poscar"].

Definition fake_run_vasp (ref_path : ref_dir) (incar_settings check_inputs : list string)
    (clear_inputs : bool) : ST (gmap string string) unit :=
  check_phase ref_path incar_settings check_inputs;;
  (if clear_inputs then clear_vasp_inputs else mret tt);;
  copy_vasp_outputs ref_path.

End Fixture.

End FakeVasp.

(** * Vocabulary of the properties

    The notions the statements below are written in. *)

Module PyStrSpec.
Import PyStr.

(** A pattern without [*] and [?]. *)
Fixpoint no_wildcard (lit : string) : bool :=
  match lit with
  | EmptyString => true
  | String p lit' => negb (Ascii.eqb p "*") && negb (Ascii.eqb p "?") && no_wildcard lit'
  end.

(** A text that is empty or begins with a dot. *)
Definition dot_led (r : string) : bool :=
  match r with
  | EmptyString => true
  | String c _ => Ascii.eqb c "."
  end.

(** A text without a dot. *)
Fixpoint no_dot (w : string) : bool :=
  match w with
  | EmptyString => true
  | String c w' => negb (Ascii.eqb c ".") && no_dot w'
  end.

End PyStrSpec.

Module RelaxExtSpec.
Import PyStr RelaxExt.

(** "relax" directly followed by a digit, somewhere in [s]. *)
Fixpoint relax_then_digit (s : string) : bool :=
  (String.prefix "relax" s && first_is_digit (drop 5 s)) ||
  match s with
  | EmptyString => false
  | String _ s' => relax_then_digit s'
  end.

(** The number of a file as the claim words it: the digits [N] of a
    ".relaxN" in the name. *)
Definition relax_suffix_number (f N : string) : Prop :=
  exists base rest,
    f = base +:+ ".relax" +:+ N +:+ rest /\
    N <> "" /\ all_digits N = true /\ first_is_digit rest = false.

(** The claim as worded, for the result [r] of a directory whose files
    matching "*.relax*" are [relax_files]. *)
Definition largest_relax_as_worded (relax_files : list string) (r : result string) : Prop :=
  (relax_files = [] /\ r = inr "") \/
  (exists f M, f ∈ relax_files /\ relax_suffix_number f M /\
               r = inr (".relax" +:+ M) /\
               forall g N, g ∈ relax_files -> relax_suffix_number g N -> int N <= int M).

(** The extracted numbers, file by file. *)
Definition number_of (file : string) : result string :=
  match re_search_relax file with
  | Some ds => inr ds
  | None => inl no_group
  end.

(** What the function returns is empty or ".relax" followed by digits. *)
Definition relax_shaped (ext : string) : Prop :=
  ext = "" \/ exists M, ext = ".relax" +:+ M /\ M <> "" /\ all_digits M = true.

End RelaxExtSpec.

Module NameSpec.
Import PyStr.

(** A base name in which neither ".gz" nor ".relax" occurs. *)
Definition clean (b : string) : bool :=
  negb (contains ".gz" b) && negb (contains ".relax" b).

(** The name under which an item is grouped: the name without the relax
    extension and without ".gz", as the rename step computes it. *)
Definition key_of (ext n : string) : string :=
  replace ".gz" "" (if String.eqb ext "" then n else replace ext "" n).

(** A selected file: a clean base name, then nothing or the relax extension,
    then nothing or ".gz". *)
Definition item (ext f : string) : Prop :=
  exists b e z,
    clean b = true /\ (e = "" \/ e = ext) /\ (z = "" \/ z = ".gz") /\ f = b +:+ e +:+ z.

End NameSpec.

Module MoveSpec.

(** One move of [rename] or [gunzip]: the file under [op.1], if there is one,
    goes under [op.2] with its content transformed by [t]. *)
Definition mv (t : string -> string) (m : gmap string string) (op : string * string)
  : gmap string string :=
  match m !! op.1 with
  | Some d => <[op.2 := t d]> (delete op.1 m)
  | None => m
  end.

(** A move that does not name [k]. *)
Definition apart (k : string) (op : string * string) : Prop := op.1 <> k /\ op.2 <> k.

End MoveSpec.

Module VaspFileSpec.
Import PyStr RelaxExt CommonFile VaspFile MoveSpec.

(** Line 59: the names that are always required. *)
Definition standard_files : list string := ["INCAR"; "OUTCAR"; "CONTCAR"; "vasprun.xml"].

(** Lines 59-60: the files found for the required names. *)
Definition required_files (E : helper_exns) (listing : list string) (ext : string)
    (additional : list string) : result (list string) :=
  comprehension (fun r => get_zfile E listing (r +:+ ext)) (standard_files ++ additional).

(** Lines 64-68: the optional files that were found. *)
Definition optional_files (listing : list string) (ext : string) : list string :=
  omap (get_zfile_allow_missing listing) ["POTCAR"; "POTCAR.spec"; "KPOINTS" +:+ ext].

(** Lines 91-93: the rename dictionary. *)
Definition files_to_rename (ext : string) (all_files : list string) : list (string * string) :=
  dict_comprehension (fun k => replace ".gz" "" k)
                     (fun k => replace ".gz" "" (replace ext "" k)) all_files.

(** Lines 74-97: copy, gunzip, rename. *)
Definition transfer (E : helper_exns) (gunzip : string -> string) (fs : filesystem)
    (dir : string) (host : option string) (ext : string) (req opt : list string)
    (contcar_to_poscar : bool) : ST (gmap string string) unit :=
  copy_files E fs dir host (req ++ opt);;
  gunzip_files E gunzip (req ++ opt) true;;
  (if negb (String.eqb ext "")
   then rename_files E (files_to_rename ext (opt ++ req)) true
   else mret tt);;
  (if contcar_to_poscar then rename_files E [("CONTCAR", "POSCAR")] false else mret tt).

(** [base] is in the listing, plain or gzipped. *)
Definition present (listing : list string) (base : string) : Prop :=
  base ∈ listing \/ base +:+ ".gz" ∈ listing.

(** A POTCAR-type file is listed: POTCAR or POTCAR.spec, plain or gzipped. *)
Definition potcar_present (listing : list string) : Prop :=
  present listing "POTCAR" \/ present listing "POTCAR.spec".

(** One copy of [copy_files], for a file of the source directory [dir]. *)
Definition copy_step (dir : list (string * string)) (m : gmap string string) (f : string)
  : gmap string string :=
  match lookup_entry dir f with
  | Some data => <[f := data]> m
  | None => m
  end.

(** The moves of [gunzip_files]: each gzipped name to the name without ".gz". *)
Definition gz_moves (files : list string) : list (string * string) :=
  omap (fun f => if endswith ".gz" f then Some (f, strip_gz f) else None) files.

(** The working directory after copying, decompressing and removing the relax
    extension, before CONTCAR is moved. *)
Definition renamed (gunzip : string -> string) (fs : filesystem) (dir : string)
    (host : option string) (ext : string) (req : list string)
    (cwd : gmap string string) : gmap string string :=
  let opt := optional_files (FileClient.listdir fs dir host) ext in
  foldl (mv id)
        (foldl (mv gunzip)
               (foldl (copy_step (fs host dir)) cwd (req ++ opt))
               (gz_moves (req ++ opt)))
        (if negb (String.eqb ext "") then files_to_rename ext (opt ++ req) else []).

(** C4 as worded: [FileNotFoundError] exactly when no POTCAR-type file is
    listed. *)
Definition potcar_iff_as_worded (E : helper_exns) (gunzip : string -> string) : Prop :=
  forall fs src_dir src_host additional ctp cwd,
    (exists msg, (copy_vasp_outputs E gunzip fs src_dir src_host additional ctp cwd).1
                 = inl (FileNotFoundError msg))
    <-> ~ potcar_present (FileClient.listdir fs (strip_hostname src_dir) src_host).

(** C6 as worded: a host written into [src_dir] names the remote source. *)
Definition honors_embedded_host (E : helper_exns) (gunzip : string -> string) : Prop :=
  forall fs host dir additional ctp cwd,
    contains ":" host = false ->
    copy_vasp_outputs E gunzip fs (host +:+ ":" +:+ dir) None additional ctp cwd
    = copy_vasp_outputs E gunzip fs dir (Some host) additional ctp cwd.

(** C10 as worded: no POSCAR of the source is among the copied files. *)
Definition poscar_never_copied (E : helper_exns) : Prop :=
  forall fs dir host additional ext req f,
    get_largest_relax_extension fs dir host = inr ext ->
    required_files E (FileClient.listdir fs dir host) ext additional = inr req ->
    f ∈ req ++ optional_files (FileClient.listdir fs dir host) ext ->
    f ∉ ["POSCAR"; "POSCAR.gz"; "POSCAR" +:+ ext; "POSCAR" +:+ ext +:+ ".gz"].

End VaspFileSpec.

Module InputSetSpec.
Import PyStr InputSet.

Section WriteInputSet.

Context {structure kwargs vis world : Type}.
Variable import_module :
  string -> result (string -> option (@input_set_class structure kwargs vis world)).

(** The module or the attribute cannot be imported: importing the module
    raises an exception of a class the [except] clause names, or the module
    has no such attribute. *)
Definition cannot_import (module cls : string) : Prop :=
  match import_module module with
  | inl e => caught e = true
  | inr m => m cls = None
  end.

End WriteInputSet.

(** C3 as worded: whenever the class cannot be obtained from the module, the
    run raises [ImportError]. *)
Definition import_error_as_worded {structure kwargs vis world : Type}
    (empty_kwargs : kwargs)
    (import_module :
       string -> result (string -> option (@input_set_class structure kwargs vis world)))
    (write_input : vis -> string -> kwargs -> ST world unit) : Prop :=
  forall input_set module cls s ik wk from_prev w,
    resolve input_set = inr (module, cls) ->
    (forall m c, import_module module = inr m -> m cls <> Some c) ->
    exists msg,
      (write_vasp_input_set empty_kwargs import_module write_input
         s input_set ik wk from_prev w).1 = inl (ImportError msg).

End InputSetSpec.

Module FakeVaspSpec.
Import PyStr FakeVasp.

(** The regular files of an "outputs" folder, by name; of two entries with
    one name the later is the one a copy leaves behind. *)
Fixpoint reference_files (entries : list (string * node)) : gmap string string :=
  match entries with
  | [] => ∅
  | (name, RegularFile data) :: rest => reference_files rest ∪ {[name := data]}
  | (_, Directory) :: rest => reference_files rest
  end.

(** The names [clear_vasp_inputs] removes. *)
Definition cleared_names : list string :=
  ["INCAR"; "KPOINTS"; "POSCAR"; "POTCAR"; "CHGCAR"; "OUTCAR"; "vasprun.xml"].

(** The first exception of a list of outcomes. *)
Fixpoint first_raised (outcomes : list (result unit)) : option exn :=
  match outcomes with
  | [] => None
  | inl e :: _ => Some e
  | inr _ :: rest => first_raised rest
  end.

Section Fixture.

Context {value style : Type} `{EqDecision style}.
Variable value_eqb : value -> value -> bool.
Variables (py_int_1 py_float_0_2 : value).
Variable parse_incar : string -> result (gmap string value).
Variable parse_kpoints : string -> result (@Kpoints style).
Variable parse_poscar : string -> result Poscar.
Variable parse_potcar : string -> result Potcar.

(** The checks named in [check_inputs] with what each returns on [cwd], in
    the order the function runs them. *)
Definition requested_checks (ref_path : ref_dir) (incar_settings check_inputs : list string)
    (cwd : gmap string string) : list (result unit) :=
  (if bool_decide ("incar" ∈ check_inputs)
   then [check_incar value_eqb py_int_1 py_float_0_2 parse_incar ref_path incar_settings cwd]
   else []) ++
  (if bool_decide ("kpoints" ∈ check_inputs)
   then [check_kpoints parse_kpoints ref_path cwd] else []) ++
  (if bool_decide ("poscar" ∈ check_inputs)
   then [check_poscar parse_poscar ref_path cwd] else []) ++
  (if bool_decide ("potcar" ∈ check_inputs)
   then [check_potcar parse_potcar ref_path cwd] else []).

End Fixture.

End FakeVaspSpec.

Module RelaxNameSpec.
Import PyStr.

(** A file name in the usual shape, given by its parts: a base without
    "relax", then ".relax", a number, and a rest that does not go on with a
    digit. *)
Definition conventional (p : string * string * string) : Prop :=
  let '(base, N, rest) := p in
  contains "relax" base = false /\ N <> "" /\ all_digits N = true /\
  first_is_digit rest = false.

Definition name_of (p : string * string * string) : string :=
  let '(base, N, rest) := p in base +:+ ".relax" +:+ N +:+ rest.

End RelaxNameSpec.

Module TransferSpec.
Import PyStr CommonFile VaspFileSpec.

(** The names under which the steps of [copy_vasp_outputs] may put, move or
    remove a file [f] of the source directory. *)
Definition derived_names (ext f : string) : list string :=
  [f; strip_gz f; replace ".gz" "" f; replace ".gz" "" (replace ext "" f)].

(** Line 65: the optional files, each by its base name and the extension it
    is looked up with. *)
Definition optional_bases (ext : string) : list (string * string) :=
  [("POTCAR", ""); ("POTCAR.spec", ""); ("KPOINTS", ext)].

(** The additional names differ from one another, from the four standard
    names and from the three optional ones: no file is selected twice. *)
Definition distinct_names (additional : list string) : Prop :=
  NoDup (standard_files ++ additional ++ ["POTCAR"; "POTCAR.spec"; "KPOINTS"]).

(** A working directory in which the run finds nothing in its way: it holds
    none of the names the run derives from the listed files and, when CONTCAR
    is to be moved, no POSCAR, nor is a POSCAR asked for. *)
Definition fresh_directory (ext : string) (listing additional : list string)
    (contcar_to_poscar : bool) (cwd : gmap string string) : Prop :=
  (forall f n, f ∈ listing -> n ∈ derived_names ext f -> cwd !! n = None) /\
  (contcar_to_poscar = true -> cwd !! "POSCAR" = None /\ "POSCAR" ∉ additional).

End TransferSpec.

Module PotcarSpecSpec.
Import PyStr.

(** A text without a line break: neither a line feed nor a carriage return. *)
Definition one_line (s : string) : bool :=
  negb (contains (String newline "") s) && negb (contains (String carriage_return "") s).

(** The symbols one per line, without a final line break. *)
Definition spec_text (symbols : list string) : string :=
  String.concat (String newline "") symbols.

End PotcarSpecSpec.

(** ** Sample directories *)

(** A calculation directory with two relaxations, a gzipped POTCAR and a
    k-point file. *)
Definition two_relax_dir : list (string * string) :=
  [("INCAR.relax1", "incar 1"); ("INCAR.relax2.gz", "incar 2");
   ("OUTCAR.relax1.gz", "outcar 1"); ("OUTCAR.relax2", "outcar 2");
   ("CONTCAR.relax1", "contcar 1"); ("CONTCAR.relax2.gz", "contcar 2");
   ("vasprun.xml.relax1.gz", "vasprun 1"); ("vasprun.xml.relax2.gz", "vasprun 2");
   ("POSCAR.relax2", "poscar 2"); ("CHGCAR.relax2.gz", "chgcar 2");
   ("POTCAR.gz", "potcar"); ("KPOINTS.relax2", "kpoints 2")].

(** The local directory "/calc" holds [dir]; every other directory is empty. *)
Definition local_calc (dir : list (string * string)) : filesystem :=
  fun host path =>
    match host with
    | None => if String.eqb path "/calc" then dir else []
    | Some _ => []
    end.

(** The host "remote1" holds [dir] under "/calc"; every other directory is
    empty. *)
Definition remote1_calc (dir : list (string * string)) : filesystem :=
  fun host path =>
    match host with
    | Some h => if String.eqb h "remote1" && String.eqb path "/calc" then dir else []
    | None => []
    end.

Definition ten_relax_dir : list (string * string) :=
  [("vasprun.xml.relax9.gz", "9"); ("INCAR", "incar");
   ("vasprun.xml.relax10.gz", "10"); ("OUTCAR.relax2", "2")].

(** A directory where a backup copy sits next to a relaxation output. *)
Definition backup_dir : list (string * string) :=
  [("INCAR.relax1", "incar 1"); ("POSCAR.relax_backup", "old poscar")].

Definition only_backup_dir : list (string * string) :=
  [("POSCAR.relax_backup", "old poscar")].

(** Stand-ins for what the absent helpers raise and for gzip decompression;
    in this one [gunzip_files] refuses to decompress over an existing file. *)
Definition sample_exns : helper_exns := {|
  zfile_missing := fun f => FileNotFoundError ("Could not find " +:+ f);
  copy_missing := fun f => FileNotFoundError ("No such file: " +:+ f);
  gunzip_missing := fun f => FileNotFoundError ("No such file: " +:+ f);
  gunzip_exists := fun f => Some (FileExistsError (f +:+ " file already exists"));
  rename_missing := fun f => FileNotFoundError ("No such file: " +:+ f)
|}.

Definition sample_gunzip (data : string) : string := "gunzip(" +:+ data +:+ ")".

(** A toy pymatgen: structures are formulas, an input set is the text of its
    INCAR, the world is the current directory, and the module
    "pymatgen.io.vasp.sets" has the single class "MPStaticSet", which has a
    [from_prev] method. *)
Definition toy_class : Type :=
  @InputSet.input_set_class string (list string) string (gmap string string).

Definition toy_static_set : toy_class := {|
  InputSet.init := fun s kw => mret ("static " +:+ s);
  InputSet.from_prev_method :=
    Some (fun dir s kw => mret ("static from " +:+ dir +:+ " " +:+ s))
|}.

Definition toy_installed (name : string) : option (string -> option toy_class) :=
  if String.eqb name "pymatgen.io.vasp.sets"
  then Some (fun cls => if String.eqb cls "MPStaticSet" then Some toy_static_set else None)
  else None.

Definition toy_import_module : string -> result (string -> option toy_class) :=
  InputSet.py_import_module toy_installed.

Definition toy_write_input (vis dir : string) (kw : list string)
  : ST (gmap string string) unit :=
  modify (insert "INCAR" vis).

(** A toy pymatgen for the fixture: tag values and mesh styles are strings,
    an INCAR holds the tag ENCUT, and a POTCAR lists one symbol per line. *)
Definition toy_parse_incar (data : string) : result (gmap string string) :=
  inr {["ENCUT" := data]}.
Definition toy_parse_kpoints (data : string) : result (@FakeVasp.Kpoints string) :=
  inr {| FakeVasp.kpoints_style := data; FakeVasp.num_kpts := 1 |}.
Definition toy_parse_poscar (data : string) : result FakeVasp.Poscar :=
  inr {| FakeVasp.natoms := [2]; FakeVasp.site_symbols := [data] |}.
Definition toy_parse_potcar (data : string) : result FakeVasp.Potcar :=
  inr {| FakeVasp.symbols := PyStr.split PyStr.newline data |}.

Definition toy_inputs : gmap string string :=
  <["INCAR" := "520"]> (<["KPOINTS" := "Gamma"]> (<["POSCAR" := "Si"]>
    (<["POTCAR" := "Si"]> ∅))).

(** A reference directory whose outputs hold three files and a folder. *)
Definition toy_ref : FakeVasp.ref_dir := {|
  FakeVasp.inputs := toy_inputs;
  FakeVasp.outputs :=
    Some [("OUTCAR", FakeVasp.RegularFile "outcar"); ("logs", FakeVasp.Directory);
          ("CONTCAR", FakeVasp.RegularFile "contcar");
          ("vasprun.xml", FakeVasp.RegularFile "vasprun")]
|}.

(** The working directory a job leaves before VASP runs: the four inputs
    (POTCAR as a spec file) and a submission script. *)
Definition toy_cwd : gmap string string :=
  <["INCAR" := "520"]> (<["KPOINTS" := "Gamma"]> (<["POSCAR" := "Si"]>
    (<["POTCAR.spec" := "Si"]> (<["job.sh" := "run"]> ∅)))).

(** The same directory with a k-point file that differs from the reference. *)
Definition toy_bad_cwd : gmap string string := <["KPOINTS" := "Monkhorst"]> toy_cwd.

(** The directory of [two_relax_dir] with one more output, whose base name
    "my.gzfile" has ".gz" in its middle. *)
Definition odd_name_dir : list (string * string) :=
  two_relax_dir ++ [("my.gzfile.relax2", "odd data")].

Definition potcar_only_dir : list (string * string) := [("POTCAR", "potcar")].

(** A single calculation whose INCAR is gzipped. *)
Definition gz_incar_dir : list (string * string) :=
  [("INCAR.gz", "incar"); ("OUTCAR", "outcar"); ("CONTCAR", "contcar");
   ("vasprun.xml", "vasprun"); ("POTCAR", "potcar")].

(** * Properties *)

(** ** Strings *)

Module PyStrProps.
Import PyStr PyStrSpec.

Lemma append_cons c s t : String c s +:+ t = String c (s +:+ t).
Proof. reflexivity. Qed.

Lemma append_nil_l s : "" +:+ s = s.
Proof. reflexivity. Qed.

Lemma append_nil_r s : s +:+ "" = s.
Proof. induction s as [|c s IH]; [reflexivity|]. rewrite append_cons, IH. reflexivity. Qed.

Lemma append_assoc s t u : (s +:+ t) +:+ u = s +:+ (t +:+ u).
Proof.
  induction s as [|c s IH]; [reflexivity|].
  rewrite !append_cons, IH. reflexivity.
Qed.

Lemma prefix_cons c p d s :
  String.prefix (String c p) (String d s) = true <-> c = d /\ String.prefix p s = true.
Proof.
  simpl. destruct (Ascii.ascii_dec c d) as [->|Hne].
  - split; [intros H; split; [reflexivity|exact H] | intros [_ H]; exact H].
  - split; [discriminate | intros [H _]; contradiction].
Qed.

Lemma prefix_append p s : String.prefix p (p +:+ s) = true.
Proof.
  induction p as [|c p IH]; [destruct s; reflexivity|].
  rewrite append_cons. apply prefix_cons. split; [reflexivity | exact IH].
Qed.

Lemma prefix_split p s : String.prefix p s = true -> exists t, s = p +:+ t.
Proof.
  revert s. induction p as [|c p IH]; intros s H.
  - exists s. reflexivity.
  - destruct s as [|d s]; [discriminate|].
    apply prefix_cons in H as [-> H]. destruct (IH _ H) as [t ->].
    exists t. reflexivity.
Qed.

Lemma contains_split old s :
  contains old s = true <-> exists a b, s = a +:+ old +:+ b.
Proof.
  split.
  - induction s as [|c s IH]; cbn [contains]; intros H.
    + apply orb_true_iff in H as [H|H]; [|discriminate].
      destruct (prefix_split _ _ H) as [t Ht]. exists "", t. exact Ht.
    + apply orb_true_iff in H as [H|H].
      * destruct (prefix_split _ _ H) as [t Ht]. exists "", t. exact Ht.
      * destruct (IH H) as (a & b & ->). exists (String c a), b. reflexivity.
  - intros (a & b & ->). induction a as [|c a IH].
    + rewrite append_nil_l.
      destruct (old +:+ b) eqn:Heq; cbn [contains]; rewrite <- Heq, prefix_append; reflexivity.
    + rewrite append_cons. cbn [contains]. rewrite IH. apply orb_true_r.
Qed.

Lemma fnmatch_star_all s : fnmatch "*" s = true.
Proof.
  induction s as [|c s IH]; [reflexivity|].
  cbn in *. exact IH.
Qed.

(** A pattern of literal characters followed by [*] matches the names that
    start with these characters. *)
Lemma fnmatch_literal_star lit t :
  no_wildcard lit = true -> fnmatch (lit +:+ "*") t = String.prefix lit t.
Proof.
  revert t. induction lit as [|p lit IH]; intros t Hlit.
  - rewrite append_nil_l, fnmatch_star_all. destruct t; reflexivity.
  - cbn [no_wildcard] in Hlit.
    apply andb_true_iff in Hlit as [Hp Hlit].
    apply andb_true_iff in Hp as [Hstar Hq].
    apply negb_true_iff in Hstar, Hq.
    rewrite append_cons. cbn [fnmatch]. rewrite Hstar.
    destruct t as [|c t]; [reflexivity|].
    rewrite Hq, (IH _ Hlit). cbn [orb String.prefix].
    destruct (Ascii.eqb_spec p c) as [->|Hne];
      destruct (Ascii.ascii_dec _ _); try reflexivity; congruence.
Qed.

(** The names the pattern "*.relax*" matches are those that contain
    ".relax". *)
Lemma fnmatch_relax s : fnmatch "*.relax*" s = contains ".relax" s.
Proof.
  change (fnmatch "*.relax*" s) with
    ((fix star (t : string) : bool :=
        fnmatch (".relax" +:+ "*") t ||
        match t with
        | EmptyString => false
        | String _ t' => star t'
        end) s).
  induction s as [|c s IH].
  - reflexivity.
  - cbn [contains]. rewrite <- IH, (fnmatch_literal_star ".relax") by reflexivity.
    reflexivity.
Qed.

Lemma prefix_cons_eqb c p d s :
  String.prefix (String c p) (String d s) = Ascii.eqb c d && String.prefix p s.
Proof.
  cbn [String.prefix].
  destruct (Ascii.eqb_spec c d), (Ascii.ascii_dec c d); try reflexivity; congruence.
Qed.

Lemma prefix_nil_r p : String.prefix p "" = match p with "" => true | _ => false end.
Proof. destruct p; reflexivity. Qed.

Lemma prefix_nil_l s : String.prefix "" s = true.
Proof. destruct s; reflexivity. Qed.

Lemma length_append s t : String.length (s +:+ t) = (String.length s + String.length t)%nat.
Proof.
  induction s as [|c s IH]; [reflexivity|].
  rewrite append_cons. cbn. rewrite IH. reflexivity.
Qed.

Lemma append_cancel_r a b s : a +:+ s = b +:+ s -> a = b.
Proof.
  revert b. induction a as [|c a IH]; intros b H.
  - destruct b as [|d b]; [reflexivity|]. apply (f_equal String.length) in H.
    rewrite append_cons, append_nil_l in H. cbn in H. rewrite length_append in H. lia.
  - destruct b as [|d b].
    + apply (f_equal String.length) in H.
      rewrite append_cons, append_nil_l in H. cbn in H. rewrite length_append in H. lia.
    + rewrite !append_cons in H. injection H as -> H. f_equal. exact (IH _ H).
Qed.

(** *** Patterns that start with a dot *)

(** A dot-free word that starts inside [a] cannot run on into a text that
    begins with a dot. *)
Lemma prefix_stays_within w a r :
  no_dot w = true -> dot_led r = true ->
  String.prefix w (a +:+ r) = String.prefix w a.
Proof.
  intros Hw Hr. revert a. induction w as [|x w IH]; intros a.
  - rewrite !prefix_nil_l. reflexivity.
  - cbn [no_dot] in Hw. apply andb_true_iff in Hw as [Hx Hw]. apply negb_true_iff in Hx.
    destruct a as [|y a].
    + rewrite append_nil_l. destruct r as [|c r]; [reflexivity|].
      cbn [dot_led] in Hr. apply Ascii.eqb_eq in Hr as ->.
      rewrite prefix_cons_eqb, Hx. reflexivity.
    + rewrite append_cons, !prefix_cons_eqb, (IH Hw). reflexivity.
Qed.

Lemma contains_nil old : contains old "" = String.prefix old "".
Proof. cbn [contains]. apply orb_false_r. Qed.

Lemma contains_app_dot w b r :
  no_dot w = true -> dot_led r = true ->
  contains (String "." w) (b +:+ r) = contains (String "." w) b || contains (String "." w) r.
Proof.
  intros Hw Hr. induction b as [|c b IH].
  - rewrite append_nil_l. reflexivity.
  - rewrite append_cons. cbn [contains]. rewrite IH, !prefix_cons_eqb.
    rewrite (prefix_stays_within _ _ _ Hw Hr). rewrite orb_assoc. reflexivity.
Qed.

Lemma replace_go_skip old new x r :
  replace_go old new (String.length x) (x +:+ r) = replace_go old new 0 r.
Proof.
  induction x as [|c x IH]; [reflexivity|]. rewrite append_cons. exact IH.
Qed.

Lemma replace_go_hit old new r :
  old <> "" -> replace_go old new 0 (old +:+ r) = new +:+ replace_go old new 0 r.
Proof.
  destruct old as [|c old]; [intros H; contradiction H; reflexivity|]. intros _.
  rewrite append_cons. cbn [replace_go].
  rewrite <- append_cons, prefix_append.
  cbn [String.length]. rewrite Nat.sub_1_r. cbn [Nat.pred]. rewrite replace_go_skip. reflexivity.
Qed.

(** A text free of the pattern is passed over unchanged, also when what
    follows begins with a dot. *)
Lemma replace_go_pass w new b r :
  no_dot w = true -> dot_led r = true -> contains (String "." w) b = false ->
  replace_go (String "." w) new 0 (b +:+ r) = b +:+ replace_go (String "." w) new 0 r.
Proof.
  intros Hw Hr. induction b as [|c b IH]; intros Hb; [reflexivity|].
  cbn [contains] in Hb. apply orb_false_iff in Hb as [Hhere Hb].
  rewrite prefix_cons_eqb in Hhere.
  rewrite !append_cons. cbn [replace_go].
  rewrite prefix_cons_eqb, (prefix_stays_within _ _ _ Hw Hr), Hhere, (IH Hb). reflexivity.
Qed.

Lemma contains_prefix_longer p q s : contains (p +:+ q) s = true -> contains p s = true.
Proof.
  rewrite !contains_split. intros (a & b & ->). exists a, (q +:+ b).
  rewrite append_assoc. reflexivity.
Qed.

Lemma endswith_contains suffix s : endswith suffix s = true -> contains suffix s = true.
Proof.
  induction s as [|c s IH]; cbn [endswith contains].
  - rewrite !orb_false_r. intros H. apply String.eqb_eq in H as ->. reflexivity.
  - intros [H|H]%orb_true_iff.
    + apply String.eqb_eq in H as ->. rewrite <- (append_nil_r (String c s)) at 2.
      rewrite prefix_append. reflexivity.
    + rewrite (IH H). apply orb_true_r.
Qed.

Lemma endswith_append suffix a : endswith suffix (a +:+ suffix) = true.
Proof.
  induction a as [|c a IH].
  - rewrite append_nil_l. destruct suffix; cbn [endswith]; rewrite String.eqb_refl; reflexivity.
  - rewrite append_cons. cbn [endswith]. rewrite IH. apply orb_true_r.
Qed.

Lemma substring_append x y : String.substring 0 (String.length x) (x +:+ y) = x.
Proof.
  induction x as [|c x IH].
  - destruct y; reflexivity.
  - rewrite append_cons. cbn [String.length String.substring]. rewrite IH. reflexivity.
Qed.

End PyStrProps.

(** ** Comprehensions *)

Lemma comprehension_inr {A B} (f : A -> result B) l ys :
  comprehension f l = inr ys <-> Forall2 (fun x y => f x = inr y) l ys.
Proof.
  revert ys. induction l as [|x l IH]; intros ys; cbn [comprehension].
  - split; [intros [= <-]; constructor | intros H; inversion H; reflexivity].
  - destruct (f x) as [e|y] eqn:Hx.
    + split; [discriminate | intros H; inversion H; congruence].
    + destruct (comprehension f l) as [e|ys'] eqn:Hl.
      * split; [discriminate|]. intros H. inversion H as [|? y' ? ys'' _ Hrest]; subst.
        apply IH in Hrest. discriminate.
      * split.
        -- intros [= <-]. constructor; [exact Hx | apply IH; reflexivity].
        -- intros H. inversion H as [|? y' ? ys'' Hy Hrest]; subst.
           apply IH in Hrest. congruence.
Qed.

Lemma Forall2_elem_l {A B} (P : A -> B -> Prop) l k x :
  Forall2 P l k -> x ∈ l -> exists y, y ∈ k /\ P x y.
Proof.
  induction 1 as [|a b l k Hab _ IH]; intros Hx; [inversion Hx|].
  apply elem_of_cons in Hx as [->|Hx].
  - exists b. split; [left | exact Hab].
  - destruct (IH Hx) as (y & Hy & HP). exists y. split; [right; exact Hy | exact HP].
Qed.

Lemma comprehension_inl {A B} (f : A -> result B) l e :
  comprehension f l = inl e -> exists x, x ∈ l /\ f x = inl e.
Proof.
  induction l as [|x l IH]; cbn [comprehension]; [discriminate|].
  destruct (f x) as [e'|y] eqn:Hx.
  - intros [= <-]. exists x. split; [left | exact Hx].
  - destruct (comprehension f l) as [e'|ys]; [|discriminate].
    intros [= <-]. destruct IH as (x' & Hin & Hx'); [reflexivity|].
    exists x'. split; [right; exact Hin | exact Hx'].
Qed.

Lemma comprehension_total {A B} (f : A -> result B) l :
  Forall (fun x => exists y, f x = inr y) l -> exists ys, comprehension f l = inr ys.
Proof.
  induction 1 as [|x l [y Hy] _ [ys Hys]]; cbn [comprehension].
  - exists []. reflexivity.
  - rewrite Hy, Hys. exists (y :: ys). reflexivity.
Qed.

(** ** The largest relax extension *)

Module RelaxExtProps.
Import PyStr PyStrSpec PyStrProps RelaxExt RelaxExtSpec.

Lemma glob_relax_elem fs dir host f :
  f ∈ FileClient.glob fs dir "*.relax*" host <->
  f ∈ FileClient.listdir fs dir host /\ contains ".relax" f = true.
Proof.
  unfold FileClient.glob. rewrite list_elem_of_filter, fnmatch_relax.
  rewrite Is_true_true. tauto.
Qed.

Lemma take_digits_all_digits s : all_digits (take_digits s) = true.
Proof.
  induction s as [|c s IH]; [reflexivity|]. cbn [take_digits].
  destruct (is_digit c) eqn:Hc; [|reflexivity]. cbn [all_digits]. rewrite Hc, IH. reflexivity.
Qed.

Lemma take_digits_split s :
  exists rest, s = take_digits s +:+ rest /\ first_is_digit rest = false.
Proof.
  induction s as [|c s (rest & Hs & Hrest)].
  - exists "". split; reflexivity.
  - cbn [take_digits]. destruct (is_digit c) eqn:Hc.
    + exists rest. rewrite append_cons, <- Hs. split; [reflexivity | exact Hrest].
    + exists (String c s). split; [reflexivity | exact Hc].
Qed.

Lemma take_digits_exact N rest :
  all_digits N = true -> first_is_digit rest = false -> take_digits (N +:+ rest) = N.
Proof.
  intros HN Hrest. induction N as [|c N IH].
  - rewrite append_nil_l. destruct rest as [|d rest]; [reflexivity|].
    cbn in Hrest |- *. rewrite Hrest. reflexivity.
  - cbn [all_digits] in HN. apply andb_true_iff in HN as [Hc HN].
    rewrite append_cons. cbn [take_digits]. rewrite Hc, (IH HN). reflexivity.
Qed.

Lemma take_digits_first s : take_digits s <> "" -> first_is_digit s = true.
Proof.
  destruct s as [|c s]; [intros H; contradiction H; reflexivity|].
  cbn. destruct (is_digit c); [reflexivity | intros H; contradiction H; reflexivity].
Qed.

Lemma drop_prefix p s : String.prefix p s = true -> s = p +:+ drop (String.length p) s.
Proof.
  revert s. induction p as [|c p IH]; intros s H; [reflexivity|].
  destruct s as [|d s]; [discriminate|].
  apply prefix_cons in H as [-> H]. cbn [String.length drop].
  rewrite append_cons, <- (IH _ H). reflexivity.
Qed.

(** What a successful match at the start of [s] has read. *)
Lemma match_relax_here_Some s N :
  match_relax_here s = Some N ->
  exists c rest,
    s = String c ("relax" +:+ N +:+ rest) /\ c <> newline /\
    N <> "" /\ all_digits N = true /\ first_is_digit rest = false.
Proof.
  destruct s as [|c s]; [discriminate|]. unfold match_relax_here.
  destruct (negb (Ascii.eqb c newline) && String.prefix "relax" s) eqn:Hguard; [|discriminate].
  apply andb_true_iff in Hguard as [Hc Hp].
  apply negb_true_iff, Ascii.eqb_neq in Hc.
  destruct (take_digits_split (drop 5 s)) as (rest & Hsplit & Hrest).
  pose proof (take_digits_all_digits (drop 5 s)) as Hall.
  destruct (take_digits (drop 5 s)) as [|d ds] eqn:Hds; [discriminate|].
  intros [= <-]. exists c, rest. repeat split; try assumption; [|discriminate].
  f_equal. rewrite (drop_prefix _ _ Hp) at 1. cbn [String.length]. rewrite Hsplit at 1.
  reflexivity.
Qed.

(** The number [re.search] reads sits after "relax", which follows some
    character other than a newline. *)
Lemma re_search_relax_Some s N :
  re_search_relax s = Some N ->
  exists before c rest,
    s = before +:+ String c ("relax" +:+ N +:+ rest) /\ c <> newline /\
    N <> "" /\ all_digits N = true /\ first_is_digit rest = false.
Proof.
  induction s as [|c s IH]; cbn [re_search_relax].
  - cbn. discriminate.
  - destruct (match_relax_here (String c s)) as [ds|] eqn:Hhere.
    + intros [= <-]. destruct (match_relax_here_Some _ _ Hhere) as (c' & rest & Hs & H).
      exists "", c', rest. split; [exact Hs | exact H].
    + intros H. destruct (IH H) as (before & c' & rest & -> & H').
      exists (String c before), c', rest. split; [reflexivity | exact H'].
Qed.

Lemma re_search_relax_digit s N : re_search_relax s = Some N -> relax_then_digit s = true.
Proof.
  induction s as [|c s IH]; cbn [re_search_relax].
  - cbn. discriminate.
  - destruct (match_relax_here (String c s)) as [ds|] eqn:Hhere.
    + intros _. cbn [relax_then_digit]. apply orb_true_iff. right.
      unfold match_relax_here in Hhere.
      destruct (negb (Ascii.eqb c newline) && String.prefix "relax" s) eqn:Hguard;
        [|discriminate].
      apply andb_true_iff in Hguard as [_ Hp].
      destruct s as [|d s]; [discriminate|]. cbn [relax_then_digit].
      apply orb_true_iff. left. rewrite Hp. cbn [andb].
      apply take_digits_first. destruct (take_digits _); [discriminate|discriminate].
    + intros H. cbn [relax_then_digit]. rewrite (IH H). apply orb_true_r.
Qed.

Lemma max_by_int_elem best l : max_by_int best l ∈ best :: l.
Proof.
  revert best. induction l as [|x l IH]; intros best; cbn [max_by_int].
  - left.
  - destruct (int best <? int x).
    + right. apply IH.
    + specialize (IH best). apply elem_of_cons in IH as [->|IH]; [left | right; right; exact IH].
Qed.

Lemma max_by_int_lower best l : int best <= int (max_by_int best l).
Proof.
  revert best. induction l as [|x l IH]; intros best; cbn [max_by_int]; [lia|].
  destruct (N.ltb_spec (int best) (int x)).
  - specialize (IH x). lia.
  - apply IH.
Qed.

Lemma max_by_int_upper best l x : x ∈ best :: l -> int x <= int (max_by_int best l).
Proof.
  revert best. induction l as [|y l IH]; intros best Hx; cbn [max_by_int].
  - apply elem_of_cons in Hx as [->|Hx]; [lia | inversion Hx].
  - apply elem_of_cons in Hx as [->|Hx].
    + destruct (N.ltb_spec (int best) (int y)).
      * pose proof (max_by_int_lower y l). lia.
      * apply max_by_int_lower.
    + destruct (N.ltb_spec (int best) (int y)).
      * apply IH. exact Hx.
      * apply elem_of_cons in Hx as [->|Hx].
        -- pose proof (max_by_int_lower best l). lia.
        -- apply IH. right. exact Hx.
Qed.

Lemma numbers_of_files files numbers :
  comprehension number_of files = inr numbers ->
  (forall N, N ∈ numbers -> exists f, f ∈ files /\ re_search_relax f = Some N) /\
  (forall f N, f ∈ files -> re_search_relax f = Some N -> N ∈ numbers).
Proof.
  rewrite comprehension_inr. induction 1 as [|f N files numbers Hf _ [IH1 IH2]].
  - split; [intros N H; inversion H | intros f N H; inversion H].
  - unfold number_of in Hf. destruct (re_search_relax f) as [ds|] eqn:Hs; [|discriminate].
    injection Hf as ->. split.
    + intros N' [->|HN']%elem_of_cons.
      * exists f. split; [left | exact Hs].
      * destruct (IH1 _ HN') as (g & Hg & Hg'). exists g. split; [right; exact Hg | exact Hg'].
    + intros g N' [->|Hg]%elem_of_cons Hg'.
      * rewrite Hs in Hg'. injection Hg' as ->. left.
      * right. exact (IH2 _ _ Hg Hg').
Qed.

Lemma get_largest_relax_extension_unfold fs directory host :
  get_largest_relax_extension fs directory host =
  match FileClient.glob fs directory "*.relax*" host with
  | [] => inr ""
  | relax_files =>
      match comprehension number_of relax_files with
      | inl e => inl e
      | inr [] => inl (ValueError "max() arg is an empty sequence")
      | inr (n :: numbers) => inr (".relax" +:+ max_by_int n numbers)
      end
  end.
Proof.
  unfold get_largest_relax_extension.
  destruct (FileClient.glob fs directory "*.relax*" host); reflexivity.
Qed.

(** C1 (as amended).  When every file matching "*.relax*" has a name in which
    [re.search] finds "relax" followed by a digit, the function returns
    ".relax" followed by the digits [M] read from one of these files, and no
    matching file carries a number larger than [M] as an integer; without a
    matching file it returns the empty string. *)
Theorem largest_relax_extension_correct fs directory host :
  Forall (fun f => is_Some (re_search_relax f))
         (FileClient.glob fs directory "*.relax*" host) ->
  (FileClient.glob fs directory "*.relax*" host = [] ->
   get_largest_relax_extension fs directory host = inr "") /\
  (FileClient.glob fs directory "*.relax*" host <> [] ->
   exists f M,
     f ∈ FileClient.glob fs directory "*.relax*" host /\
     re_search_relax f = Some M /\
     get_largest_relax_extension fs directory host = inr (".relax" +:+ M) /\
     forall g N, g ∈ FileClient.glob fs directory "*.relax*" host ->
                 re_search_relax g = Some N -> int N <= int M).
Proof.
  intros Hall. rewrite get_largest_relax_extension_unfold.
  destruct (FileClient.glob fs directory "*.relax*" host) as [|f0 files] eqn:Hglob.
  - split; [reflexivity | intros H; contradiction H; reflexivity].
  - split; [discriminate|]. intros _.
    destruct (comprehension_total number_of (f0 :: files)) as [numbers Hnum].
    { eapply Forall_impl; [exact Hall|]. intros f [ds Hds]. exists ds.
      unfold number_of. rewrite Hds. reflexivity. }
    rewrite Hnum. destruct (numbers_of_files _ _ Hnum) as [Hfrom Hto].
    destruct numbers as [|n numbers].
    { apply comprehension_inr in Hnum. inversion Hnum. }
    destruct (Hfrom (max_by_int n numbers) (max_by_int_elem n numbers)) as (f & Hf & HfM).
    exists f, (max_by_int n numbers). repeat split; try assumption.
    intros g N Hg HgN. apply max_by_int_upper. exact (Hto _ _ Hg HgN).
Qed.

(** C1 on a directory with relaxations 9, 10 and 2. *)
Lemma largest_relax_extension_witness :
  Forall (fun f => is_Some (re_search_relax f))
         (FileClient.glob (local_calc ten_relax_dir) "/calc" "*.relax*" None) /\
  exists f M,
     f ∈ FileClient.glob (local_calc ten_relax_dir) "/calc" "*.relax*" None /\
     re_search_relax f = Some M /\
     get_largest_relax_extension (local_calc ten_relax_dir) "/calc" None
       = inr (".relax" +:+ M) /\
     forall g N, g ∈ FileClient.glob (local_calc ten_relax_dir) "/calc" "*.relax*" None ->
                 re_search_relax g = Some N -> int N <= int M.
Proof.
  assert (H : Forall (fun f => is_Some (re_search_relax f))
                (FileClient.glob (local_calc ten_relax_dir) "/calc" "*.relax*" None)).
  { vm_compute. repeat constructor; eexists; reflexivity. }
  split; [exact H|].
  apply (largest_relax_extension_correct (local_calc ten_relax_dir) "/calc" None H).
  vm_compute. discriminate.
Defined.

(** Numeric, not lexicographic: ".relax10" wins over ".relax9". *)
Example relax10_beats_relax9 :
  get_largest_relax_extension (local_calc ten_relax_dir) "/calc" None = inr ".relax10".
Proof. vm_compute. reflexivity. Qed.

(** C1 as worded fails: with a backup file next to "INCAR.relax1" the worded
    result would be ".relax1", and the function raises instead. *)
Lemma largest_relax_as_worded_fails :
  ~ largest_relax_as_worded
      (FileClient.glob (local_calc backup_dir) "/calc" "*.relax*" None)
      (get_largest_relax_extension (local_calc backup_dir) "/calc" None).
Proof.
  assert (Hr : get_largest_relax_extension (local_calc backup_dir) "/calc" None
               = inl no_group) by (vm_compute; reflexivity).
  rewrite Hr. intros [[_ H] | (f & M & _ & _ & H & _)]; discriminate.
Qed.

Lemma number_of_inl f e : number_of f = inl e -> e = no_group /\ re_search_relax f = None.
Proof.
  unfold number_of. destruct (re_search_relax f); [discriminate|].
  intros [= <-]. split; reflexivity.
Qed.

(** C5.  The function returns only when every file matching "*.relax*" has
    "relax" directly followed by a digit in its name; a matching file in which
    the search finds nothing makes it raise [AttributeError]; the directory
    holding just "POSCAR.relax_backup" is such an input. *)
Theorem relax_extension_partial :
  (forall fs directory host s,
     get_largest_relax_extension fs directory host = inr s ->
     Forall (fun f => relax_then_digit f = true)
            (FileClient.glob fs directory "*.relax*" host)) /\
  (forall fs directory host f,
     f ∈ FileClient.glob fs directory "*.relax*" host ->
     re_search_relax f = None ->
     get_largest_relax_extension fs directory host = inl no_group) /\
  (FileClient.glob (local_calc only_backup_dir) "/calc" "*.relax*" None
     = ["POSCAR.relax_backup"] /\
   relax_then_digit "POSCAR.relax_backup" = false /\
   re_search_relax "POSCAR.relax_backup" = None /\
   get_largest_relax_extension (local_calc only_backup_dir) "/calc" None = inl no_group).
Proof.
  split; [|split].
  - intros fs directory host s. rewrite get_largest_relax_extension_unfold.
    destruct (FileClient.glob fs directory "*.relax*" host) as [|f0 files]; [constructor|].
    destruct (comprehension number_of (f0 :: files)) as [e|numbers] eqn:Hnum; [discriminate|].
    intros _. apply comprehension_inr in Hnum. apply Forall_forall. intros f Hf.
    destruct (Forall2_elem_l _ _ _ _ Hnum Hf) as (N & _ & HN).
    unfold number_of in HN. destruct (re_search_relax f) as [ds|] eqn:Hs; [|discriminate].
    exact (re_search_relax_digit _ _ Hs).
  - intros fs directory host f Hf Hnone. rewrite get_largest_relax_extension_unfold.
    destruct (FileClient.glob fs directory "*.relax*" host) as [|f0 files]; [inversion Hf|].
    destruct (comprehension number_of (f0 :: files)) as [e|numbers] eqn:Hnum.
    + destruct (comprehension_inl _ _ _ Hnum) as (x & _ & Hx).
      apply number_of_inl in Hx as [-> _]. reflexivity.
    + destruct (numbers_of_files _ _ Hnum) as [_ Hto].
      apply comprehension_inr in Hnum.
      destruct (Forall2_elem_l _ _ _ _ Hnum Hf) as (N & _ & HN).
      unfold number_of in HN. rewrite Hnone in HN. discriminate.
  - vm_compute. repeat split; reflexivity.
Qed.

Lemma relax_extension_shaped fs directory host ext :
  get_largest_relax_extension fs directory host = inr ext -> relax_shaped ext.
Proof.
  rewrite get_largest_relax_extension_unfold.
  destruct (FileClient.glob fs directory "*.relax*" host) as [|f0 files].
  - intros [= <-]. left. reflexivity.
  - destruct (comprehension number_of (f0 :: files)) as [e|[|n numbers]] eqn:Hnum;
      [discriminate | discriminate |].
    intros [= <-]. right. exists (max_by_int n numbers). split; [reflexivity|].
    destruct (numbers_of_files _ _ Hnum) as [Hfrom _].
    destruct (Hfrom _ (max_by_int_elem n numbers)) as (f & _ & Hf).
    destruct (re_search_relax_Some _ _ Hf) as (? & ? & ? & _ & _ & Hne & Hall & _).
    split; assumption.
Qed.

(** A name written as the claim has it, base, ".relax", digits, with no
    "relax" in the base: the search reads these digits. *)
Lemma re_search_relax_suffix base N rest :
  contains "relax" base = false -> N <> "" -> all_digits N = true ->
  first_is_digit rest = false ->
  re_search_relax (base +:+ ".relax" +:+ N +:+ rest) = Some N.
Proof.
  intros Hbase HN Hall Hrest. induction base as [|c base IH].
  - rewrite append_nil_l.
    change (".relax" +:+ N +:+ rest) with (String "." ("relax" +:+ (N +:+ rest))).
    cbn [re_search_relax]. unfold match_relax_here.
    rewrite prefix_append. cbn [negb andb Ascii.eqb Bool.eqb newline ascii_of_nat].
    change (drop 5 ("relax" +:+ (N +:+ rest))) with (N +:+ rest).
    rewrite (take_digits_exact _ _ Hall Hrest).
    destruct N; [contradiction HN; reflexivity | reflexivity].
  - cbn [contains] in Hbase. apply orb_false_iff in Hbase as [_ Hbase].
    rewrite append_cons. cbn [re_search_relax].
    assert (match_relax_here (String c (base +:+ ".relax" +:+ N +:+ rest)) = None) as ->.
    { unfold match_relax_here.
      rewrite (prefix_stays_within "relax" base (".relax" +:+ N +:+ rest) eq_refl eq_refl).
      assert (String.prefix "relax" base = false) as ->.
      { destruct base as [|d base]; [reflexivity|]. cbn [contains] in Hbase.
        apply orb_false_iff in Hbase as [H _]. exact H. }
      rewrite andb_false_r. reflexivity. }
    exact (IH Hbase).
Qed.

(** "relax" followed by a digit is needed but is not enough: the search also
    wants a character before "relax". *)
Example relax_digit_not_sufficient :
  relax_then_digit "relax1.relax_x" = true /\
  PyStr.fnmatch "*.relax*" "relax1.relax_x" = true /\
  re_search_relax "relax1.relax_x" = None.
Proof. repeat split; reflexivity. Qed.

End RelaxExtProps.

(** ** Writing an input set *)

Module InputSetProps.
Import PyStr PyStrProps InputSet InputSetSpec.

Lemma contains_char c d s :
  contains (String c "") (String d s) = Ascii.eqb c d || contains (String c "") s.
Proof.
  cbn [contains String.prefix].
  destruct (Ascii.eqb_spec c d) as [->|Hne]; destruct (Ascii.ascii_dec _ _);
    try congruence; try reflexivity.
  destruct s; reflexivity.
Qed.

Lemma rsplit1_None sep s : rsplit1 sep s = None <-> contains (String sep "") s = false.
Proof.
  induction s as [|c s IH]; [split; reflexivity|].
  cbn [rsplit1]. rewrite contains_char, (Ascii.eqb_sym sep c).
  destruct (rsplit1 sep s) as [[a b]|].
  - split; [discriminate|]. intros H. apply orb_false_iff in H as [_ H].
    apply IH in H. discriminate.
  - destruct (Ascii.eqb c sep); [split; discriminate|].
    rewrite (proj1 IH eq_refl). split; reflexivity.
Qed.

Lemma rsplit1_Some sep s a b :
  rsplit1 sep s = Some (a, b) ->
  s = a +:+ String sep b /\ contains (String sep "") b = false.
Proof.
  revert a. induction s as [|c s IH]; intros a; cbn [rsplit1]; [discriminate|].
  destruct (rsplit1 sep s) as [[a' b']|] eqn:Hs.
  - intros [= <- <-]. destruct (IH _ eq_refl) as [-> Hb].
    split; [reflexivity | exact Hb].
  - destruct (Ascii.eqb_spec c sep) as [->|]; [|discriminate].
    intros [= <- <-]. split; [reflexivity | apply rsplit1_None; exact Hs].
Qed.

Section WriteInputSet.

Context {structure kwargs vis world : Type}.
Variable empty_kwargs : kwargs.
Variable import_module :
  string -> result (string -> option (@input_set_class structure kwargs vis world)).
Variable write_input : vis -> string -> kwargs -> ST world unit.

Local Abbreviation cannot_import := (cannot_import import_module).

Lemma load_class_cannot_import module cls :
  cannot_import module cls ->
  load_class import_module module cls = inl (could_not_import cls module).
Proof.
  unfold cannot_import, load_class, getattr.
  destruct (import_module module) as [e|m].
  - intros ->. reflexivity.
  - intros ->. reflexivity.
Qed.

(** An exception of another class raised by the import is not turned into an
    [ImportError]. *)
Lemma load_class_other_exception module cls e :
  import_module module = inl e -> caught e = false ->
  load_class import_module module cls = inl e.
Proof. unfold load_class. intros -> ->. reflexivity. Qed.

Lemma load_class_found module cls m c :
  import_module module = inr m -> m cls = Some c ->
  load_class import_module module cls = inr c.
Proof. unfold load_class, getattr. intros -> ->. reflexivity. Qed.

(** C3 (as amended).  The class is resolved from the string: with a dot in
    it, the module is what stands before the last dot and the class name what
    stands after it; without one, the class is looked up in
    "pymatgen.io.vasp.sets"; the class is the attribute of that name of the
    imported module; when the import raises [ModuleNotFoundError],
    [ImportError] or [AttributeError], or the module has no such attribute,
    [ImportError] is raised (and nothing has been written); an exception of
    another class raised by the import is passed on as it is. *)
Theorem input_set_class_resolution (input_set : string) :
  (contains "." input_set = true ->
   exists module cls,
     resolve input_set = inr (module, cls) /\
     input_set = module +:+ "." +:+ cls /\ contains "." cls = false) /\
  (contains "." input_set = false ->
   resolve input_set = inr ("pymatgen.io.vasp.sets", input_set)) /\
  (forall module cls m c,
     resolve input_set = inr (module, cls) ->
     import_module module = inr m -> m cls = Some c ->
     load_class import_module module cls = inr c) /\
  (forall module cls s ik wk from_prev w,
     resolve input_set = inr (module, cls) ->
     cannot_import module cls ->
     write_vasp_input_set empty_kwargs import_module write_input
       s input_set ik wk from_prev w
     = (inl (could_not_import cls module), w)) /\
  (forall module cls e s ik wk from_prev w,
     resolve input_set = inr (module, cls) ->
     import_module module = inl e -> caught e = false ->
     write_vasp_input_set empty_kwargs import_module write_input
       s input_set ik wk from_prev w
     = (inl e, w)).
Proof.
  split; [|split; [|split; [|split]]].
  - intros Hdot. unfold resolve, rsplit_dot. rewrite Hdot.
    destruct (rsplit1 "." input_set) as [[a b]|] eqn:Hsplit.
    + destruct (rsplit1_Some _ _ _ _ Hsplit) as [Hs Hb].
      exists a, b. repeat split; assumption.
    + apply rsplit1_None in Hsplit. congruence.
  - intros Hdot. unfold resolve. rewrite Hdot. reflexivity.
  - intros module cls m c _. apply load_class_found.
  - intros module cls s ik wk from_prev w Hres Hcannot.
    unfold write_vasp_input_set, mbind, st_bind, lift.
    rewrite Hres, (load_class_cannot_import _ _ Hcannot). reflexivity.
  - intros module cls e s ik wk from_prev w Hres Himport Hcaught.
    unfold write_vasp_input_set, mbind, st_bind, lift.
    rewrite Hres, (load_class_other_exception _ _ _ Himport Hcaught). reflexivity.
Qed.

(** C8.  Once the class is resolved, the input set is built by the class's
    [from_prev] when [from_prev] is set and the class has one, and by calling
    the class on the structure otherwise, each with [input_set_kwargs]; the
    deck is then written by the object's [write_input] on "." with
    [write_input_kwargs] (absent dictionaries are empty).  The structure
    reaches the files only through that object: two structures from which
    the class builds the same object give the same run. *)
Theorem write_vasp_input_set_through_class
    (s : structure) (input_set module cls : string) (c : input_set_class)
    (ik wk : option kwargs) (from_prev : bool) :
  resolve input_set = inr (module, cls) ->
  load_class import_module module cls = inr c ->
  instantiate c from_prev s (default empty_kwargs ik)
    = (if from_prev
       then match from_prev_method c with
            | Some from_prev_fn => from_prev_fn "." s (default empty_kwargs ik)
            | None => init c s (default empty_kwargs ik)
            end
       else init c s (default empty_kwargs ik)) /\
  (forall w,
     write_vasp_input_set empty_kwargs import_module write_input
       s input_set ik wk from_prev w
     = match instantiate c from_prev s (default empty_kwargs ik) w with
       | (inr v, w') => write_input v "." (default empty_kwargs wk) w'
       | (inl e, w') => (inl e, w')
       end) /\
  (forall s' w,
     instantiate c from_prev s (default empty_kwargs ik) w
       = instantiate c from_prev s' (default empty_kwargs ik) w ->
     write_vasp_input_set empty_kwargs import_module write_input
       s input_set ik wk from_prev w
     = write_vasp_input_set empty_kwargs import_module write_input
         s' input_set ik wk from_prev w).
Proof.
  intros Hres Hload.
  assert (Hrun : forall s0 w,
            write_vasp_input_set empty_kwargs import_module write_input
              s0 input_set ik wk from_prev w
            = match instantiate c from_prev s0 (default empty_kwargs ik) w with
              | (inr v, w') => write_input v "." (default empty_kwargs wk) w'
              | (inl e, w') => (inl e, w')
              end).
  { intros s0 w. unfold write_vasp_input_set, mbind, st_bind, lift.
    rewrite Hres, Hload. reflexivity. }
  split; [|split].
  - unfold instantiate. destruct from_prev, (from_prev_method c); reflexivity.
  - intros w. apply Hrun.
  - intros s' w Hsame. rewrite !Hrun, Hsame. reflexivity.
Qed.

End WriteInputSet.

(** C8 on the toy class "MPStaticSet" with [from_prev] set. *)
Lemma write_vasp_input_set_through_class_witness :
  resolve "MPStaticSet" = inr ("pymatgen.io.vasp.sets", "MPStaticSet") /\
  load_class toy_import_module "pymatgen.io.vasp.sets" "MPStaticSet" = inr toy_static_set /\
  forall w : gmap string string,
    write_vasp_input_set [] toy_import_module toy_write_input
      "Si2" "MPStaticSet" None None true w
    = match instantiate toy_static_set true "Si2" [] w with
      | (inr v, w') => toy_write_input v "." [] w'
      | (inl e, w') => (inl e, w')
      end.
Proof.
  assert (Hres : resolve "MPStaticSet" = inr ("pymatgen.io.vasp.sets", "MPStaticSet"))
    by reflexivity.
  assert (Hload : load_class toy_import_module "pymatgen.io.vasp.sets" "MPStaticSet"
                  = inr toy_static_set) by reflexivity.
  split; [exact Hres|]. split; [exact Hload|].
  exact (proj1 (proj2 (write_vasp_input_set_through_class
                         [] toy_import_module toy_write_input
                         "Si2" "MPStaticSet" _ _ toy_static_set None None true
                         Hres Hload))).
Defined.

(** C3 as worded fails.  ".MPStaticSet" names the empty module; importing it
    is a [ValueError], which the [except] clause does not catch. *)
Lemma leading_dot_is_value_error :
  ~ import_error_as_worded [] toy_import_module toy_write_input.
Proof.
  intros H.
  destruct (H ".MPStaticSet" "" "MPStaticSet" "Si2" None None false ∅ eq_refl) as [msg Hmsg].
  - intros m c Himport. discriminate Himport.
  - discriminate Hmsg.
Qed.

Example leading_dot_run :
  write_vasp_input_set [] toy_import_module toy_write_input
    "Si2" ".MPStaticSet" None None false ∅
  = (inl (ValueError "Empty module name"), ∅).
Proof. reflexivity. Qed.

Example relative_path_run :
  (write_vasp_input_set [] toy_import_module toy_write_input
     "Si2" ".sets.MPStaticSet" None None false ∅).1
  = inl (OtherError "TypeError"
           "the 'package' argument is required to perform a relative import for '.sets'").
Proof. reflexivity. Qed.

Example toy_run :
  write_vasp_input_set [] toy_import_module toy_write_input
    "Si2" "MPStaticSet" None None true ∅
  = (inr tt, {["INCAR" := "static from . Si2"]}).
Proof. reflexivity. Qed.

Example toy_missing_class :
  write_vasp_input_set [] toy_import_module toy_write_input
    "Si2" "mypackage.mymodule.InputSet" None None false ∅
  = (inl (ImportError "Could not import input set InputSet from mypackage.mymodule."), ∅).
Proof. reflexivity. Qed.

End InputSetProps.

(** ** Loops over the working directory *)

Lemma for_each_total {S A} (body : A -> ST S unit) (step : A -> S -> S) l s :
  (forall x s', body x s' = (inr tt, step x s')) ->
  for_each body l s = (inr tt, foldl (fun s' x => step x s') s l).
Proof.
  intros Hbody. revert s. induction l as [|x l IH]; intros s; [reflexivity|].
  cbn [for_each foldl]. unfold mbind, st_bind. rewrite Hbody. apply IH.
Qed.

(** ** The fake VASP run *)

Module FakeVaspProps.
Import PyStr FakeVasp FakeVaspSpec.

Lemma reference_files_lookup entries name data :
  NoDup entries.*1 ->
  reference_files entries !! name = Some data <-> (name, RegularFile data) ∈ entries.
Proof.
  revert name data. induction entries as [|[n k] entries IH]; intros name data Hnd.
  - cbn. rewrite lookup_empty. split; [discriminate | intros H; inversion H].
  - cbn [fmap list_fmap fst] in Hnd. apply NoDup_cons in Hnd as [Hn Hnd].
    pose proof (fun name data => IH name data Hnd) as IH'.
    rewrite elem_of_cons. destruct k as [d|]; cbn [reference_files].
    + rewrite lookup_union_Some_raw, IH', lookup_singleton_Some. split.
      * intros [Hin | [_ [-> ->]]]; [right; exact Hin | left; reflexivity].
      * intros [[= -> ->] | Hin].
        -- right. split; [|split; reflexivity].
           destruct (reference_files entries !! n) as [d'|] eqn:Hd'; [|reflexivity].
           apply IH' in Hd'. contradiction Hn.
           apply list_elem_of_fmap. exists (n, RegularFile d'). split; [reflexivity | exact Hd'].
        -- left. exact Hin.
    + rewrite IH'. split; [intros H; right; exact H | intros [[=] | H]; exact H].
Qed.

Lemma reference_files_dom entries name :
  name ∈ dom (reference_files entries) <->
  exists data, (name, RegularFile data) ∈ entries.
Proof.
  induction entries as [|[n k] entries IH].
  - cbn. rewrite dom_empty_L. split; [intros H; inversion H | intros [d H]; inversion H].
  - destruct k as [d|]; cbn [reference_files].
    + rewrite dom_union_L, elem_of_union, IH, dom_singleton_L, elem_of_singleton. split.
      * intros [[d' H] | ->]; [exists d'; right; exact H | exists d; left].
      * intros [d' [[= -> ->] | H]%elem_of_cons]; [right; reflexivity | left; exists d'; exact H].
    + rewrite IH. split; intros [d' H]; exists d'.
      * right. exact H.
      * apply elem_of_cons in H as [[=] | H]. exact H.
Qed.

Section Fixture.

Context {value style : Type} `{EqDecision style}.
Variable value_eqb : value -> value -> bool.
Variables (py_int_1 py_float_0_2 : value).
Variable parse_incar : string -> result (gmap string value).
Variable parse_kpoints : string -> result (@Kpoints style).
Variable parse_poscar : string -> result Poscar.
Variable parse_potcar : string -> result Potcar.

Local Abbreviation check_incar := (check_incar value_eqb py_int_1 py_float_0_2 parse_incar).
Local Abbreviation check_kpoints := (check_kpoints parse_kpoints).
Local Abbreviation check_poscar := (check_poscar parse_poscar).
Local Abbreviation check_potcar := (check_potcar parse_potcar).
Local Abbreviation check_phase :=
  (check_phase value_eqb py_int_1 py_float_0_2
     parse_incar parse_kpoints parse_poscar parse_potcar).
Local Abbreviation fake_run_vasp :=
  (fake_run_vasp value_eqb py_int_1 py_float_0_2
     parse_incar parse_kpoints parse_poscar parse_potcar).
Local Abbreviation requested_checks :=
  (requested_checks value_eqb py_int_1 py_float_0_2
     parse_incar parse_kpoints parse_poscar parse_potcar).

Lemma first_raised_None outcomes :
  first_raised outcomes = None <-> Forall (fun r => r = inr tt) outcomes.
Proof.
  induction outcomes as [|[e|[]] rest IH]; cbn [first_raised].
  - split; [constructor | reflexivity].
  - split; [discriminate | intros H; inversion H; discriminate].
  - rewrite IH. split; [intros H; constructor; [reflexivity | exact H]
                       | intros H; inversion H; assumption].
Qed.

Lemma first_raised_Some outcomes e :
  first_raised outcomes = Some e -> inl e ∈ outcomes.
Proof.
  induction outcomes as [|[e'|[]] rest IH]; cbn [first_raised]; [discriminate| |].
  - intros [= ->]. left.
  - intros H. right. exact (IH H).
Qed.

(** The check phase never writes, and raises what the first failing
    requested check raises. *)
Lemma check_phase_run ref_path incar_settings check_inputs cwd :
  check_phase ref_path incar_settings check_inputs cwd =
  (match first_raised (requested_checks ref_path incar_settings check_inputs cwd) with
   | Some e => inl e
   | None => inr tt
   end, cwd).
Proof.
  unfold FakeVasp.check_phase, requested_checks, mbind, st_bind, reads, mret, st_ret.
  destruct (bool_decide ("incar" ∈ check_inputs)); cbn [app first_raised].
  all: try (destruct (check_incar ref_path incar_settings cwd) as [?|[]];
            cbn [first_raised]; [reflexivity|]).
  all: destruct (bool_decide ("kpoints" ∈ check_inputs)); cbn [app first_raised].
  all: try (destruct (check_kpoints ref_path cwd) as [?|[]];
            cbn [first_raised]; [reflexivity|]).
  all: destruct (bool_decide ("poscar" ∈ check_inputs)); cbn [app first_raised].
  all: try (destruct (check_poscar ref_path cwd) as [?|[]];
            cbn [first_raised]; [reflexivity|]).
  all: destruct (bool_decide ("potcar" ∈ check_inputs)); cbn [app first_raised].
  all: try (destruct (check_potcar ref_path cwd) as [?|[]];
            cbn [first_raised]; [reflexivity|]).
  all: reflexivity.
Qed.

Lemma clear_vasp_inputs_run cwd :
  clear_vasp_inputs cwd = (inr tt, foldl (fun m f => delete f m) cwd cleared_names).
Proof.
  unfold clear_vasp_inputs.
  rewrite (for_each_total _ (fun f (m : gmap string string) => delete f m)); [reflexivity|].
  intros f m. case_bool_decide as Hf; [reflexivity|].
  rewrite delete_id; [reflexivity|].
  destruct (m !! f) eqn:Hm; [|reflexivity]. contradiction Hf. eexists. reflexivity.
Qed.

Lemma cleared_lookup (cwd : gmap string string) name :
  foldl (fun m f => delete f m) cwd cleared_names !! name =
  if bool_decide (name ∈ cleared_names) then None else cwd !! name.
Proof.
  unfold cleared_names. cbn [foldl].
  case_bool_decide as Hin.
  - repeat (apply elem_of_cons in Hin as [->|Hin];
            [repeat first [apply lookup_delete_eq | rewrite lookup_delete_ne by (intros [=])]|]).
    inversion Hin.
  - rewrite !lookup_delete_ne; [reflexivity|..];
      intros <-; apply Hin; repeat first [left | right].
Qed.

Lemma copy_vasp_outputs_run ref_path entries cwd :
  outputs ref_path = Some entries ->
  copy_vasp_outputs ref_path cwd = (inr tt, reference_files entries ∪ cwd).
Proof.
  unfold copy_vasp_outputs. intros ->. revert cwd.
  induction entries as [|[n [d|]] entries IH]; intros cwd; cbn [for_each reference_files].
  - rewrite (left_id_L ∅ (∪)). reflexivity.
  - unfold mbind, st_bind, modify. rewrite IH.
    rewrite <- (assoc_L (∪)), <- insert_union_singleton_l. reflexivity.
  - unfold mbind, st_bind, mret, st_ret. apply IH.
Qed.

Lemma requested_checks_elem ref_path incar_settings check_inputs cwd r :
  r ∈ requested_checks ref_path incar_settings check_inputs cwd <->
  ("incar" ∈ check_inputs /\ r = check_incar ref_path incar_settings cwd) \/
  ("kpoints" ∈ check_inputs /\ r = check_kpoints ref_path cwd) \/
  ("poscar" ∈ check_inputs /\ r = check_poscar ref_path cwd) \/
  ("potcar" ∈ check_inputs /\ r = check_potcar ref_path cwd).
Proof.
  unfold requested_checks. rewrite !elem_of_app.
  repeat case_bool_decide; rewrite ?list_elem_of_singleton, ?elem_of_nil; tauto.
Qed.

Lemma first_raised_elem outcomes e0 :
  inl e0 ∈ outcomes -> exists e, first_raised outcomes = Some e.
Proof.
  induction outcomes as [|[e'|[]] rest IH]; intros Hin.
  - inversion Hin.
  - exists e'. reflexivity.
  - apply elem_of_cons in Hin as [[=]|Hin]. exact (IH Hin).
Qed.

(** C9.  All requested checks run before anything is cleared or copied: when
    a requested check raises on the working directory, [fake_run_vasp] raises
    (what the first failing check raises) and the working directory is as it
    was. *)
Theorem failed_check_leaves_directory
    ref_path incar_settings check_inputs clear_inputs cwd e0 :
  inl e0 ∈ requested_checks ref_path incar_settings check_inputs cwd ->
  exists e,
    inl e ∈ requested_checks ref_path incar_settings check_inputs cwd /\
    first_raised (requested_checks ref_path incar_settings check_inputs cwd) = Some e /\
    fake_run_vasp ref_path incar_settings check_inputs clear_inputs cwd = (inl e, cwd).
Proof.
  intros Hin. destruct (first_raised_elem _ _ Hin) as [e He].
  exists e. split; [exact (first_raised_Some _ _ He)|]. split; [exact He|].
  unfold FakeVasp.fake_run_vasp, mbind, st_bind.
  rewrite check_phase_run, He. reflexivity.
Qed.

(** C7.  When every requested check passes, the run clears the inputs (if
    asked to), copies every regular file of the reference "outputs" folder
    into the working directory, and returns: the working directory then holds
    the reference output files, and besides them exactly the files it had
    that were not cleared. *)
Theorem fake_run_vasp_copies_reference
    ref_path incar_settings check_inputs clear_inputs cwd entries :
  Forall (fun r => r = inr tt)
         (requested_checks ref_path incar_settings check_inputs cwd) ->
  outputs ref_path = Some entries ->
  exists cwd',
    fake_run_vasp ref_path incar_settings check_inputs clear_inputs cwd = (inr tt, cwd') /\
    (forall name,
       cwd' !! name =
       match reference_files entries !! name with
       | Some data => Some data
       | None => if clear_inputs && bool_decide (name ∈ cleared_names)
                 then None else cwd !! name
       end) /\
    (NoDup entries.*1 ->
     forall name data, (name, RegularFile data) ∈ entries -> cwd' !! name = Some data) /\
    (forall name,
       name ∈ dom cwd' <->
       (exists data, (name, RegularFile data) ∈ entries) \/
       (name ∈ dom cwd /\ (clear_inputs = true -> name ∉ cleared_names))).
Proof.
  intros Hpass Hout. apply first_raised_None in Hpass.
  set (kept := if clear_inputs then foldl (fun m f => delete f m) cwd cleared_names else cwd).
  assert (Hkept : forall name,
             kept !! name = if clear_inputs && bool_decide (name ∈ cleared_names)
                            then None else cwd !! name).
  { intros name. unfold kept. destruct clear_inputs; [apply cleared_lookup | reflexivity]. }
  assert (Hlookup : forall name,
             (reference_files entries ∪ kept) !! name =
             match reference_files entries !! name with
             | Some data => Some data
             | None => if clear_inputs && bool_decide (name ∈ cleared_names)
                       then None else cwd !! name
             end).
  { intros name. rewrite lookup_union, <- Hkept.
    destruct (reference_files entries !! name), (kept !! name); reflexivity. }
  exists (reference_files entries ∪ kept). split; [|split; [|split]].
  - unfold FakeVasp.fake_run_vasp, mbind, st_bind.
    rewrite check_phase_run, Hpass. unfold kept. destruct clear_inputs.
    + rewrite clear_vasp_inputs_run. apply copy_vasp_outputs_run. exact Hout.
    + unfold mret, st_ret. apply copy_vasp_outputs_run. exact Hout.
  - exact Hlookup.
  - intros Hnd name data Hin. rewrite Hlookup.
    apply (reference_files_lookup _ _ _ Hnd) in Hin. rewrite Hin. reflexivity.
  - intros name. rewrite dom_union_L, elem_of_union, reference_files_dom.
    rewrite !elem_of_dom, Hkept.
    destruct clear_inputs; cbn [andb]; [case_bool_decide as Hc|].
    + split; [intros [H|[x [=]]]; left; exact H | intros [H|[_ H]]; [left; exact H|]].
      exfalso. exact (H eq_refl Hc).
    + split; [intros [H|H]; [left; exact H | right; split; [exact H | intros _; exact Hc]]
             | intros [H|[H _]]; [left; exact H | right; exact H]].
    + split; [intros [H|H]; [left; exact H | right; split; [exact H | discriminate]]
             | intros [H|[H _]]; [left; exact H | right; exact H]].
Qed.

End Fixture.

(** C9 on a working directory whose KPOINTS differs from the reference. *)
Lemma failed_check_leaves_directory_witness :
  inl (ValueError "KPOINTS files are inconsistent")
    ∈ requested_checks String.eqb "1" "0.2"
        toy_parse_incar toy_parse_kpoints toy_parse_poscar toy_parse_potcar
        toy_ref [] vfiles toy_bad_cwd /\
  exists e,
    inl e ∈ requested_checks String.eqb "1" "0.2"
              toy_parse_incar toy_parse_kpoints toy_parse_poscar toy_parse_potcar
              toy_ref [] vfiles toy_bad_cwd /\
    first_raised (requested_checks String.eqb "1" "0.2"
                    toy_parse_incar toy_parse_kpoints toy_parse_poscar toy_parse_potcar
                    toy_ref [] vfiles toy_bad_cwd) = Some e /\
    fake_run_vasp String.eqb "1" "0.2"
      toy_parse_incar toy_parse_kpoints toy_parse_poscar toy_parse_potcar
      toy_ref [] vfiles true toy_bad_cwd = (inl e, toy_bad_cwd).
Proof.
  assert (H : inl (ValueError "KPOINTS files are inconsistent")
                ∈ requested_checks String.eqb "1" "0.2"
                    toy_parse_incar toy_parse_kpoints toy_parse_poscar toy_parse_potcar
                    toy_ref [] vfiles toy_bad_cwd).
  { apply requested_checks_elem. right. left. split.
    - unfold vfiles. right. left.
    - vm_compute. reflexivity. }
  split; [exact H|].
  exact (failed_check_leaves_directory String.eqb "1" "0.2"
           toy_parse_incar toy_parse_kpoints toy_parse_poscar toy_parse_potcar
           toy_ref [] vfiles true toy_bad_cwd _ H).
Defined.

(** C7 on the toy reference directory, with all checks and clearing. *)
Lemma fake_run_vasp_copies_reference_witness :
  Forall (fun r => r = inr tt)
         (requested_checks String.eqb "1" "0.2"
            toy_parse_incar toy_parse_kpoints toy_parse_poscar toy_parse_potcar
            toy_ref ["ENCUT"; "ISPIN"] vfiles toy_cwd) /\
  exists cwd',
    fake_run_vasp String.eqb "1" "0.2"
      toy_parse_incar toy_parse_kpoints toy_parse_poscar toy_parse_potcar
      toy_ref ["ENCUT"; "ISPIN"] vfiles true toy_cwd = (inr tt, cwd') /\
    cwd' !! "OUTCAR" = Some "outcar" /\ cwd' !! "CONTCAR" = Some "contcar" /\
    cwd' !! "vasprun.xml" = Some "vasprun" /\ cwd' !! "logs" = None /\
    cwd' !! "INCAR" = None /\ cwd' !! "job.sh" = Some "run" /\
    cwd' !! "POTCAR.spec" = Some "Si".
Proof.
  assert (H : Forall (fun r => r = inr tt)
                (requested_checks String.eqb "1" "0.2"
                   toy_parse_incar toy_parse_kpoints toy_parse_poscar toy_parse_potcar
                   toy_ref ["ENCUT"; "ISPIN"] vfiles toy_cwd)).
  { apply Forall_forall. intros r Hr. apply requested_checks_elem in Hr.
    destruct Hr as [[_ ->]|[[_ ->]|[[_ ->]|[_ ->]]]]; vm_compute; reflexivity. }
  split; [exact H|].
  destruct (fake_run_vasp_copies_reference String.eqb "1" "0.2"
              toy_parse_incar toy_parse_kpoints toy_parse_poscar toy_parse_potcar
              toy_ref ["ENCUT"; "ISPIN"] vfiles true toy_cwd _ H eq_refl)
    as (cwd' & Hrun & Hlookup & _).
  exists cwd'. split; [exact Hrun|].
  rewrite !Hlookup. vm_compute. repeat split; reflexivity.
Defined.

End FakeVaspProps.

(** ** File names with a relax extension and a gzip suffix *)

Module NameProps.
Import PyStr PyStrSpec PyStrProps RelaxExtSpec RelaxExtProps NameSpec.

Lemma no_dot_digits M : all_digits M = true -> no_dot M = true.
Proof.
  induction M as [|c M IH]; [reflexivity|]. cbn [all_digits no_dot].
  intros [Hc HM]%andb_true_iff. rewrite (IH HM), andb_true_r.
  apply negb_true_iff, Ascii.eqb_neq. intros ->. discriminate.
Qed.

Lemma no_dot_relax M : all_digits M = true -> no_dot ("relax" +:+ M) = true.
Proof.
  intros HM.
  change ("relax" +:+ M) with (String "r" (String "e" (String "l" (String "a" (String "x" M))))).
  cbn [no_dot Ascii.eqb Bool.eqb negb andb]. apply no_dot_digits, HM.
Qed.

Lemma contains_dot_digits w M : all_digits M = true -> contains (String "." w) M = false.
Proof.
  induction M as [|c M IH]; [reflexivity|]. cbn [all_digits contains].
  intros [Hc HM]%andb_true_iff. rewrite (IH HM), orb_false_r, prefix_cons_eqb.
  destruct (Ascii.eqb_spec "." c) as [<-|]; [discriminate | reflexivity].
Qed.

Lemma dot_led_gz z : z = "" \/ z = ".gz" -> dot_led z = true.
Proof. intros [->| ->]; reflexivity. Qed.

Lemma dot_led_ext ext r : relax_shaped ext -> dot_led r = true -> dot_led (ext +:+ r) = true.
Proof. intros [->|(M & -> & _)] Hr; [exact Hr | reflexivity]. Qed.

Lemma contains_gz_ext ext : relax_shaped ext -> contains ".gz" ext = false.
Proof.
  intros [->|(M & -> & _ & HM)]; [reflexivity|].
  change (".relax" +:+ M) with (String "." (String "r" (String "e" (String "l"
            (String "a" (String "x" M)))))).
  cbn [contains]. rewrite !prefix_cons_eqb. cbn [Ascii.eqb Bool.eqb andb orb].
  apply (contains_dot_digits "gz" M HM).
Qed.

Lemma contains_relax_gz z : z = "" \/ z = ".gz" -> contains ".relax" z = false.
Proof. intros [->| ->]; reflexivity. Qed.

Section Names.

Variables (ext b : string).
Hypothesis Hext : relax_shaped ext.
Hypothesis Hb : clean b = true.

Lemma clean_gz : contains ".gz" b = false.
Proof. unfold clean in Hb. apply andb_true_iff in Hb as [H _]. apply negb_true_iff, H. Qed.

Lemma clean_relax : contains ".relax" b = false.
Proof. unfold clean in Hb. apply andb_true_iff in Hb as [_ H]. apply negb_true_iff, H. Qed.

Lemma clean_ext : ext <> "" -> contains ext b = false.
Proof.
  destruct Hext as [->|(M & -> & _)]; [intros H; contradiction H; reflexivity|]. intros _.
  destruct (contains (".relax" +:+ M) b) eqn:H; [|reflexivity].
  apply contains_prefix_longer in H. rewrite clean_relax in H. discriminate.
Qed.

(** Without ".gz": the base name and the extension. *)
Lemma stem_named e z :
  e = "" \/ e = ext -> z = "" \/ z = ".gz" ->
  replace ".gz" "" (b +:+ e +:+ z) = b +:+ e.
Proof.
  intros He Hz. change (replace ".gz" "" ?s) with (replace_go ".gz" "" 0 s).
  rewrite <- append_assoc.
  rewrite (replace_go_pass "gz" "" (b +:+ e) z eq_refl (dot_led_gz _ Hz)).
  - destruct Hz as [->| ->]; cbn; rewrite append_nil_r; reflexivity.
  - assert (He' : relax_shaped e) by (destruct He as [->| ->]; [left; reflexivity | exact Hext]).
    rewrite <- (append_nil_r e).
    rewrite (contains_app_dot "gz" b _ eq_refl (dot_led_ext e "" He' eq_refl)).
    rewrite append_nil_r, clean_gz, (contains_gz_ext _ He'). reflexivity.
Qed.

Lemma replace_ext_gz z :
  ext <> "" -> z = "" \/ z = ".gz" -> replace ext "" z = z.
Proof.
  intros Hne Hz. destruct Hext as [->|(M & -> & _)]; [contradiction Hne; reflexivity|].
  destruct Hz as [->| ->]; reflexivity.
Qed.

(** Without the relax extension. *)
Lemma unext_named z :
  ext <> "" -> z = "" \/ z = ".gz" -> replace ext "" (b +:+ ext +:+ z) = b +:+ z.
Proof.
  intros Hne Hz. pose proof (clean_ext Hne) as Hclean.
  pose proof (replace_ext_gz z Hne Hz) as Hz'.
  destruct Hext as [->|(M & -> & HM & Hall)]; [contradiction Hne; reflexivity|].
  change (replace (".relax" +:+ M) "" ?s) with (replace_go (String "." ("relax" +:+ M)) "" 0 s)
    in Hz' |- *.
  change (".relax" +:+ M) with (String "." ("relax" +:+ M)) in Hclean |- *.
  pose proof (no_dot_relax M Hall) as Hw.
  rewrite (replace_go_pass _ "" b (String "." ("relax" +:+ M) +:+ z) Hw eq_refl Hclean).
  rewrite replace_go_hit by discriminate. rewrite Hz'. reflexivity.
Qed.

Lemma unext_plain z :
  ext <> "" -> z = "" \/ z = ".gz" -> replace ext "" (b +:+ z) = b +:+ z.
Proof.
  intros Hne Hz. pose proof (clean_ext Hne) as Hclean.
  pose proof (replace_ext_gz z Hne Hz) as Hz'.
  destruct Hext as [->|(M & -> & HM & Hall)]; [contradiction Hne; reflexivity|].
  change (replace (".relax" +:+ M) "" ?s) with (replace_go (String "." ("relax" +:+ M)) "" 0 s)
    in Hz' |- *.
  change (".relax" +:+ M) with (String "." ("relax" +:+ M)) in Hclean.
  pose proof (no_dot_relax M Hall) as Hw.
  rewrite (replace_go_pass _ "" b _ Hw (dot_led_gz _ Hz) Hclean), Hz'. reflexivity.
Qed.

Lemma key_of_named e z :
  e = "" \/ e = ext -> z = "" \/ z = ".gz" -> key_of ext (b +:+ e +:+ z) = b.
Proof.
  intros He Hz. unfold key_of. destruct (String.eqb_spec ext "") as [Heq|Hne].
  - assert (e = "") as -> by (destruct He as [->| ->]; [reflexivity | exact Heq]).
    rewrite (stem_named "" z (or_introl eq_refl) Hz). apply append_nil_r.
  - destruct He as [->| ->].
    + rewrite append_nil_l, (unext_plain z Hne Hz).
      rewrite <- (append_nil_l z) at 1. rewrite (stem_named "" z (or_introl eq_refl) Hz).
      apply append_nil_r.
    + rewrite (unext_named z Hne Hz).
      rewrite <- (append_nil_l z) at 1. rewrite (stem_named "" z (or_introl eq_refl) Hz).
      apply append_nil_r.
Qed.

Lemma not_gz_named e : e = "" \/ e = ext -> endswith ".gz" (b +:+ e) = false.
Proof.
  intros He. destruct (endswith ".gz" (b +:+ e)) eqn:H; [|reflexivity].
  apply endswith_contains in H.
  assert (He' : relax_shaped e) by (destruct He as [->| ->]; [left; reflexivity | exact Hext]).
  rewrite <- (append_nil_r e) in H.
  rewrite (contains_app_dot "gz" b _ eq_refl (dot_led_ext e "" He' eq_refl)) in H.
  rewrite append_nil_r, clean_gz, (contains_gz_ext _ He') in H. discriminate.
Qed.

End Names.

Lemma strip_gz_append x : CommonFile.strip_gz (x +:+ ".gz") = x.
Proof.
  unfold CommonFile.strip_gz. rewrite length_append. cbn [String.length].
  replace (String.length x + 3 - 3)%nat with (String.length x) by lia.
  apply substring_append.
Qed.

End NameProps.

(** ** Moving files inside the working directory *)

Module MoveProps.
Import MoveSpec.

Lemma mv_apart t m op k : apart k op -> mv t m op !! k = m !! k.
Proof.
  intros [Ho Hn]. unfold mv. destruct (m !! op.1); [|reflexivity].
  rewrite lookup_insert_ne, lookup_delete_ne by assumption. reflexivity.
Qed.

Lemma fold_mv_apart t ops m k :
  Forall (apart k) ops -> foldl (mv t) m ops !! k = m !! k.
Proof.
  intros Hops. revert m. induction Hops as [|op ops Hop _ IH]; intros m; [reflexivity|].
  cbn [foldl]. rewrite IH. apply mv_apart, Hop.
Qed.

(** Once the file has gone from [a] to [b], repeating the move or moving
    other files leaves it there. *)
Lemma fold_mv_moved t ops m a b v :
  a <> b -> m !! a = None -> m !! b = Some v ->
  Forall (fun op => op = (a, b) \/ (apart a op /\ apart b op)) ops ->
  foldl (mv t) m ops !! b = Some v /\ foldl (mv t) m ops !! a = None.
Proof.
  intros Hab Ha Hb Hops. revert m Ha Hb.
  induction Hops as [|op ops Hop _ IH]; intros m Ha Hb; [split; assumption|].
  cbn [foldl]. apply IH.
  - destruct Hop as [->|[Hopa _]]; [unfold mv; cbn; rewrite Ha; exact Ha|].
    rewrite (mv_apart _ _ _ _ Hopa). exact Ha.
  - destruct Hop as [->|[_ Hopb]]; [unfold mv; cbn; rewrite Ha; exact Hb|].
    rewrite (mv_apart _ _ _ _ Hopb). exact Hb.
Qed.

(** A file waiting under [a] ends under [b] when the move from [a] to [b] is
    among the moves and the others name neither. *)
Lemma fold_mv_track t ops m a b d :
  a <> b -> m !! a = Some d -> (a, b) ∈ ops ->
  Forall (fun op => op = (a, b) \/ (apart a op /\ apart b op)) ops ->
  foldl (mv t) m ops !! b = Some (t d) /\ foldl (mv t) m ops !! a = None.
Proof.
  intros Hab Ha Hin Hops. revert m Ha Hin.
  induction Hops as [|op ops Hop Hops IH]; intros m Ha Hin; [inversion Hin|].
  cbn [foldl]. destruct Hop as [->|[Hopa Hopb]].
  - apply fold_mv_moved; try assumption.
    + unfold mv. cbn. rewrite Ha. rewrite lookup_insert_ne by congruence.
      apply lookup_delete_eq.
    + unfold mv. cbn. rewrite Ha. apply lookup_insert_eq.
  - apply IH.
    + rewrite (mv_apart _ _ _ _ Hopa). exact Ha.
    + apply elem_of_cons in Hin as [<-|Hin]; [|exact Hin].
      destruct Hopa as [H _]. contradiction H. reflexivity.
Qed.

End MoveProps.

(** ** Dictionaries *)

Module DictProps.
Import CommonFile.

Lemma dict_set_elem k v d k' v' :
  (k', v') ∈ dict_set k v d -> (k', v') = (k, v) \/ (k', v') ∈ d.
Proof.
  induction d as [|[k0 v0] d IH]; cbn [dict_set].
  - intros [->|H]%elem_of_cons; [left; reflexivity | inversion H].
  - destruct (String.eqb k0 k).
    + intros [->|H]%elem_of_cons; [left; reflexivity | right; right; exact H].
    + intros [->|H]%elem_of_cons; [right; left|].
      destruct (IH H) as [Heq|Hin]; [left; exact Heq | right; right; exact Hin].
Qed.

Lemma dict_set_key k v d : exists v', (k, v') ∈ dict_set k v d.
Proof.
  induction d as [|[k0 v0] d [v' IH]]; cbn [dict_set].
  - exists v. left.
  - destruct (String.eqb k0 k); [exists v; left | exists v'; right; exact IH].
Qed.

Lemma dict_set_keeps k v d k0 v0 :
  (k0, v0) ∈ d -> exists v1, (k0, v1) ∈ dict_set k v d.
Proof.
  induction d as [|[k1 v1] d IH]; [intros H; inversion H|]. cbn [dict_set].
  intros [[= -> ->]|Hin]%elem_of_cons.
  - destruct (String.eqb_spec k1 k) as [->|]; [exists v; left | exists v1; left].
  - destruct (IH Hin) as [v2 H2].
    destruct (String.eqb k1 k); [exists v0; right; exact Hin | exists v2; right; exact H2].
Qed.

Section Comprehension.

Context {A : Type} (key value : A -> string).

Lemma dict_fold_elem l d k v :
  (k, v) ∈ foldl (fun d x => dict_set (key x) (value x) d) d l ->
  (k, v) ∈ d \/ exists x, x ∈ l /\ k = key x /\ v = value x.
Proof.
  revert d. induction l as [|x l IH]; intros d; cbn [foldl]; [left; assumption|].
  intros H. destruct (IH _ H) as [Hd|(y & Hy & Hk & Hv)].
  - apply dict_set_elem in Hd as [[= -> ->]|Hd]; [|left; exact Hd].
    right. exists x. split; [left | split; reflexivity].
  - right. exists y. split; [right; exact Hy | split; assumption].
Qed.

Lemma dict_fold_keeps l d k v :
  (k, v) ∈ d -> exists v', (k, v') ∈ foldl (fun d x => dict_set (key x) (value x) d) d l.
Proof.
  revert d v. induction l as [|x l IH]; intros d v Hd; cbn [foldl]; [exists v; exact Hd|].
  destruct (dict_set_keeps (key x) (value x) d k v Hd) as [v1 H1]. exact (IH _ _ H1).
Qed.

Lemma dict_comprehension_elem l k v :
  (k, v) ∈ dict_comprehension key value l -> exists x, x ∈ l /\ k = key x /\ v = value x.
Proof.
  unfold dict_comprehension. intros H.
  destruct (dict_fold_elem _ _ _ _ H) as [Hnil|Hx]; [inversion Hnil | exact Hx].
Qed.

Lemma dict_comprehension_key l x :
  x ∈ l -> exists v, (key x, v) ∈ dict_comprehension key value l.
Proof.
  unfold dict_comprehension. generalize (@nil (string * string)).
  induction l as [|y l IH]; intros d Hx; [inversion Hx|]. cbn [foldl].
  apply elem_of_cons in Hx as [->|Hx]; [|exact (IH _ Hx)].
  destruct (dict_set_key (key y) (value y) d) as [v Hv].
  exact (dict_fold_keeps _ _ _ _ Hv).
Qed.

End Comprehension.

End DictProps.

(** ** Copying VASP outputs *)

Module VaspFileProps.
Import PyStr PyStrSpec PyStrProps CommonFile VaspFile RelaxExt RelaxExtSpec RelaxExtProps.
Import NameSpec NameProps MoveSpec MoveProps DictProps VaspFileSpec TransferSpec.

Lemma copy_vasp_outputs_unfold E gunzip fs src_dir host additional ctp cwd :
  copy_vasp_outputs E gunzip fs src_dir host additional ctp cwd =
  match get_largest_relax_extension fs (strip_hostname src_dir) host with
  | inl e => (inl e, cwd)
  | inr ext =>
      let listing := FileClient.listdir fs (strip_hostname src_dir) host in
      match required_files E listing ext additional with
      | inl e => (inl e, cwd)
      | inr req =>
          if (length (List.filter (contains "POTCAR") (optional_files listing ext)) =? 0)%nat
          then (inl no_potcar, cwd)
          else transfer E gunzip fs (strip_hostname src_dir) host ext req
                        (optional_files listing ext) ctp cwd
      end
  end.
Proof.
  unfold copy_vasp_outputs, mbind, st_bind, lift.
  destruct (get_largest_relax_extension fs (strip_hostname src_dir) host) as [e|ext];
    [reflexivity|].
  cbv zeta. unfold required_files, standard_files.
  destruct (comprehension _ _) as [e|req]; [reflexivity|].
  fold (optional_files (FileClient.listdir fs (strip_hostname src_dir) host) ext).
  destruct (length _ =? 0)%nat; reflexivity.
Qed.

(** *** Finding files *)

Lemma zname_matches_spec base f :
  zname_matches base f = true <-> f = base \/ f = base +:+ ".gz".
Proof.
  unfold zname_matches. rewrite orb_true_iff, !String.eqb_eq. reflexivity.
Qed.

Lemma find_zfile_Some listing base f :
  List.find (zname_matches base) listing = Some f ->
  f ∈ listing /\ (f = base \/ f = base +:+ ".gz").
Proof.
  intros H. apply List.find_some in H as [Hin Hm].
  split; [apply list_elem_of_In, Hin | apply zname_matches_spec, Hm].
Qed.

Lemma find_zfile_None listing base :
  List.find (zname_matches base) listing = None <-> ~ present listing base.
Proof.
  split.
  - intros H [Hin|Hin]; apply list_elem_of_In in Hin;
      pose proof (List.find_none _ _ H _ Hin) as Hno;
      apply not_true_iff_false in Hno; apply Hno, zname_matches_spec; [left|right]; reflexivity.
  - intros Hno. destruct (List.find _ listing) as [f|] eqn:H; [|reflexivity].
    apply find_zfile_Some in H as [Hin [->| ->]]; contradiction Hno; [left|right]; exact Hin.
Qed.

Lemma get_zfile_inr E listing base f :
  get_zfile E listing base = inr f -> f ∈ listing /\ (f = base \/ f = base +:+ ".gz").
Proof.
  unfold get_zfile. destruct (List.find _ listing) as [g|] eqn:H; [|discriminate].
  intros [= <-]. exact (find_zfile_Some _ _ _ H).
Qed.

Lemma get_zfile_present E listing base :
  present listing base -> exists f, get_zfile E listing base = inr f.
Proof.
  intros Hp. unfold get_zfile. destruct (List.find _ listing) as [g|] eqn:H.
  - exists g. reflexivity.
  - apply find_zfile_None in H. contradiction.
Qed.

Lemma get_zfile_absent E listing base :
  ~ present listing base -> get_zfile E listing base = inl (zfile_missing E base).
Proof.
  intros Hp. unfold get_zfile. apply find_zfile_None in Hp. rewrite Hp. reflexivity.
Qed.

Lemma lookup_entry_listed (dir : list (string * string)) f :
  f ∈ dir.*1 -> is_Some (lookup_entry dir f).
Proof.
  unfold lookup_entry. induction dir as [|[n d] dir IH]; [intros H; inversion H|].
  cbn [fmap list_fmap fst List.find]. intros [->|Hin]%elem_of_cons.
  - cbn. rewrite String.eqb_refl. eexists. reflexivity.
  - cbn [fst]. destruct (String.eqb n f); [eexists; reflexivity | exact (IH Hin)].
Qed.

Lemma required_files_found E listing ext additional :
  Forall (fun b => present listing (b +:+ ext)) (standard_files ++ additional) ->
  exists req, required_files E listing ext additional = inr req.
Proof.
  intros H. apply comprehension_total. eapply Forall_impl; [exact H|].
  intros b Hb. exact (get_zfile_present E _ _ Hb).
Qed.

Lemma required_files_missing E listing ext additional b :
  b ∈ standard_files ++ additional -> ~ present listing (b +:+ ext) ->
  exists b', b' ∈ standard_files ++ additional /\ ~ present listing (b' +:+ ext) /\
             required_files E listing ext additional = inl (zfile_missing E (b' +:+ ext)).
Proof.
  intros Hb Hno. unfold required_files.
  destruct (comprehension _ (standard_files ++ additional)) as [e|req] eqn:Hc.
  - destruct (comprehension_inl _ _ _ Hc) as (b' & Hb' & He).
    exists b'. split; [exact Hb'|].
    unfold get_zfile in He. destruct (List.find _ listing) eqn:Hfind; [discriminate|].
    injection He as <-. split; [apply find_zfile_None, Hfind | reflexivity].
  - apply comprehension_inr in Hc.
    destruct (Forall2_elem_l _ _ _ _ Hc Hb) as (f & _ & Hf).
    rewrite (get_zfile_absent _ _ _ Hno) in Hf. discriminate.
Qed.

(** The files of [required_files], one by one. *)
Lemma required_files_elem E listing ext additional req f :
  required_files E listing ext additional = inr req -> f ∈ req ->
  exists b, b ∈ standard_files ++ additional /\ get_zfile E listing (b +:+ ext) = inr f.
Proof.
  unfold required_files. rewrite comprehension_inr.
  generalize (standard_files ++ additional). intros bases H. revert f.
  induction H as [|b g bases req Hbg _ IH]; intros f Hf; [inversion Hf|].
  apply elem_of_cons in Hf as [->|Hf].
  - exists b. split; [left | exact Hbg].
  - destruct (IH _ Hf) as (b' & Hb' & Hg). exists b'. split; [right; exact Hb' | exact Hg].
Qed.

Lemma required_files_of E listing ext additional req b :
  required_files E listing ext additional = inr req -> b ∈ standard_files ++ additional ->
  exists f, f ∈ req /\ get_zfile E listing (b +:+ ext) = inr f.
Proof.
  unfold required_files. rewrite comprehension_inr. intros H Hb.
  destruct (Forall2_elem_l _ _ _ _ H Hb) as (f & Hf & Hg). exists f. split; assumption.
Qed.

Lemma optional_files_elem listing ext f :
  f ∈ optional_files listing ext ->
  exists b, b ∈ ["POTCAR"; "POTCAR.spec"; "KPOINTS" +:+ ext] /\
            f ∈ listing /\ (f = b \/ f = b +:+ ".gz").
Proof.
  unfold optional_files. rewrite list_elem_of_omap. intros (b & Hb & Hf).
  exists b. split; [exact Hb | exact (find_zfile_Some _ _ _ Hf)].
Qed.

(** *** The POTCAR check *)

Lemma contains_potcar_digits M z :
  all_digits M = true -> contains "POTCAR" (M +:+ z) = contains "POTCAR" z.
Proof.
  induction M as [|c M IH]; [reflexivity|]. cbn [all_digits].
  intros [Hc HM]%andb_true_iff. rewrite append_cons. cbn [contains].
  rewrite (IH HM), prefix_cons_eqb.
  destruct (Ascii.eqb_spec "P" c) as [<-|]; [discriminate | reflexivity].
Qed.

Lemma kpoints_not_potcar ext z :
  relax_shaped ext -> z = "" \/ z = ".gz" ->
  contains "POTCAR" ("KPOINTS" +:+ ext +:+ z) = false.
Proof.
  intros [->|(M & -> & _ & HM)] Hz.
  - destruct Hz as [->| ->]; reflexivity.
  - change ("KPOINTS" +:+ (".relax" +:+ M) +:+ z) with
      (String "K" (String "P" (String "O" (String "I" (String "N" (String "T" (String "S"
         (String "." (String "r" (String "e" (String "l" (String "a" (String "x"
            (M +:+ z)))))))))))))).
    cbn [contains]. rewrite !prefix_cons_eqb. cbn [Ascii.eqb Bool.eqb andb orb].
    rewrite (contains_potcar_digits _ _ HM). destruct Hz as [->| ->]; reflexivity.
Qed.

Lemma potcar_check listing ext :
  relax_shaped ext ->
  (length (List.filter (contains "POTCAR") (optional_files listing ext)) =? 0)%nat = true
  <-> ~ potcar_present listing.
Proof.
  intros Hext. unfold optional_files, potcar_present, get_zfile_allow_missing.
  cbn [omap list_omap].
  assert (Hk : forall f, List.find (zname_matches ("KPOINTS" +:+ ext)) listing = Some f ->
                         contains "POTCAR" f = false).
  { intros f Hf. apply find_zfile_Some in Hf as [_ [->| ->]].
    - rewrite <- (append_nil_r ext). apply kpoints_not_potcar; [exact Hext | left; reflexivity].
    - rewrite append_assoc. apply kpoints_not_potcar; [exact Hext | right; reflexivity]. }
  destruct (List.find (zname_matches "POTCAR") listing) as [f1|] eqn:H1.
  - pose proof (find_zfile_Some _ _ _ H1) as [Hin1 Hname1].
    assert (contains "POTCAR" f1 = true) as Hc1 by (destruct Hname1 as [->| ->]; reflexivity).
    split.
    + destruct (List.find (zname_matches "POTCAR.spec") listing),
               (List.find (zname_matches ("KPOINTS" +:+ ext)) listing);
        cbn [List.filter]; rewrite Hc1; discriminate.
    + intros Hno. contradiction Hno. left.
      destruct Hname1 as [->| ->]; [left|right]; exact Hin1.
  - apply find_zfile_None in H1.
    destruct (List.find (zname_matches "POTCAR.spec") listing) as [f2|] eqn:H2.
    + pose proof (find_zfile_Some _ _ _ H2) as [Hin2 Hname2].
      assert (contains "POTCAR" f2 = true) as Hc2 by (destruct Hname2 as [->| ->]; reflexivity).
      split.
      * destruct (List.find (zname_matches ("KPOINTS" +:+ ext)) listing);
          cbn [List.filter]; rewrite Hc2; discriminate.
      * intros Hno. contradiction Hno. right.
        destruct Hname2 as [->| ->]; [left|right]; exact Hin2.
    + apply find_zfile_None in H2.
      split; [intros _ [H|H]; contradiction|]. intros _.
      destruct (List.find (zname_matches ("KPOINTS" +:+ ext)) listing) as [f3|] eqn:H3;
        [|reflexivity].
      cbn [List.filter]. rewrite (Hk _ eq_refl). reflexivity.
Qed.

(** *** The three steps, as folds over the working directory *)

Lemma copy_files_run E fs dir host files m :
  Forall (fun f => is_Some (lookup_entry (fs host dir) f)) files ->
  copy_files E fs dir host files m = (inr tt, foldl (copy_step (fs host dir)) m files).
Proof.
  intros H. revert m. induction H as [|f files [d Hd] _ IH]; intros m; [reflexivity|].
  unfold copy_files in *. cbn [for_each foldl]. unfold mbind, st_bind, copy_step at 2.
  rewrite Hd. unfold modify. apply IH.
Qed.

Lemma copy_fold_lookup dir files m k d :
  lookup_entry dir k = Some d -> k ∈ files \/ m !! k = Some d ->
  foldl (copy_step dir) m files !! k = Some d.
Proof.
  intros Hd. revert m. induction files as [|f files IH]; intros m Hk; cbn [foldl].
  - destruct Hk as [Hk|Hk]; [inversion Hk | exact Hk].
  - apply IH. destruct Hk as [[->|Hk]%elem_of_cons|Hk].
    + right. unfold copy_step. rewrite Hd. apply lookup_insert_eq.
    + left. exact Hk.
    + right. unfold copy_step. destruct (lookup_entry dir f) as [d'|] eqn:Hf; [|exact Hk].
      destruct (decide (f = k)) as [->|Hne].
      * rewrite Hd in Hf. injection Hf as <-. apply lookup_insert_eq.
      * rewrite lookup_insert_ne by exact Hne. exact Hk.
Qed.

Lemma endswith_split suffix s : endswith suffix s = true -> exists a, s = a +:+ suffix.
Proof.
  induction s as [|c s IH]; cbn [endswith].
  - rewrite orb_false_r. intros H. apply String.eqb_eq in H as ->. exists "". reflexivity.
  - intros [H|H]%orb_true_iff.
    + apply String.eqb_eq in H as ->. exists "". reflexivity.
    + destruct (IH H) as [a ->]. exists (String c a). reflexivity.
Qed.

Lemma strip_gz_inj f g :
  endswith ".gz" f = true -> endswith ".gz" g = true -> strip_gz f = strip_gz g -> f = g.
Proof.
  intros [a ->]%endswith_split [b ->]%endswith_split.
  rewrite !strip_gz_append. intros ->. reflexivity.
Qed.

(** With no file listed twice and every name without ".gz" free, no
    decompression finds a file in its way: the step is the fold of its moves,
    whatever [gunzip_files] does otherwise. *)
Lemma gunzip_files_run E gunzip files (m : gmap string string) :
  NoDup files ->
  (forall f, f ∈ files -> endswith ".gz" f = true -> m !! strip_gz f = None) ->
  gunzip_files E gunzip files true m = (inr tt, foldl (mv gunzip) m (gz_moves files)).
Proof.
  revert m. induction files as [|f files IH]; intros m Hnd Hfree; [reflexivity|].
  apply NoDup_cons in Hnd as [Hnotin Hnd].
  assert (Hrest : forall g, g ∈ files -> endswith ".gz" g = true -> m !! strip_gz g = None).
  { intros g Hg. apply Hfree. right. exact Hg. }
  unfold gunzip_files, gz_moves in *. cbn [for_each omap list_omap].
  unfold mbind, st_bind at 1. destruct (endswith ".gz" f) eqn:Hgz.
  - rewrite (Hfree f (list_elem_of_here _ _) Hgz). cbn [foldl]. unfold mv at 2. cbn [fst snd].
    destruct (m !! f) eqn:Hmf; apply IH; try assumption.
    intros g Hg Hggz. rewrite lookup_insert_ne.
    + apply lookup_delete_None. right. exact (Hrest g Hg Hggz).
    + intros Heq. apply (strip_gz_inj _ _ Hgz Hggz) in Heq. subst g. contradiction.
  - unfold mret, st_ret. apply IH; assumption.
Qed.

Lemma copy_fold_other dir files (m : gmap string string) k :
  k ∉ files -> foldl (copy_step dir) m files !! k = m !! k.
Proof.
  revert m. induction files as [|f files IH]; intros m Hk; [reflexivity|].
  cbn [foldl]. rewrite IH by (intros H; apply Hk; right; exact H).
  unfold copy_step. destruct (lookup_entry dir f); [|reflexivity].
  apply lookup_insert_ne. intros ->. apply Hk. left.
Qed.

Lemma gz_moves_elem files op :
  op ∈ gz_moves files ->
  exists f, f ∈ files /\ endswith ".gz" f = true /\ op = (f, strip_gz f).
Proof.
  unfold gz_moves. rewrite list_elem_of_omap. intros (f & Hf & Hop).
  exists f. destruct (endswith ".gz" f); [|discriminate].
  injection Hop as <-. repeat split. exact Hf.
Qed.

Lemma fmap_NoDup_inj {A B} (f : A -> B) (l : list A) x y :
  NoDup (f <$> l) -> x ∈ l -> y ∈ l -> f x = f y -> x = y.
Proof.
  induction l as [|a l IH]; [intros _ H; inversion H|].
  cbn [fmap list_fmap]. intros [Hnotin Hnd]%NoDup_cons Hx Hy Heq.
  apply elem_of_cons in Hx as [->|Hx]; apply elem_of_cons in Hy as [->|Hy].
  - reflexivity.
  - contradiction Hnotin. rewrite Heq. apply list_elem_of_fmap. exists y. split; [reflexivity|exact Hy].
  - contradiction Hnotin. rewrite <- Heq. apply list_elem_of_fmap. exists x. split; [reflexivity|exact Hx].
  - exact (IH Hnd Hx Hy Heq).
Qed.

Lemma rename_files_run E moves m :
  rename_files E moves true m = (inr tt, foldl (mv id) m moves).
Proof.
  revert m. induction moves as [|[o n] moves IH]; intros m; [reflexivity|].
  unfold rename_files in *. cbn [for_each foldl]. unfold mbind, st_bind at 1.
  unfold mv at 2. cbn [fst snd]. destruct (m !! o); apply IH.
Qed.

Lemma rename_contcar_run E m d :
  m !! "CONTCAR" = Some d ->
  rename_files E [("CONTCAR", "POSCAR")] false m
  = (inr tt, <["POSCAR" := d]> (delete "CONTCAR" m)).
Proof.
  intros H. unfold rename_files. cbn [for_each]. unfold mbind, st_bind. rewrite H. reflexivity.
Qed.

(** *** Following one file through the three steps *)

Lemma fold_mv_fixed ops (m : gmap string string) k :
  Forall (fun op => op = (k, k) \/ apart k op) ops ->
  foldl (mv id) m ops !! k = m !! k.
Proof.
  intros Hops. revert m. induction Hops as [|op ops Hop _ IH]; intros m; [reflexivity|].
  cbn [foldl]. rewrite IH. destruct Hop as [->|Hop]; [|apply mv_apart, Hop].
  unfold mv. cbn [fst snd]. destruct (m !! k) eqn:Hk; [|exact Hk].
  rewrite lookup_insert_eq. reflexivity.
Qed.

Section Tracking.

Variable ext : string.
Hypothesis Hext : relax_shaped ext.

Local Abbreviation item := (item ext).

Lemma item_stem f : item f -> key_of ext (replace ".gz" "" f) = key_of ext f.
Proof.
  intros (b & e & z & Hb & He & Hz & ->).
  rewrite (stem_named ext b Hext Hb e z He Hz).
  rewrite (key_of_named ext b Hext Hb e z He Hz).
  rewrite <- (append_nil_r e).
  apply (key_of_named ext b Hext Hb e "" He). left. reflexivity.
Qed.

Lemma item_key f : item f -> key_of ext (key_of ext f) = key_of ext f.
Proof.
  intros (b & e & z & Hb & He & Hz & ->).
  rewrite (key_of_named ext b Hext Hb e z He Hz).
  rewrite <- (append_nil_r b) at 1. rewrite <- (append_nil_l "") at 1.
  apply (key_of_named ext b Hext Hb "" ""); left; reflexivity.
Qed.

Lemma item_gz f :
  item f -> endswith ".gz" f = true ->
  strip_gz f = replace ".gz" "" f /\ strip_gz f <> f.
Proof.
  intros (b & e & z & Hb & He & Hz & ->) Hgz.
  rewrite (stem_named ext b Hext Hb e z He Hz).
  destruct Hz as [->| ->].
  - rewrite append_nil_r, (not_gz_named ext b Hext Hb e He) in Hgz. discriminate.
  - rewrite <- append_assoc, strip_gz_append. split; [reflexivity|].
    intros Heq. apply (f_equal String.length) in Heq.
    rewrite !length_append in Heq. cbn [String.length] in Heq. lia.
Qed.

Lemma item_plain f : item f -> endswith ".gz" f = false -> replace ".gz" "" f = f.
Proof.
  intros (b & e & z & Hb & He & Hz & ->) Hgz.
  rewrite (stem_named ext b Hext Hb e z He Hz).
  destruct Hz as [->| ->]; [rewrite append_nil_r; reflexivity|].
  rewrite <- append_assoc, endswith_append in Hgz. discriminate.
Qed.

Lemma key_of_target f :
  ext <> "" -> replace ".gz" "" (replace ext "" f) = key_of ext f.
Proof.
  intros Hne. unfold key_of. destruct (String.eqb_spec ext ""); [contradiction|reflexivity].
Qed.

Lemma key_of_stem f : ext = "" -> replace ".gz" "" f = key_of ext f.
Proof. intros ->. reflexivity. Qed.

Variables (gunzip : string -> string) (dir : list (string * string)).
Variables (files all_files : list string).
Hypothesis Hitems : Forall item files.
Hypothesis Hsame : forall f, f ∈ all_files <-> f ∈ files.

Variables (n0 data0 : string).
Hypothesis Hn0 : n0 ∈ files.
Hypothesis Hdata0 : lookup_entry dir n0 = Some data0.
Hypothesis Hunique : forall f, f ∈ files -> key_of ext f = key_of ext n0 -> f = n0.

Let content0 : string := if endswith ".gz" n0 then gunzip data0 else data0.
Let stem0 : string := replace ".gz" "" n0.

Lemma item_n0 : item n0.
Proof. exact (proj1 (Forall_forall _ _) Hitems _ Hn0). Qed.

(** A file with another key shares no name with the followed file. *)
Lemma other_key_apart f u v :
  item f -> key_of ext f <> key_of ext n0 ->
  u = f \/ u = replace ".gz" "" f \/ u = key_of ext f ->
  v = n0 \/ v = stem0 \/ v = key_of ext n0 ->
  u <> v.
Proof.
  intros Hf Hne Hu Hv Heq. apply Hne.
  assert (key_of ext u = key_of ext f) as <-.
  { destruct Hu as [->|[->| ->]]; [reflexivity | apply item_stem, Hf | apply item_key, Hf]. }
  assert (key_of ext v = key_of ext n0) as <-.
  { destruct Hv as [->|[->| ->]];
      [reflexivity | apply item_stem, item_n0 | apply item_key, item_n0]. }
  rewrite Heq. reflexivity.
Qed.

Lemma after_gunzip m :
  foldl (mv gunzip) (foldl (copy_step dir) m files) (gz_moves files) !! stem0
  = Some content0.
Proof.
  pose proof (copy_fold_lookup dir files m n0 data0 Hdata0 (or_introl Hn0)) as Hcopied.
  set (m1 := foldl (copy_step dir) m files) in *.
  assert (Hmoves : forall op, op ∈ gz_moves files ->
            exists f, f ∈ files /\ endswith ".gz" f = true /\ op = (f, strip_gz f)).
  { intros op. unfold gz_moves. rewrite list_elem_of_omap. intros (f & Hf & Hop).
    exists f. destruct (endswith ".gz" f); [|discriminate].
    injection Hop as <-. repeat split. exact Hf. }
  unfold content0, stem0. destruct (endswith ".gz" n0) eqn:Hgz.
  - destruct (item_gz _ item_n0 Hgz) as [Hstrip Hneq]. rewrite <- Hstrip.
    apply (fold_mv_track gunzip (gz_moves files) m1 n0 (strip_gz n0) data0);
      [congruence | exact Hcopied | |].
    + unfold gz_moves. apply list_elem_of_omap. exists n0. rewrite Hgz.
      split; [exact Hn0 | reflexivity].
    + apply Forall_forall. intros op Hop.
      destruct (Hmoves _ Hop) as (f & Hf & Hfgz & ->).
      destruct (decide (f = n0)) as [->|Hfn]; [left; reflexivity|]. right.
      pose proof (proj1 (Forall_forall _ _) Hitems _ Hf) as Hitem.
      assert (Hkey : key_of ext f <> key_of ext n0) by (intros Hk; exact (Hfn (Hunique _ Hf Hk))).
      destruct (item_gz _ Hitem Hfgz) as [Hfs _]. rewrite Hfs, Hstrip.
      unfold apart; cbn [fst snd]. repeat split;
        apply (other_key_apart f _ _ Hitem Hkey); auto.
  - rewrite (item_plain _ item_n0 Hgz), <- Hcopied. apply fold_mv_apart.
    apply Forall_forall. intros op Hop.
    destruct (Hmoves _ Hop) as (f & Hf & Hfgz & ->).
    pose proof (proj1 (Forall_forall _ _) Hitems _ Hf) as Hitem.
    assert (Hfn : f <> n0) by (intros ->; congruence).
    assert (Hkey : key_of ext f <> key_of ext n0) by (intros Hk; exact (Hfn (Hunique _ Hf Hk))).
    destruct (item_gz _ Hitem Hfgz) as [Hfs _]. rewrite Hfs.
    unfold apart; cbn [fst snd]. split;
      apply (other_key_apart f _ _ Hitem Hkey); auto.
Qed.

Lemma after_rename m :
  ext <> "" ->
  m !! stem0 = Some content0 ->
  foldl (mv id) m (files_to_rename ext all_files) !! key_of ext n0 = Some content0.
Proof.
  intros Hne Hm.
  assert (Hmoves : forall op, op ∈ files_to_rename ext all_files ->
            exists f, f ∈ files /\ op = (replace ".gz" "" f, key_of ext f)).
  { intros [k v] Hop. apply dict_comprehension_elem in Hop as (f & Hf & -> & ->).
    exists f. split; [apply Hsame, Hf|]. rewrite (key_of_target _ Hne). reflexivity. }
  assert (Hops : Forall (fun op => op = (stem0, key_of ext n0) \/
                                   (apart stem0 op /\ apart (key_of ext n0) op))
                        (files_to_rename ext all_files)).
  { apply Forall_forall. intros op Hop. destruct (Hmoves _ Hop) as (f & Hf & ->).
    destruct (decide (f = n0)) as [->|Hfn]; [left; reflexivity|]. right.
    pose proof (proj1 (Forall_forall _ _) Hitems _ Hf) as Hitem.
    assert (Hkey : key_of ext f <> key_of ext n0) by (intros Hk; exact (Hfn (Hunique _ Hf Hk))).
    unfold apart; cbn [fst snd]. repeat split;
      apply (other_key_apart f _ _ Hitem Hkey); auto. }
  destruct (decide (stem0 = key_of ext n0)) as [Heq|Hneq].
  - rewrite <- Heq in Hops |- *. rewrite <- Hm. apply fold_mv_fixed.
    eapply Forall_impl; [exact Hops|]. intros op [->|[H _]]; [left; reflexivity | right; exact H].
  - apply (fold_mv_track id (files_to_rename ext all_files) m stem0 (key_of ext n0) content0);
      [exact Hneq | exact Hm | | exact Hops].
    destruct (dict_comprehension_key (fun k => replace ".gz" "" k)
                (fun k => replace ".gz" "" (replace ext "" k)) all_files n0) as [v Hv];
      [apply Hsame, Hn0|].
    fold (files_to_rename ext all_files) in Hv.
    destruct (Hmoves _ Hv) as (f & Hf & Hfv). injection Hfv as Hstem ->.
    assert (f = n0) as ->; [|exact Hv].
    apply (Hunique _ Hf).
    rewrite <- (item_stem f (proj1 (Forall_forall _ _) Hitems _ Hf)).
    rewrite <- (item_stem n0 item_n0). f_equal. symmetry. exact Hstem.
Qed.

(** The followed file ends under its key with its (decompressed) content. *)
Lemma tracked m :
  foldl (mv id)
        (foldl (mv gunzip) (foldl (copy_step dir) m files) (gz_moves files))
        (if negb (String.eqb ext "") then files_to_rename ext all_files else [])
  !! key_of ext n0 = Some content0.
Proof.
  pose proof (after_gunzip m) as H2.
  destruct (String.eqb_spec ext "") as [Heq|Hne]; cbn [negb].
  - cbn [foldl]. rewrite <- (key_of_stem n0 Heq). exact H2.
  - apply (after_rename _ Hne H2).
Qed.

End Tracking.

(** *** The selected files *)

Lemma clean_standard b : b ∈ standard_files -> clean b = true.
Proof.
  unfold standard_files. intros H.
  repeat (apply elem_of_cons in H as [->|H]; [reflexivity|]). inversion H.
Qed.

Section Selection.

Variables (E : helper_exns) (listing : list string) (ext : string) (additional : list string).
Hypothesis Hext : relax_shaped ext.
Hypothesis Hclean : Forall (fun b => clean b = true) additional.

Lemma clean_required b : b ∈ standard_files ++ additional -> clean b = true.
Proof.
  intros [H|H]%elem_of_app; [exact (clean_standard _ H)|].
  exact (proj1 (Forall_forall _ _) Hclean _ H).
Qed.

(** A file found for a required base name: its key is that name. *)
Lemma required_item b f :
  b ∈ standard_files ++ additional -> get_zfile E listing (b +:+ ext) = inr f ->
  f ∈ listing /\ item ext f /\ key_of ext f = b.
Proof.
  intros Hb Hf. apply get_zfile_inr in Hf as [Hin Hname]. split; [exact Hin|].
  pose proof (clean_required _ Hb) as Hcb.
  assert (Hshape : exists z, (z = "" \/ z = ".gz") /\ f = b +:+ ext +:+ z).
  { destruct Hname as [->| ->].
    - exists "". split; [left; reflexivity | rewrite append_nil_r; reflexivity].
    - exists ".gz". split; [right; reflexivity | apply append_assoc]. }
  destruct Hshape as (z & Hz & ->). split.
  - exists b, ext, z. repeat split; try assumption. right. reflexivity.
  - apply (key_of_named ext b Hext Hcb ext z); [right; reflexivity | exact Hz].
Qed.

Lemma optional_item f :
  f ∈ optional_files listing ext ->
  f ∈ listing /\ item ext f /\ key_of ext f ∈ ["POTCAR"; "POTCAR.spec"; "KPOINTS"].
Proof.
  intros Hf. apply optional_files_elem in Hf as (b & Hb & Hin & Hname).
  split; [exact Hin|].
  assert (Hshape : exists b0 e z,
             b0 ∈ ["POTCAR"; "POTCAR.spec"; "KPOINTS"] /\ clean b0 = true /\
             (e = "" \/ e = ext) /\ (z = "" \/ z = ".gz") /\ f = b0 +:+ e +:+ z).
  { assert (Hz : exists z, (z = "" \/ z = ".gz") /\ f = b +:+ z).
    { destruct Hname as [->| ->];
        [exists ""; split; [left; reflexivity | symmetry; apply append_nil_r]
        | exists ".gz"; split; [right|]; reflexivity]. }
    destruct Hz as (z & Hz & ->).
    apply elem_of_cons in Hb as [->|Hb]; [|apply elem_of_cons in Hb as [->|Hb]];
      [| |apply elem_of_cons in Hb as [->|Hb]; [|inversion Hb]].
    - exists "POTCAR", "", z. split; [left|]. split; [reflexivity|].
      split; [left; reflexivity|]. split; [exact Hz | reflexivity].
    - exists "POTCAR.spec", "", z. split; [right; left|]. split; [reflexivity|].
      split; [left; reflexivity|]. split; [exact Hz | reflexivity].
    - exists "KPOINTS", ext, z. split; [right; right; left|]. split; [reflexivity|].
      split; [right; reflexivity|]. split; [exact Hz | apply append_assoc]. }
  destruct Hshape as (b0 & e & z & Hb0 & Hcb0 & He & Hz & ->). split.
  - exists b0, e, z. repeat split; assumption.
  - rewrite (key_of_named ext b0 Hext Hcb0 e z He Hz). exact Hb0.
Qed.

Variable req : list string.
Hypothesis Hreq : required_files E listing ext additional = inr req.

Lemma selected_items :
  Forall (item ext) (req ++ optional_files listing ext) /\
  Forall (fun f => f ∈ listing) (req ++ optional_files listing ext).
Proof.
  split; apply Forall_forall; intros f [Hf|Hf]%elem_of_app.
  - destruct (required_files_elem _ _ _ _ _ _ Hreq Hf) as (b & Hb & Hg).
    exact (proj1 (proj2 (required_item _ _ Hb Hg))).
  - exact (proj1 (proj2 (optional_item _ Hf))).
  - destruct (required_files_elem _ _ _ _ _ _ Hreq Hf) as (b & Hb & Hg).
    exact (proj1 (required_item _ _ Hb Hg)).
  - exact (proj1 (optional_item _ Hf)).
Qed.

(** The file found for a required name that is not one of the optional ones
    is the only selected file with its key. *)
Lemma required_unique b0 n0 :
  b0 ∈ standard_files ++ additional -> b0 ∉ ["POTCAR"; "POTCAR.spec"; "KPOINTS"] ->
  get_zfile E listing (b0 +:+ ext) = inr n0 ->
  forall f, f ∈ req ++ optional_files listing ext ->
            key_of ext f = key_of ext n0 -> f = n0.
Proof.
  intros Hb0 Hnot Hn0 f Hf Hkey.
  rewrite (proj2 (proj2 (required_item _ _ Hb0 Hn0))) in Hkey.
  apply elem_of_app in Hf as [Hf|Hf].
  - destruct (required_files_elem _ _ _ _ _ _ Hreq Hf) as (b & Hb & Hg).
    rewrite (proj2 (proj2 (required_item _ _ Hb Hg))) in Hkey. subst b. congruence.
  - destruct (optional_item _ Hf) as (_ & _ & Hopt). rewrite Hkey in Hopt. contradiction.
Qed.

(** With distinct names no file is selected twice, and no two selected files
    share a key. *)
Hypothesis Hdistinct : distinct_names additional.

Lemma found_keys bases found :
  Forall (fun b => clean b = true) bases ->
  Forall2 (fun b f => get_zfile E listing (b +:+ ext) = inr f) bases found ->
  key_of ext <$> found = bases.
Proof.
  intros Hc H. induction H as [|b f bases found Hbf _ IH]; [reflexivity|].
  apply Forall_cons in Hc as [Hb Hc]. cbn [fmap list_fmap]. f_equal; [|exact (IH Hc)].
  apply get_zfile_inr in Hbf as [_ [->| ->]].
  - rewrite <- (append_nil_r (b +:+ ext)), append_assoc.
    apply (key_of_named ext b Hext Hb ext ""); [right | left]; reflexivity.
  - rewrite append_assoc.
    apply (key_of_named ext b Hext Hb ext ".gz"); right; reflexivity.
Qed.

Lemma optional_key b e f :
  clean b = true -> e = "" \/ e = ext ->
  get_zfile_allow_missing listing (b +:+ e) = Some f -> key_of ext f = b.
Proof.
  intros Hb He Hfind. apply find_zfile_Some in Hfind as [_ [->| ->]].
  - rewrite <- (append_nil_r (b +:+ e)), append_assoc.
    apply (key_of_named ext b Hext Hb e ""); [exact He | left; reflexivity].
  - rewrite append_assoc.
    apply (key_of_named ext b Hext Hb e ".gz"); [exact He | right; reflexivity].
Qed.

Lemma optional_keys :
  key_of ext <$> optional_files listing ext `sublist_of` ["POTCAR"; "POTCAR.spec"; "KPOINTS"].
Proof.
  unfold optional_files. cbn [omap list_omap].
  destruct (get_zfile_allow_missing listing "POTCAR") as [f1|] eqn:H1;
    destruct (get_zfile_allow_missing listing "POTCAR.spec") as [f2|] eqn:H2;
    destruct (get_zfile_allow_missing listing ("KPOINTS" +:+ ext)) as [f3|] eqn:H3;
    cbn [fmap list_fmap];
    try rewrite (optional_key "POTCAR" "" _ eq_refl (or_introl eq_refl) H1);
    try rewrite (optional_key "POTCAR.spec" "" _ eq_refl (or_introl eq_refl) H2);
    try rewrite (optional_key "KPOINTS" ext _ eq_refl (or_intror eq_refl) H3);
    repeat first [apply sublist_nil | apply sublist_skip | apply sublist_cons].
Qed.

Lemma selected_keys_NoDup : NoDup (key_of ext <$> (req ++ optional_files listing ext)).
Proof.
  rewrite fmap_app.
  rewrite (found_keys (standard_files ++ additional) req).
  - refine (sublist_NoDup _ _ Hdistinct _). rewrite <- (assoc_L (++)).
    apply sublist_app; [reflexivity|]. apply sublist_app; [reflexivity | exact optional_keys].
  - apply Forall_forall. exact clean_required.
  - apply comprehension_inr. exact Hreq.
Qed.

Lemma selected_NoDup : NoDup (req ++ optional_files listing ext).
Proof. exact (NoDup_fmap_1 _ _ selected_keys_NoDup). Qed.

Lemma selected_unique f g :
  f ∈ req ++ optional_files listing ext -> g ∈ req ++ optional_files listing ext ->
  key_of ext f = key_of ext g -> f = g.
Proof. apply fmap_NoDup_inj. exact selected_keys_NoDup. Qed.

(** The name a gzipped file is decompressed to is not itself selected. *)
Lemma stem_not_selected g :
  g ∈ req ++ optional_files listing ext -> endswith ".gz" g = true ->
  strip_gz g ∉ req ++ optional_files listing ext.
Proof.
  intros Hg Hgz Hin. destruct selected_items as [Hitems _].
  pose proof (proj1 (Forall_forall _ _) Hitems _ Hg) as Hitem.
  destruct (item_gz ext Hext g Hitem Hgz) as [Hstrip Hneq].
  apply Hneq. apply (selected_unique _ _ Hin Hg).
  rewrite Hstrip. apply (item_stem ext Hext g Hitem).
Qed.

End Selection.

(** *** The whole run *)

Section Run.

Variables (E : helper_exns) (gunzip : string -> string) (fs : filesystem)
          (dir : string) (host : option string) (additional : list string) (ext : string).
Hypothesis Hext : relax_shaped ext.
Hypothesis Hclean : Forall (fun b => clean b = true) additional.
Hypothesis Hdistinct : distinct_names additional.

Local Abbreviation listing := (FileClient.listdir fs dir host).

Variable req : list string.
Hypothesis Hreq : required_files E listing ext additional = inr req.

Local Abbreviation renamed := (renamed gunzip fs dir host ext req).

(** A required file that is not also an optional one ends under its base
    name, decompressed if it was gzipped. *)
Lemma renamed_required b f data cwd :
  b ∈ standard_files ++ additional -> b ∉ ["POTCAR"; "POTCAR.spec"; "KPOINTS"] ->
  get_zfile E listing (b +:+ ext) = inr f ->
  lookup_entry (fs host dir) f = Some data ->
  renamed cwd !! b = Some (if endswith ".gz" f then gunzip data else data).
Proof.
  intros Hb Hnot Hf Hdata.
  destruct (selected_items E listing ext additional Hext Hclean req Hreq) as [Hitems _].
  destruct (required_files_of _ _ _ _ _ _ Hreq Hb) as (f' & Hf' & Hg).
  assert (f' = f) as -> by congruence.
  rewrite <- (proj2 (proj2 (required_item E listing ext additional Hext Hclean b f Hb Hf))).
  unfold renamed.
  apply (tracked ext Hext gunzip (fs host dir)
           (req ++ optional_files listing ext) (optional_files listing ext ++ req)
           Hitems).
  - intros g. rewrite !elem_of_app. tauto.
  - apply elem_of_app. left. exact Hf'.
  - exact Hdata.
  - exact (required_unique E listing ext additional Hext Hclean req Hreq b f Hb Hnot Hf).
Qed.

Lemma transfer_run ctp cwd :
  fresh_directory ext listing additional ctp cwd ->
  exists contcar data,
    get_zfile E listing ("CONTCAR" +:+ ext) = inr contcar /\
    lookup_entry (fs host dir) contcar = Some data /\
    renamed cwd !! "CONTCAR" = Some (if endswith ".gz" contcar then gunzip data else data) /\
    transfer E gunzip fs dir host ext req (optional_files listing ext) ctp cwd
    = (inr tt,
       if ctp
       then <["POSCAR" := if endswith ".gz" contcar then gunzip data else data]>
              (delete "CONTCAR" (renamed cwd))
       else renamed cwd).
Proof.
  intros [Hfresh _].
  assert (Hc : "CONTCAR" ∈ standard_files ++ additional)
    by (apply elem_of_app; left; unfold standard_files; right; right; left).
  destruct (required_files_of _ _ _ _ _ _ Hreq Hc) as (contcar & Hin & Hg).
  destruct (required_item E listing ext additional Hext Hclean _ _ Hc Hg) as (Hlisted & _).
  destruct (lookup_entry_listed _ _ Hlisted) as [data Hdata].
  assert (Hnot : "CONTCAR" ∉ ["POTCAR"; "POTCAR.spec"; "KPOINTS"]).
  { intros H. repeat (apply elem_of_cons in H as [H|H]; [discriminate|]). inversion H. }
  pose proof (renamed_required "CONTCAR" contcar data cwd Hc Hnot Hg Hdata) as Htracked.
  exists contcar, data. split; [exact Hg|]. split; [exact Hdata|]. split; [exact Htracked|].
  destruct (selected_items E listing ext additional Hext Hclean req Hreq) as [_ Hlist].
  unfold transfer, mbind, st_bind.
  rewrite copy_files_run.
  2:{ eapply Forall_impl; [exact Hlist|]. intros f Hf. exact (lookup_entry_listed _ _ Hf). }
  rewrite gunzip_files_run.
  2:{ exact (selected_NoDup E listing ext additional Hext Hclean req Hreq Hdistinct). }
  2:{ intros g Hsel Hgz. rewrite copy_fold_other.
      - apply (Hfresh g); [exact (proj1 (Forall_forall _ _) Hlist _ Hsel)|].
        unfold derived_names. right. left.
      - exact (stem_not_selected E listing ext additional Hext Hclean req Hreq Hdistinct
                 g Hsel Hgz). }
  assert (Hrename :
            (if negb (String.eqb ext "")
             then rename_files E (files_to_rename ext (optional_files listing ext ++ req)) true
             else mret tt)
              (foldl (mv gunzip)
                 (foldl (copy_step (fs host dir)) cwd (req ++ optional_files listing ext))
                 (gz_moves (req ++ optional_files listing ext)))
            = (inr tt, renamed cwd)).
  { unfold renamed. destruct (negb (String.eqb ext "")); [apply rename_files_run | reflexivity]. }
  rewrite Hrename. destruct ctp; [|reflexivity].
  apply rename_contcar_run. exact Htracked.
Qed.

End Run.

(** *** The claims about [copy_vasp_outputs] *)

(** A decidable closed proposition, settled by evaluation. *)
Ltac by_decide := apply (bool_decide_unpack _); vm_compute; exact I.

Lemma run_relax_fails E gunzip fs src_dir src_host additional ctp cwd e :
  get_largest_relax_extension fs (strip_hostname src_dir) src_host = inl e ->
  copy_vasp_outputs E gunzip fs src_dir src_host additional ctp cwd = (inl e, cwd).
Proof. intros H. rewrite copy_vasp_outputs_unfold, H. reflexivity. Qed.

Lemma run_succeeds E gunzip fs src_dir src_host additional ctp cwd ext :
  get_largest_relax_extension fs (strip_hostname src_dir) src_host = inr ext ->
  Forall (fun b => present (FileClient.listdir fs (strip_hostname src_dir) src_host)
                           (b +:+ ext)) (standard_files ++ additional) ->
  potcar_present (FileClient.listdir fs (strip_hostname src_dir) src_host) ->
  Forall (fun b => clean b = true) additional ->
  distinct_names additional ->
  fresh_directory ext (FileClient.listdir fs (strip_hostname src_dir) src_host)
    additional ctp cwd ->
  exists req contcar data,
    required_files E (FileClient.listdir fs (strip_hostname src_dir) src_host) ext additional
      = inr req /\
    get_zfile E (FileClient.listdir fs (strip_hostname src_dir) src_host) ("CONTCAR" +:+ ext)
      = inr contcar /\
    lookup_entry (fs src_host (strip_hostname src_dir)) contcar = Some data /\
    copy_vasp_outputs E gunzip fs src_dir src_host additional ctp cwd
    = (inr tt,
       if ctp
       then <["POSCAR" := if endswith ".gz" contcar then gunzip data else data]>
              (delete "CONTCAR"
                 (renamed gunzip fs (strip_hostname src_dir) src_host ext req cwd))
       else renamed gunzip fs (strip_hostname src_dir) src_host ext req cwd).
Proof.
  intros Hget Hall Hpot Hclean Hdistinct Hfresh.
  pose proof (relax_extension_shaped _ _ _ _ Hget) as Hext.
  destruct (required_files_found E _ _ _ Hall) as [req Hreq].
  destruct (transfer_run E gunzip fs (strip_hostname src_dir) src_host additional ext
              Hext Hclean Hdistinct req Hreq ctp cwd Hfresh)
    as (contcar & data & Hc & Hd & _ & Hrun).
  exists req, contcar, data. split; [exact Hreq|]. split; [exact Hc|]. split; [exact Hd|].
  rewrite copy_vasp_outputs_unfold, Hget. cbv zeta. rewrite Hreq.
  destruct (length _ =? 0)%nat eqn:Hcheck; [|exact Hrun].
  apply (potcar_check _ _ Hext) in Hcheck. contradiction.
Qed.

(** The element at which a comprehension raises is the first that does. *)
Lemma comprehension_inl_first {A B} (f : A -> result B) l e :
  comprehension f l = inl e ->
  exists before x after,
    l = before ++ x :: after /\
    Forall (fun y => exists z, f y = inr z) before /\ f x = inl e.
Proof.
  induction l as [|x l IH]; cbn [comprehension]; [discriminate|].
  destruct (f x) as [e'|y] eqn:Hx.
  - intros [= <-]. exists [], x, l. split; [reflexivity|]. split; [constructor | exact Hx].
  - destruct (comprehension f l) as [e'|ys]; [|discriminate].
    intros [= <-]. destruct IH as (before & x' & after & -> & Hbefore & Hx'); [reflexivity|].
    exists (x :: before), x', after. split; [reflexivity|].
    split; [constructor; [exists y; exact Hx | exact Hbefore] | exact Hx'].
Qed.

Lemma required_files_first_missing E listing ext additional e :
  required_files E listing ext additional = inl e ->
  exists before b after,
    standard_files ++ additional = before ++ b :: after /\
    Forall (fun y => present listing (y +:+ ext)) before /\
    ~ present listing (b +:+ ext) /\
    e = zfile_missing E (b +:+ ext).
Proof.
  unfold required_files. intros H.
  destruct (comprehension_inl_first _ _ _ H) as (before & b & after & Hsplit & Hbefore & Hb).
  exists before, b, after. split; [exact Hsplit|]. split; [|].
  - eapply Forall_impl; [exact Hbefore|]. intros y [z Hz].
    apply get_zfile_inr in Hz as [Hin [->| ->]]; [left | right]; exact Hin.
  - unfold get_zfile in Hb. destruct (List.find _ listing) eqn:Hfind; [discriminate|].
    injection Hb as <-. split; [apply find_zfile_None, Hfind | reflexivity].
Qed.

Lemma required_files_present E listing ext additional req :
  required_files E listing ext additional = inr req ->
  Forall (fun b => present listing (b +:+ ext)) (standard_files ++ additional).
Proof.
  unfold required_files. rewrite comprehension_inr. intros H.
  apply Forall_forall. intros b Hb.
  destruct (Forall2_elem_l _ _ _ _ H Hb) as (f & _ & Hf).
  apply get_zfile_inr in Hf as [Hin [->| ->]]; [left | right]; exact Hin.
Qed.

Lemma distinct_not_optional additional b :
  distinct_names additional -> b ∈ standard_files ++ additional ->
  b ∉ ["POTCAR"; "POTCAR.spec"; "KPOINTS"].
Proof.
  unfold distinct_names. rewrite (assoc_L (++)). intros Hnd Hb.
  apply NoDup_app in Hnd as (_ & Hdisj & _). exact (Hdisj b Hb).
Qed.

(** C4 (as amended).  Once the relax extension is known: when a required
    file (INCAR, OUTCAR, CONTCAR, vasprun.xml or an additional file, with the
    extension, plain or gzipped) is missing, [get_zfile]'s exception for the
    first missing one, in the order of line 59, is raised before anything is
    copied, whether or not a POTCAR exists; when all of them are found,
    [FileNotFoundError] "Could not find POTCAR file to copy." is raised,
    again before anything is copied, if no POTCAR or POTCAR.spec is listed,
    plain or gzipped, and otherwise the run goes on to the copying of lines
    74-97, with no condition on KPOINTS.  For additional names free of ".gz"
    and ".relax" that are distinct from one another and from the standard and
    optional names, in a working directory that holds none of the names the
    run writes, the run then completes, so that there the POTCAR exception is
    raised exactly when no POTCAR-type file is listed. *)
Theorem missing_files_and_potcar E gunzip fs src_dir src_host additional ctp cwd ext :
  get_largest_relax_extension fs (strip_hostname src_dir) src_host = inr ext ->
  (forall b,
     b ∈ standard_files ++ additional ->
     ~ present (FileClient.listdir fs (strip_hostname src_dir) src_host) (b +:+ ext) ->
     exists before b' after,
       standard_files ++ additional = before ++ b' :: after /\
       Forall (fun y => present (FileClient.listdir fs (strip_hostname src_dir) src_host)
                                (y +:+ ext)) before /\
       ~ present (FileClient.listdir fs (strip_hostname src_dir) src_host) (b' +:+ ext) /\
       copy_vasp_outputs E gunzip fs src_dir src_host additional ctp cwd
       = (inl (zfile_missing E (b' +:+ ext)), cwd)) /\
  (Forall (fun b => present (FileClient.listdir fs (strip_hostname src_dir) src_host)
                            (b +:+ ext)) (standard_files ++ additional) ->
   (~ potcar_present (FileClient.listdir fs (strip_hostname src_dir) src_host) ->
    copy_vasp_outputs E gunzip fs src_dir src_host additional ctp cwd
    = (inl no_potcar, cwd)) /\
   (potcar_present (FileClient.listdir fs (strip_hostname src_dir) src_host) ->
    exists req,
      required_files E (FileClient.listdir fs (strip_hostname src_dir) src_host)
        ext additional = inr req /\
      copy_vasp_outputs E gunzip fs src_dir src_host additional ctp cwd
      = transfer E gunzip fs (strip_hostname src_dir) src_host ext req
          (optional_files (FileClient.listdir fs (strip_hostname src_dir) src_host) ext)
          ctp cwd) /\
   (Forall (fun b => clean b = true) additional ->
    distinct_names additional ->
    fresh_directory ext (FileClient.listdir fs (strip_hostname src_dir) src_host)
      additional ctp cwd ->
    (potcar_present (FileClient.listdir fs (strip_hostname src_dir) src_host) ->
     (copy_vasp_outputs E gunzip fs src_dir src_host additional ctp cwd).1 = inr tt) /\
    ((copy_vasp_outputs E gunzip fs src_dir src_host additional ctp cwd).1 = inl no_potcar
     <-> ~ potcar_present (FileClient.listdir fs (strip_hostname src_dir) src_host)))).
Proof.
  intros Hget. pose proof (relax_extension_shaped _ _ _ _ Hget) as Hext.
  assert (Hnone : Forall (fun b => present (FileClient.listdir fs (strip_hostname src_dir) src_host)
                                     (b +:+ ext)) (standard_files ++ additional) ->
                  ~ potcar_present (FileClient.listdir fs (strip_hostname src_dir) src_host) ->
                  copy_vasp_outputs E gunzip fs src_dir src_host additional ctp cwd
                  = (inl no_potcar, cwd)).
  { intros Hall Hno. destruct (required_files_found E _ _ _ Hall) as [req Hreq].
    rewrite copy_vasp_outputs_unfold, Hget. cbv zeta. rewrite Hreq.
    rewrite (proj2 (potcar_check _ _ Hext) Hno). reflexivity. }
  split.
  - intros b Hb Hno.
    destruct (required_files E (FileClient.listdir fs (strip_hostname src_dir) src_host)
                ext additional) as [e|req] eqn:Hreq.
    + destruct (required_files_first_missing _ _ _ _ _ Hreq)
        as (before & b' & after & Hsplit & Hbefore & Hno' & ->).
      exists before, b', after. split; [exact Hsplit|]. split; [exact Hbefore|].
      split; [exact Hno'|].
      rewrite copy_vasp_outputs_unfold, Hget. cbv zeta. rewrite Hreq. reflexivity.
    + pose proof (required_files_present _ _ _ _ _ Hreq) as Hall.
      contradiction Hno. exact (proj1 (Forall_forall _ _) Hall _ Hb).
  - intros Hall. split; [exact (Hnone Hall)|]. split.
    + intros Hpot. destruct (required_files_found E _ _ _ Hall) as [req Hreq].
      exists req. split; [exact Hreq|].
      rewrite copy_vasp_outputs_unfold, Hget. cbv zeta. rewrite Hreq.
      destruct (length _ =? 0)%nat eqn:Hcheck; [|reflexivity].
      apply (potcar_check _ _ Hext) in Hcheck. contradiction.
    + intros Hclean Hdistinct Hfresh.
      assert (Hok : potcar_present (FileClient.listdir fs (strip_hostname src_dir) src_host) ->
                    (copy_vasp_outputs E gunzip fs src_dir src_host additional ctp cwd).1
                    = inr tt).
      { intros Hpot.
        destruct (run_succeeds E gunzip fs src_dir src_host additional ctp cwd ext
                    Hget Hall Hpot Hclean Hdistinct Hfresh) as (? & ? & ? & _ & _ & _ & ->).
        reflexivity. }
      split; [exact Hok|]. split.
      * intros Hraise Hpot. rewrite (Hok Hpot) in Hraise. discriminate.
      * intros Hno. rewrite (Hnone Hall Hno). reflexivity.
Qed.

Lemma poscar_names_key ext f :
  relax_shaped ext ->
  f ∈ ["POSCAR"; "POSCAR.gz"; "POSCAR" +:+ ext; "POSCAR" +:+ ext +:+ ".gz"] ->
  key_of ext f = "POSCAR".
Proof.
  intros Hext Hname. assert (Hp : clean "POSCAR" = true) by reflexivity.
  repeat (apply elem_of_cons in Hname as [->|Hname]).
  - apply (key_of_named ext "POSCAR" Hext Hp "" ""); left; reflexivity.
  - apply (key_of_named ext "POSCAR" Hext Hp "" ".gz"); [left|right]; reflexivity.
  - rewrite <- (append_nil_r ("POSCAR" +:+ ext)), append_assoc.
    apply (key_of_named ext "POSCAR" Hext Hp ext ""); [right|left]; reflexivity.
  - apply (key_of_named ext "POSCAR" Hext Hp ext ".gz"); right; reflexivity.
  - inversion Hname.
Qed.

(** C10 (as amended).  For additional names free of ".gz" and ".relax": a
    POSCAR of the source is among the selected files only when
    [additional_vasp_files] names it.  With [contcar_to_poscar] set, when the
    run finds its files, the additional names are distinct from one another
    and from the standard and optional names, and the working directory holds
    none of the names the run writes, no POSCAR and none is asked for, the
    run ends by moving CONTCAR to POSCAR: POSCAR then holds the content of
    the source's CONTCAR (of the largest relax extension, decompressed if
    gzipped), no CONTCAR is left, and no POSCAR of the source was copied. *)
Theorem contcar_becomes_poscar E gunzip fs src_dir src_host additional cwd ext :
  get_largest_relax_extension fs (strip_hostname src_dir) src_host = inr ext ->
  Forall (fun b => clean b = true) additional ->
  (forall req f,
     required_files E (FileClient.listdir fs (strip_hostname src_dir) src_host) ext additional
       = inr req ->
     f ∈ req ++ optional_files (FileClient.listdir fs (strip_hostname src_dir) src_host) ext ->
     f ∈ ["POSCAR"; "POSCAR.gz"; "POSCAR" +:+ ext; "POSCAR" +:+ ext +:+ ".gz"] ->
     "POSCAR" ∈ additional) /\
  (Forall (fun b => present (FileClient.listdir fs (strip_hostname src_dir) src_host)
                            (b +:+ ext)) (standard_files ++ additional) ->
   potcar_present (FileClient.listdir fs (strip_hostname src_dir) src_host) ->
   distinct_names additional ->
   fresh_directory ext (FileClient.listdir fs (strip_hostname src_dir) src_host)
     additional true cwd ->
   exists req contcar data cwd',
     required_files E (FileClient.listdir fs (strip_hostname src_dir) src_host) ext additional
       = inr req /\
     get_zfile E (FileClient.listdir fs (strip_hostname src_dir) src_host) ("CONTCAR" +:+ ext)
       = inr contcar /\
     lookup_entry (fs src_host (strip_hostname src_dir)) contcar = Some data /\
     copy_vasp_outputs E gunzip fs src_dir src_host additional true cwd = (inr tt, cwd') /\
     cwd' !! "POSCAR" = Some (if endswith ".gz" contcar then gunzip data else data) /\
     cwd' !! "CONTCAR" = None /\
     (forall f,
        f ∈ req ++ optional_files (FileClient.listdir fs (strip_hostname src_dir) src_host) ext ->
        f ∉ ["POSCAR"; "POSCAR.gz"; "POSCAR" +:+ ext; "POSCAR" +:+ ext +:+ ".gz"])).
Proof.
  intros Hget Hclean.
  pose proof (relax_extension_shaped _ _ _ _ Hget) as Hext.
  assert (Hposcar : forall req f,
            required_files E (FileClient.listdir fs (strip_hostname src_dir) src_host)
              ext additional = inr req ->
            f ∈ req ++ optional_files
                         (FileClient.listdir fs (strip_hostname src_dir) src_host) ext ->
            f ∈ ["POSCAR"; "POSCAR.gz"; "POSCAR" +:+ ext; "POSCAR" +:+ ext +:+ ".gz"] ->
            "POSCAR" ∈ additional).
  { intros req f Hreq Hf Hname. pose proof (poscar_names_key ext f Hext Hname) as Hkey.
    apply elem_of_app in Hf as [Hf|Hf].
    - destruct (required_files_elem _ _ _ _ _ _ Hreq Hf) as (b & Hb & Hg).
      rewrite (proj2 (proj2 (required_item E _ ext additional Hext Hclean b f Hb Hg))) in Hkey.
      subst b. apply elem_of_app in Hb as [Hb|Hb]; [|exact Hb].
      unfold standard_files in Hb.
      repeat (apply elem_of_cons in Hb as [Hb|Hb]; [discriminate|]). inversion Hb.
    - destruct (optional_item _ ext Hext f Hf) as (_ & _ & Hopt). rewrite Hkey in Hopt.
      repeat (apply elem_of_cons in Hopt as [Hopt|Hopt]; [discriminate|]). inversion Hopt. }
  split; [exact Hposcar|].
  intros Hall Hpot Hdistinct Hfresh.
  destruct (run_succeeds E gunzip fs src_dir src_host additional true cwd ext
              Hget Hall Hpot Hclean Hdistinct Hfresh)
    as (req & contcar & data & Hreq & Hc & Hd & Hrun).
  eexists req, contcar, data, _. split; [exact Hreq|]. split; [exact Hc|].
  split; [exact Hd|]. split; [exact Hrun|].
  split; [apply lookup_insert_eq|].
  split; [rewrite lookup_insert_ne by discriminate; apply lookup_delete_eq|].
  intros f Hf Hname. destruct Hfresh as [_ Hp]. destruct (Hp eq_refl) as [_ Hnot].
  exact (Hnot (Hposcar req f Hreq Hf Hname)).
Qed.

(** C6 (as amended).  The run depends on the file system only through the
    directory [strip_hostname src_dir] on the host [src_host] ([None]: the
    local one): listing and copying read nothing else, and a host name written
    into [src_dir] is dropped, not used. *)
Theorem source_is_src_host E gunzip fs fs' src_dir src_host additional ctp cwd :
  fs' src_host (strip_hostname src_dir) = fs src_host (strip_hostname src_dir) ->
  copy_vasp_outputs E gunzip fs' src_dir src_host additional ctp cwd
  = copy_vasp_outputs E gunzip fs src_dir src_host additional ctp cwd.
Proof.
  intros Hsame.
  unfold copy_vasp_outputs, get_largest_relax_extension, copy_files,
    FileClient.glob, FileClient.listdir.
  rewrite Hsame. reflexivity.
Qed.

Lemma strip_hostname_embedded host dir :
  contains ":" host = false -> strip_hostname (host +:+ ":" +:+ dir) = dir.
Proof.
  induction host as [|c host IH]; intros Hhost.
  - reflexivity.
  - rewrite append_cons. cbn [strip_hostname].
    change ":" with (String ":" "") in Hhost. unfold contains in Hhost; fold contains in Hhost.
    apply orb_false_iff in Hhost as [Hc Hhost]. rewrite prefix_cons_eqb in Hc.
    rewrite prefix_nil_l, andb_true_r, Ascii.eqb_sym in Hc. rewrite Hc.
    assert (contains ":" (host +:+ ":" +:+ dir) = true) as ->.
    { apply contains_split. exists host, dir. reflexivity. }
    apply IH. exact Hhost.
Qed.

(** X1.  For additional names free of ".gz" and ".relax" that are distinct
    from one another and from the standard and optional names, and a working
    directory that holds none of the names the run writes: the run completes,
    the selected files are listed files that carry the largest relax
    extension (POTCAR files apart), and every required file ends in the
    working directory under its base name, decompressed if it was gzipped
    (CONTCAR apart when it is moved to POSCAR). *)
Theorem clean_files_renamed E gunzip fs src_dir src_host additional ctp cwd ext :
  get_largest_relax_extension fs (strip_hostname src_dir) src_host = inr ext ->
  Forall (fun b => present (FileClient.listdir fs (strip_hostname src_dir) src_host)
                           (b +:+ ext)) (standard_files ++ additional) ->
  potcar_present (FileClient.listdir fs (strip_hostname src_dir) src_host) ->
  Forall (fun b => clean b = true) additional ->
  distinct_names additional ->
  fresh_directory ext (FileClient.listdir fs (strip_hostname src_dir) src_host)
    additional ctp cwd ->
  exists req cwd',
    required_files E (FileClient.listdir fs (strip_hostname src_dir) src_host) ext additional
      = inr req /\
    copy_vasp_outputs E gunzip fs src_dir src_host additional ctp cwd = (inr tt, cwd') /\
    (forall f,
       f ∈ req ++ optional_files (FileClient.listdir fs (strip_hostname src_dir) src_host) ext ->
       f ∈ FileClient.listdir fs (strip_hostname src_dir) src_host /\
       ((exists b, b ∈ standard_files ++ additional ++ ["KPOINTS"] /\
                   (f = b +:+ ext \/ f = b +:+ ext +:+ ".gz")) \/
        f ∈ ["POTCAR"; "POTCAR.gz"; "POTCAR.spec"; "POTCAR.spec.gz"])) /\
    (forall b f data,
       b ∈ standard_files ++ additional ->
       (ctp = true -> b <> "CONTCAR") ->
       get_zfile E (FileClient.listdir fs (strip_hostname src_dir) src_host) (b +:+ ext)
         = inr f ->
       lookup_entry (fs src_host (strip_hostname src_dir)) f = Some data ->
       cwd' !! b = Some (if endswith ".gz" f then gunzip data else data)).
Proof.
  intros Hget Hall Hpot Hclean Hdistinct Hfresh.
  pose proof (relax_extension_shaped _ _ _ _ Hget) as Hext.
  destruct (run_succeeds E gunzip fs src_dir src_host additional ctp cwd ext
              Hget Hall Hpot Hclean Hdistinct Hfresh)
    as (req & contcar & cdata & Hreq & _ & _ & Hrun).
  eexists req, _. split; [exact Hreq|]. split; [exact Hrun|]. split.
  - intros f [Hf|Hf]%elem_of_app.
    + destruct (required_files_elem _ _ _ _ _ _ Hreq Hf) as (b & Hb & Hg).
      apply get_zfile_inr in Hg as [Hin Hname]. split; [exact Hin|]. left.
      exists b. split; [|rewrite append_assoc in Hname; exact Hname].
      rewrite app_assoc. apply elem_of_app. left. exact Hb.
    + destruct (optional_files_elem _ _ _ Hf) as (b & Hb & Hin & Hname).
      split; [exact Hin|].
      apply elem_of_cons in Hb as [->|Hb]; [|apply elem_of_cons in Hb as [->|Hb]];
        [| |apply elem_of_cons in Hb as [->|Hb]; [|inversion Hb]].
      * right. destruct Hname as [->| ->]; [left | right; left].
      * right. destruct Hname as [->| ->]; [do 2 right; left | do 3 right; left].
      * left. exists "KPOINTS". split; [|rewrite append_assoc in Hname; exact Hname].
        rewrite app_assoc. apply elem_of_app. right. left.
  - intros b f data Hb Hctp Hf Hdata.
    pose proof (distinct_not_optional additional b Hdistinct Hb) as Hnot.
    pose proof (renamed_required E gunzip fs (strip_hostname src_dir) src_host additional ext
                  Hext Hclean req Hreq b f data cwd Hb Hnot Hf Hdata) as Hren.
    destruct ctp; [|exact Hren].
    pose proof (Hctp eq_refl) as Hc.
    destruct Hfresh as [_ Hp]. destruct (Hp eq_refl) as [_ Hposcar].
    assert (b <> "POSCAR").
    { intros ->. apply Hposcar. apply elem_of_app in Hb as [Hb|Hb]; [|exact Hb].
      unfold standard_files in Hb.
      repeat (apply elem_of_cons in Hb as [Hb|Hb]; [discriminate|]). inversion Hb. }
    rewrite lookup_insert_ne by congruence. rewrite lookup_delete_ne by congruence.
    exact Hren.
Qed.

(** An empty working directory has nothing in the way. *)
Lemma fresh_empty ext listing additional ctp :
  (ctp = true -> "POSCAR" ∉ additional) ->
  fresh_directory ext listing additional ctp ∅.
Proof.
  intros Hp. split; [intros; apply lookup_empty|].
  intros Hctp. split; [apply lookup_empty | exact (Hp Hctp)].
Qed.

(** X1 on the directory with two relaxations, with CHGCAR as an additional
    file, run in an empty working directory. *)
Lemma clean_files_renamed_witness :
  get_largest_relax_extension (local_calc two_relax_dir) (strip_hostname "/calc") None
    = inr ".relax2" /\
  exists cwd',
    copy_vasp_outputs sample_exns sample_gunzip (local_calc two_relax_dir)
      "/calc" None ["CHGCAR"] true ∅ = (inr tt, cwd') /\
    cwd' !! "INCAR" = Some "gunzip(incar 2)" /\
    cwd' !! "OUTCAR" = Some "outcar 2" /\
    cwd' !! "CHGCAR" = Some "gunzip(chgcar 2)".
Proof.
  assert (Hget : get_largest_relax_extension (local_calc two_relax_dir)
                   (strip_hostname "/calc") None = inr ".relax2")
    by (vm_compute; reflexivity).
  split; [exact Hget|].
  destruct (clean_files_renamed sample_exns sample_gunzip (local_calc two_relax_dir)
              "/calc" None ["CHGCAR"] true ∅ ".relax2" Hget)
    as (req & cwd' & _ & Hrun & _ & Hfiles).
  - unfold present. by_decide.
  - unfold potcar_present, present. by_decide.
  - by_decide.
  - unfold distinct_names. by_decide.
  - apply fresh_empty. intros _. by_decide.
  - exists cwd'. split; [exact Hrun|].
    assert (Hn : forall b, b ∈ ["INCAR"; "OUTCAR"; "CHGCAR"] ->
                 (b ∈ standard_files ++ ["CHGCAR"]) /\ (true = true -> b <> "CONTCAR")).
    { intros b Hb. repeat (apply elem_of_cons in Hb as [->|Hb]);
        [| | |inversion Hb]; (split; [by_decide|]); intros _; discriminate. }
    split; [|split].
    + destruct (Hn "INCAR") as (H1 & H2); [left|].
      exact (Hfiles "INCAR" "INCAR.relax2.gz" "incar 2" H1 H2 eq_refl eq_refl).
    + destruct (Hn "OUTCAR") as (H1 & H2); [right; left|].
      exact (Hfiles "OUTCAR" "OUTCAR.relax2" "outcar 2" H1 H2 eq_refl eq_refl).
    + destruct (Hn "CHGCAR") as (H1 & H2); [right; right; left|].
      exact (Hfiles "CHGCAR" "CHGCAR.relax2.gz" "chgcar 2" H1 H2 eq_refl eq_refl).
Defined.

(** *** Instances and refutations *)

(** C4 on a directory with two relaxations and a gzipped POTCAR, run in an
    empty working directory. *)
Lemma missing_files_and_potcar_witness :
  get_largest_relax_extension (local_calc two_relax_dir) (strip_hostname "/calc") None
    = inr ".relax2" /\
  (copy_vasp_outputs sample_exns sample_gunzip (local_calc two_relax_dir)
     "/calc" None ["CHGCAR"] true ∅).1 = inr tt.
Proof.
  assert (Hget : get_largest_relax_extension (local_calc two_relax_dir)
                   (strip_hostname "/calc") None = inr ".relax2")
    by (vm_compute; reflexivity).
  split; [exact Hget|].
  refine (proj1 (proj2 (proj2 (proj2 (missing_files_and_potcar sample_exns sample_gunzip
                                        (local_calc two_relax_dir) "/calc" None ["CHGCAR"]
                                        true ∅ ".relax2" Hget) _)) _ _ _) _).
  - unfold present. by_decide.
  - by_decide.
  - unfold distinct_names. by_decide.
  - apply fresh_empty. intros _. by_decide.
  - unfold potcar_present, present. by_decide.
Defined.

(** C10 on the same directory: POSCAR is the decompressed CONTCAR.relax2.gz. *)
Lemma contcar_becomes_poscar_witness :
  get_largest_relax_extension (local_calc two_relax_dir) (strip_hostname "/calc") None
    = inr ".relax2" /\
  exists cwd',
    copy_vasp_outputs sample_exns sample_gunzip (local_calc two_relax_dir)
      "/calc" None ["CHGCAR"] true ∅ = (inr tt, cwd') /\
    cwd' !! "POSCAR" = Some "gunzip(contcar 2)" /\ cwd' !! "CONTCAR" = None.
Proof.
  assert (Hget : get_largest_relax_extension (local_calc two_relax_dir)
                   (strip_hostname "/calc") None = inr ".relax2")
    by (vm_compute; reflexivity).
  split; [exact Hget|].
  assert (Hclean : Forall (fun b => clean b = true) ["CHGCAR"]) by by_decide.
  destruct (proj2 (contcar_becomes_poscar sample_exns sample_gunzip
                     (local_calc two_relax_dir) "/calc" None ["CHGCAR"] ∅ ".relax2"
                     Hget Hclean))
    as (req & contcar & data & cwd' & _ & Hc & Hd & Hrun & Hposcar & Hcontcar & _).
  - unfold present. by_decide.
  - unfold potcar_present, present. by_decide.
  - unfold distinct_names. by_decide.
  - apply fresh_empty. intros _. by_decide.
  - vm_compute in Hc. injection Hc as <-. vm_compute in Hd. injection Hd as <-.
    exists cwd'. split; [exact Hrun|]. split; [exact Hposcar | exact Hcontcar].
Defined.

(** C6 on "remote1:/calc" without [src_host]: the files on "remote1" make no
    difference. *)
Lemma source_is_src_host_witness :
  remote1_calc two_relax_dir None (strip_hostname "remote1:/calc")
    = local_calc [] None (strip_hostname "remote1:/calc") /\
  copy_vasp_outputs sample_exns sample_gunzip (remote1_calc two_relax_dir)
    "remote1:/calc" None [] true ∅
  = copy_vasp_outputs sample_exns sample_gunzip (local_calc [])
      "remote1:/calc" None [] true ∅.
Proof.
  assert (H : remote1_calc two_relax_dir None (strip_hostname "remote1:/calc")
              = local_calc [] None (strip_hostname "remote1:/calc")) by reflexivity.
  split; [exact H|].
  exact (source_is_src_host sample_exns sample_gunzip (local_calc [])
           (remote1_calc two_relax_dir) "remote1:/calc" None [] true ∅ H).
Defined.

(** C4 as worded fails.  Whatever [get_zfile] raises for a missing INCAR, it
    raises it in an empty directory and in a directory holding only POTCAR:
    the worded equivalence fails in one of the two. *)
Lemma potcar_iff_as_worded_fails : ~ exists E gunzip, potcar_iff_as_worded E gunzip.
Proof.
  intros (E & gunzip & H).
  assert (Hrun : forall dir,
            dir = [] \/ dir = potcar_only_dir ->
            (copy_vasp_outputs E gunzip (local_calc dir) "/calc" None [] true ∅).1
            = inl (zfile_missing E "INCAR")).
  { intros dir [->| ->]; vm_compute; reflexivity. }
  destruct (proj2 (H (local_calc []) "/calc" None [] true ∅)) as [msg Hmsg].
  { intros [[Hp|Hp]|[Hp|Hp]]; vm_compute in Hp; inversion Hp. }
  rewrite (Hrun [] (or_introl eq_refl)) in Hmsg.
  apply (proj1 (H (local_calc potcar_only_dir) "/calc" None [] true ∅)).
  - exists msg. rewrite (Hrun _ (or_intror eq_refl)). exact Hmsg.
  - left. left. vm_compute. left.
Qed.

(** The same failure on the unhandled [AttributeError]: no POTCAR is listed,
    and what is raised is not [FileNotFoundError]. *)
Example potcar_check_not_reached E gunzip :
  copy_vasp_outputs E gunzip (local_calc only_backup_dir) "/calc" None [] true ∅
  = (inl no_group, ∅).
Proof. apply run_relax_fails. vm_compute. reflexivity. Qed.

(** C6 as worded fails.  With the outputs on "remote1" only, "remote1:/calc"
    is read from the empty local "/calc" and the run stops at the missing
    INCAR, while the run with [src_host] "remote1" completes. *)
Lemma embedded_host_not_honored : ~ exists E gunzip, honors_embedded_host E gunzip.
Proof.
  intros (E & gunzip & H).
  specialize (H (remote1_calc two_relax_dir) "remote1" "/calc" [] true ∅ eq_refl).
  apply (f_equal fst) in H.
  assert (Hl : (copy_vasp_outputs E gunzip (remote1_calc two_relax_dir)
                  ("remote1" +:+ ":" +:+ "/calc") None [] true ∅).1
               = inl (zfile_missing E "INCAR")) by (vm_compute; reflexivity).
  assert (Hr : (copy_vasp_outputs E gunzip (remote1_calc two_relax_dir)
                  "/calc" (Some "remote1") [] true ∅).1 = inr tt)
    by (vm_compute; reflexivity).
  rewrite Hl, Hr in H. discriminate.
Qed.

(** C10 as worded fails.  Asked for through [additional_vasp_files],
    "POSCAR.relax2" is among the copied files. *)
Lemma poscar_copied_on_request : ~ exists E, poscar_never_copied E.
Proof.
  intros (E & H).
  apply (H (local_calc two_relax_dir) "/calc" None ["POSCAR"] ".relax2"
           ["INCAR.relax2.gz"; "OUTCAR.relax2"; "CONTCAR.relax2.gz";
            "vasprun.xml.relax2.gz"; "POSCAR.relax2"] "POSCAR.relax2").
  - vm_compute. reflexivity.
  - vm_compute. reflexivity.
  - apply elem_of_app. left. do 4 right. left.
  - right. right. left.
Qed.

(** C2 on a base name with ".gz" in its middle: the rename step looks for
    "myfile.relax2", finds nothing, and the copied file keeps its relax
    extension. *)
Lemma odd_name_keeps_extension :
  exists cwd',
    copy_vasp_outputs sample_exns sample_gunzip (local_calc odd_name_dir)
      "/calc" None ["my.gzfile"] true ∅ = (inr tt, cwd') /\
    cwd' !! "my.gzfile.relax2" = Some "odd data" /\
    cwd' !! "my.gzfile" = None /\
    cwd' !! "INCAR" = Some "gunzip(incar 2)" /\
    files_to_rename ".relax2" ["my.gzfile.relax2"] = [("myfile.relax2", "myfile")].
Proof.
  eexists. split; [vm_compute; reflexivity|]. vm_compute. repeat split; reflexivity.
Qed.

(** A file in the way of a decompression.  With an INCAR already in the
    working directory and "INCAR.gz" in the source, a [gunzip_files] that
    refuses to decompress over an existing file makes the run raise after the
    copy: the copied files are there, "INCAR.gz" among them, and the old
    INCAR is as it was. *)
Example stale_file_in_the_way :
  exists cwd',
    copy_vasp_outputs sample_exns sample_gunzip (local_calc gz_incar_dir)
      "/calc" None [] true {["INCAR" := "stale"]}
    = (inl (FileExistsError "INCAR file already exists"), cwd') /\
    cwd' !! "INCAR" = Some "stale" /\ cwd' !! "INCAR.gz" = Some "incar" /\
    cwd' !! "CONTCAR" = Some "contcar" /\ cwd' !! "POSCAR" = None.
Proof.
  eexists. split; [vm_compute; reflexivity|]. vm_compute. repeat split; reflexivity.
Qed.

End VaspFileProps.

(** ** More on the largest relax extension *)

Module RelaxExtMore.
Import PyStr PyStrSpec PyStrProps RelaxExt RelaxExtSpec RelaxExtProps RelaxNameSpec.

Lemma append_cancel_l p a b : p +:+ a = p +:+ b -> a = b.
Proof.
  induction p as [|c p IH]; [intros H; exact H|].
  rewrite !append_cons. intros [= H]. exact (IH H).
Qed.

Lemma relax_ext_nonempty M : ".relax" +:+ M <> "".
Proof. change (".relax" +:+ M) with (String "." ("relax" +:+ M)). discriminate. Qed.

(** What the function returns or raises, read off the files that match. *)
Lemma relax_extension_cases fs directory host :
  match get_largest_relax_extension fs directory host with
  | inl e =>
      e = no_group /\
      exists f, f ∈ FileClient.glob fs directory "*.relax*" host /\ re_search_relax f = None
  | inr ext =>
      Forall (fun f => is_Some (re_search_relax f))
             (FileClient.glob fs directory "*.relax*" host) /\
      ((ext = "" /\ FileClient.glob fs directory "*.relax*" host = []) \/
       (exists f M,
          ext = ".relax" +:+ M /\
          f ∈ FileClient.glob fs directory "*.relax*" host /\
          re_search_relax f = Some M /\
          forall g N, g ∈ FileClient.glob fs directory "*.relax*" host ->
                      re_search_relax g = Some N -> int N <= int M))
  end.
Proof.
  rewrite get_largest_relax_extension_unfold.
  destruct (FileClient.glob fs directory "*.relax*" host) as [|f0 files].
  - split; [constructor | left; split; reflexivity].
  - destruct (comprehension number_of (f0 :: files)) as [e|numbers] eqn:Hnum.
    + destruct (comprehension_inl _ _ _ Hnum) as (x & Hx & Hfx).
      apply number_of_inl in Hfx as [-> Hnone]. split; [reflexivity|].
      exists x. split; assumption.
    + destruct (numbers_of_files _ _ Hnum) as [Hfrom Hto].
      pose proof Hnum as Hall. apply comprehension_inr in Hall.
      destruct numbers as [|n numbers]; [inversion Hall|].
      split.
      * apply Forall_forall. intros f Hf.
        destruct (Forall2_elem_l _ _ _ _ Hall Hf) as (N & _ & HN).
        unfold number_of in HN. destruct (re_search_relax f) as [ds|]; [|discriminate].
        eexists. reflexivity.
      * right.
        destruct (Hfrom _ (max_by_int_elem n numbers)) as (f & Hf & HfM).
        exists f, (max_by_int n numbers). repeat split; try assumption.
        intros g N Hg HgN. apply max_by_int_upper. exact (Hto _ _ Hg HgN).
Qed.

Lemma glob_Permutation (fs fs' : filesystem) dir dir' host host' pattern :
  fs host dir ≡ₚ fs' host' dir' ->
  FileClient.glob fs dir pattern host ≡ₚ FileClient.glob fs' dir' pattern host'.
Proof.
  intros H. unfold FileClient.glob, FileClient.listdir. rewrite H. reflexivity.
Qed.

(** X2.  The order in which the directory is listed does not change the
    outcome: two listings of the same entries raise the same exception, or
    both give the empty string, or give extensions whose numbers are equal as
    integers. *)
Theorem relax_extension_listing_order
    (fs fs' : filesystem) dir dir' host host' :
  fs host dir ≡ₚ fs' host' dir' ->
  (forall e, get_largest_relax_extension fs dir host = inl e ->
             get_largest_relax_extension fs' dir' host' = inl e) /\
  (get_largest_relax_extension fs dir host = inr "" ->
   get_largest_relax_extension fs' dir' host' = inr "") /\
  (forall M, get_largest_relax_extension fs dir host = inr (".relax" +:+ M) ->
             exists M', get_largest_relax_extension fs' dir' host' = inr (".relax" +:+ M') /\
                        int M' = int M).
Proof.
  intros Hperm.
  pose proof (glob_Permutation fs fs' dir dir' host host' "*.relax*" Hperm) as Hglob.
  assert (Hmem : forall f, f ∈ FileClient.glob fs dir "*.relax*" host <->
                           f ∈ FileClient.glob fs' dir' "*.relax*" host').
  { intros f. rewrite Hglob. reflexivity. }
  pose proof (relax_extension_cases fs dir host) as H1.
  pose proof (relax_extension_cases fs' dir' host') as H2.
  split; [|split].
  - intros e He. rewrite He in H1. destruct H1 as (-> & f & Hf & Hnone).
    destruct (get_largest_relax_extension fs' dir' host') as [e'|ext'].
    + destruct H2 as [-> _]. reflexivity.
    + destruct H2 as [Hall _]. apply Hmem in Hf.
      pose proof (proj1 (Forall_forall _ _) Hall _ Hf) as [ds Hds]. congruence.
  - intros He. rewrite He in H1. destruct H1 as [_ [[_ Hnil]|(f & M & Hext & _)]].
    + rewrite get_largest_relax_extension_unfold.
      rewrite Hnil in Hglob. apply Permutation_nil_l in Hglob. first [rewrite Hglob | rewrite <- Hglob]. reflexivity.
    + symmetry in Hext. apply relax_ext_nonempty in Hext. contradiction.
  - intros M He. rewrite He in H1. destruct H1 as [Hall [[Hext _]|(f & M0 & Hext & Hf & HfM & Hmax)]].
    { apply relax_ext_nonempty in Hext. contradiction. }
    apply append_cancel_l in Hext. subst M0.
    destruct (get_largest_relax_extension fs' dir' host') as [e'|ext'].
    + destruct H2 as (_ & g & Hg & Hnone). apply Hmem in Hg.
      pose proof (proj1 (Forall_forall _ _) Hall _ Hg) as [ds Hds]. congruence.
    + destruct H2 as [_ [[_ Hnil]|(f' & M' & -> & Hf' & HfM' & Hmax')]].
      * apply Hmem in Hf. rewrite Hnil in Hf. inversion Hf.
      * exists M'. split; [reflexivity|].
        apply Hmem in Hf. apply Hmem in Hf'.
        pose proof (Hmax _ _ Hf' HfM'). pose proof (Hmax' _ _ Hf HfM). lia.
Qed.

(** X2 on a directory and the same directory listed backwards. *)
Lemma relax_extension_listing_order_witness :
  local_calc ten_relax_dir None "/calc" ≡ₚ local_calc (reverse ten_relax_dir) None "/calc" /\
  exists M',
    get_largest_relax_extension (local_calc (reverse ten_relax_dir)) "/calc" None
      = inr (".relax" +:+ M') /\
    int M' = int "10".
Proof.
  assert (H : local_calc ten_relax_dir None "/calc"
              ≡ₚ local_calc (reverse ten_relax_dir) None "/calc").
  { change (ten_relax_dir ≡ₚ reverse ten_relax_dir). symmetry. apply reverse_Permutation. }
  split; [exact H|].
  apply (proj2 (proj2 (relax_extension_listing_order
                         (local_calc ten_relax_dir) (local_calc (reverse ten_relax_dir))
                         "/calc" "/calc" None None H)) "10").
  vm_compute. reflexivity.
Defined.

Lemma max_by_int_stays M l :
  Forall (fun N => int N <= int M) l -> max_by_int M l = M.
Proof.
  induction 1 as [|N l HN _ IH]; [reflexivity|]. cbn [max_by_int].
  destruct (N.ltb_spec (int M) (int N)); [lia | exact IH].
Qed.

Lemma max_by_int_first_max best l1 M l2 :
  int best < int M ->
  Forall (fun N => int N < int M) l1 ->
  Forall (fun N => int N <= int M) l2 ->
  max_by_int best (l1 ++ M :: l2) = M.
Proof.
  intros Hbest H1 H2. revert best Hbest.
  induction H1 as [|N l1 HN _ IH]; intros best Hbest; cbn [app max_by_int].
  - destruct (N.ltb_spec (int best) (int M)); [|lia]. apply max_by_int_stays, H2.
  - destruct (N.ltb_spec (int best) (int N)); apply IH; assumption.
Qed.

Lemma numbers_below (P : N -> Prop) files :
  Forall (fun g => exists N, re_search_relax g = Some N /\ P (int N)) files ->
  exists numbers,
    comprehension number_of files = inr numbers /\ Forall (fun N => P (int N)) numbers.
Proof.
  induction 1 as [|g files (N & Hg & HN) _ (numbers & Hnum & Hall)].
  - exists []. split; [reflexivity | constructor].
  - exists (N :: numbers). split; [|constructor; assumption].
    cbn [comprehension]. unfold number_of at 1. rewrite Hg, Hnum. reflexivity.
Qed.

Lemma comprehension_app {A B} (f : A -> result B) l1 l2 k1 k2 :
  comprehension f l1 = inr k1 -> comprehension f l2 = inr k2 ->
  comprehension f (l1 ++ l2) = inr (k1 ++ k2).
Proof.
  rewrite !comprehension_inr. apply Forall2_app.
Qed.

(** X3.  The digits are returned as the first file with the largest number
    has them: when every matching file before [f] carries a smaller number and
    none after it a larger one, the result is ".relax" followed by the digits
    read from [f], leading zeros included. *)
Theorem first_largest_number_returned fs directory host pre f post M :
  FileClient.glob fs directory "*.relax*" host = pre ++ f :: post ->
  re_search_relax f = Some M ->
  Forall (fun g => exists N, re_search_relax g = Some N /\ int N < int M) pre ->
  Forall (fun g => exists N, re_search_relax g = Some N /\ int N <= int M) post ->
  get_largest_relax_extension fs directory host = inr (".relax" +:+ M).
Proof.
  intros Hglob Hf Hpre Hpost.
  destruct (numbers_below (fun n => n < int M) _ Hpre) as (n1 & Hn1 & Hlt).
  destruct (numbers_below (fun n => n <= int M) _ Hpost) as (n2 & Hn2 & Hle).
  assert (Hnum : comprehension number_of (pre ++ f :: post) = inr (n1 ++ M :: n2)).
  { apply comprehension_app; [exact Hn1|].
    cbn [comprehension]. unfold number_of at 1. rewrite Hf, Hn2. reflexivity. }
  rewrite get_largest_relax_extension_unfold, Hglob.
  destruct (pre ++ f :: post) as [|f0 files] eqn:Hlist.
  { destruct pre; discriminate. }
  rewrite Hnum. destruct n1 as [|n n1]; cbn [app].
  - rewrite (max_by_int_stays _ _ Hle). reflexivity.
  - apply Forall_cons in Hlt as [Hn Hlt].
    rewrite (max_by_int_first_max _ _ _ _ Hn Hlt Hle). reflexivity.
Qed.

(** X3 on "a.relax1", "b.relax02", "c.relax2": the second file decides. *)
Lemma first_largest_number_returned_witness :
  get_largest_relax_extension
    (local_calc [("a.relax1", ""); ("b.relax02", ""); ("c.relax2", "")]) "/calc" None
  = inr ".relax02".
Proof.
  apply (first_largest_number_returned _ "/calc" None ["a.relax1"] "b.relax02" ["c.relax2"] "02").
  - vm_compute. reflexivity.
  - vm_compute. reflexivity.
  - repeat constructor. exists "1". split; [reflexivity | vm_compute; reflexivity].
  - repeat constructor. exists "2". split; [reflexivity | vm_compute; discriminate].
Defined.

Lemma name_of_number p :
  conventional p -> re_search_relax (name_of p) = Some p.1.2.
Proof.
  destruct p as [[base N] rest]. intros (Hbase & HN & Hall & Hrest).
  exact (re_search_relax_suffix base N rest Hbase HN Hall Hrest).
Qed.

(** X4.  For file names in the usual shape (a base without "relax", then
    ".relax", a number, and a rest that does not go on with a digit) the
    function returns ".relax" with the number of one of the files, and that
    number is the largest: the claim of the docstring holds on such
    directories. *)
Theorem conventional_names_largest fs directory host parts :
  FileClient.glob fs directory "*.relax*" host = name_of <$> parts ->
  Forall conventional parts ->
  parts <> [] ->
  exists p,
    p ∈ parts /\
    get_largest_relax_extension fs directory host = inr (".relax" +:+ p.1.2) /\
    forall q, q ∈ parts -> int q.1.2 <= int p.1.2.
Proof.
  intros Hglob Hconv Hne.
  pose proof (relax_extension_cases fs directory host) as Hcases.
  assert (Hnum : forall q, q ∈ parts -> re_search_relax (name_of q) = Some q.1.2).
  { intros q Hq. apply name_of_number. exact (proj1 (Forall_forall _ _) Hconv _ Hq). }
  assert (Hin : forall q, q ∈ parts ->
                  name_of q ∈ FileClient.glob fs directory "*.relax*" host).
  { intros q Hq. rewrite Hglob. apply list_elem_of_fmap. exists q. split; [reflexivity | exact Hq]. }
  destruct (get_largest_relax_extension fs directory host) as [e|ext].
  - destruct Hcases as (_ & f & Hf & Hnone). rewrite Hglob in Hf.
    apply list_elem_of_fmap in Hf as (q & -> & Hq). rewrite (Hnum _ Hq) in Hnone. discriminate.
  - destruct Hcases as [_ [[_ Hnil]|(f & M & -> & Hf & HfM & Hmax)]].
    + rewrite Hglob in Hnil. apply fmap_nil_inv in Hnil. contradiction.
    + rewrite Hglob in Hf. apply list_elem_of_fmap in Hf as (p & -> & Hp).
      rewrite (Hnum _ Hp) in HfM. injection HfM as <-.
      exists p. split; [exact Hp|]. split; [reflexivity|].
      intros q Hq. exact (Hmax _ _ (Hin _ Hq) (Hnum _ Hq)).
Qed.

(** X4 on the directory with relaxations 9, 10 and 2. *)
Lemma conventional_names_largest_witness :
  exists p,
    p ∈ [("vasprun.xml", "9", ".gz"); ("vasprun.xml", "10", ".gz"); ("OUTCAR", "2", "")] /\
    get_largest_relax_extension (local_calc ten_relax_dir) "/calc" None
      = inr (".relax" +:+ p.1.2) /\
    forall q,
      q ∈ [("vasprun.xml", "9", ".gz"); ("vasprun.xml", "10", ".gz"); ("OUTCAR", "2", "")] ->
      int q.1.2 <= int p.1.2.
Proof.
  apply (conventional_names_largest (local_calc ten_relax_dir) "/calc" None).
  - vm_compute. reflexivity.
  - repeat constructor; discriminate.
  - discriminate.
Defined.

End RelaxExtMore.

(** ** More on copying VASP outputs *)

Module VaspFileMore.
Import PyStr PyStrSpec PyStrProps CommonFile VaspFile RelaxExt RelaxExtSpec RelaxExtProps.
Import NameSpec NameProps MoveSpec MoveProps DictProps VaspFileSpec VaspFileProps.
Import RelaxExtMore TransferSpec.

(** *** What a failed selection leaves behind *)

(** X5.  The working directory is touched only after the whole selection
    has succeeded: if a run leaves it different from what it was, then the
    relax extension was found, every required file was found, a POTCAR-type
    file is listed, and the run is the copying of lines 74-97 on the selected
    files.  So a run that fails to find the relax number, a required file or
    a POTCAR leaves the directory as it was, whatever the helpers do. *)
Theorem directory_changed_after_selection
    E gunzip fs src_dir src_host additional ctp cwd :
  (copy_vasp_outputs E gunzip fs src_dir src_host additional ctp cwd).2 <> cwd ->
  exists ext req,
    get_largest_relax_extension fs (strip_hostname src_dir) src_host = inr ext /\
    required_files E (FileClient.listdir fs (strip_hostname src_dir) src_host) ext additional
      = inr req /\
    Forall (fun b => present (FileClient.listdir fs (strip_hostname src_dir) src_host)
                             (b +:+ ext)) (standard_files ++ additional) /\
    potcar_present (FileClient.listdir fs (strip_hostname src_dir) src_host) /\
    copy_vasp_outputs E gunzip fs src_dir src_host additional ctp cwd
    = transfer E gunzip fs (strip_hostname src_dir) src_host ext req
        (optional_files (FileClient.listdir fs (strip_hostname src_dir) src_host) ext)
        ctp cwd.
Proof.
  rewrite copy_vasp_outputs_unfold.
  destruct (get_largest_relax_extension fs (strip_hostname src_dir) src_host)
    as [e0|ext] eqn:Hget.
  { intros H. contradiction H. reflexivity. }
  pose proof (relax_extension_shaped _ _ _ _ Hget) as Hext. cbv zeta.
  destruct (required_files E (FileClient.listdir fs (strip_hostname src_dir) src_host)
              ext additional) as [e0|req] eqn:Hreq.
  { intros H. contradiction H. reflexivity. }
  destruct (length _ =? 0)%nat eqn:Hcheck.
  { intros H. contradiction H. reflexivity. }
  intros _. exists ext, req. split; [reflexivity|]. split; [exact Hreq|].
  split; [exact (required_files_present _ _ _ _ _ Hreq)|]. split; [|reflexivity].
  assert (Hdec : Decision
                   (potcar_present (FileClient.listdir fs (strip_hostname src_dir) src_host)))
    by (unfold potcar_present, present; apply _).
  destruct Hdec as [Hpot|Hno]; [exact Hpot|].
  apply (potcar_check _ _ Hext) in Hno. congruence.
Qed.

(** X5 on the directory with two relaxations: the run changes the empty
    working directory. *)
Lemma directory_changed_after_selection_witness :
  exists ext req,
    get_largest_relax_extension (local_calc two_relax_dir) (strip_hostname "/calc") None
      = inr ext /\
    required_files sample_exns
      (FileClient.listdir (local_calc two_relax_dir) (strip_hostname "/calc") None)
      ext ["CHGCAR"] = inr req /\
    potcar_present
      (FileClient.listdir (local_calc two_relax_dir) (strip_hostname "/calc") None).
Proof.
  destruct (directory_changed_after_selection sample_exns sample_gunzip
              (local_calc two_relax_dir) "/calc" None ["CHGCAR"] true ∅)
    as (ext & req & Hget & Hreq & _ & Hpot & _).
  - intros H. apply (f_equal (fun m : gmap string string => m !! "INCAR")) in H.
    vm_compute in H. discriminate.
  - exists ext, req. split; [exact Hget|]. split; [exact Hreq | exact Hpot].
Defined.

(** *** The files the run does not name *)

Lemma seq_frame (m1 m2 : ST (gmap string string) unit) k :
  (forall s, (m1 s).2 !! k = s !! k) -> (forall s, (m2 s).2 !! k = s !! k) ->
  forall s, ((m1 ;; m2) s).2 !! k = s !! k.
Proof.
  intros H1 H2 s. unfold mbind, st_bind. specialize (H1 s).
  destruct (m1 s) as [[e|[]] s']; cbn [snd] in *; [exact H1|].
  rewrite H2. exact H1.
Qed.

Lemma for_each_frame {A} (body : A -> ST (gmap string string) unit) l k :
  (forall x s, x ∈ l -> (body x s).2 !! k = s !! k) ->
  forall s, (for_each body l s).2 !! k = s !! k.
Proof.
  induction l as [|x l IH]; intros H s; [reflexivity|].
  cbn [for_each]. apply seq_frame.
  - intros s'. apply H. left.
  - apply IH. intros y s' Hy. apply H. right. exact Hy.
Qed.

Lemma copy_files_frame E fs dir host files k :
  k ∉ files -> forall s, (copy_files E fs dir host files s).2 !! k = s !! k.
Proof.
  intros Hk. unfold copy_files. apply for_each_frame. intros f s Hf.
  destruct (lookup_entry (fs host dir) f); [|reflexivity].
  cbn. apply lookup_insert_ne. intros ->. contradiction.
Qed.

Lemma gunzip_files_frame E gunzip files allow_missing k :
  (forall f, f ∈ files -> k <> f /\ k <> strip_gz f) ->
  forall s, (gunzip_files E gunzip files allow_missing s).2 !! k = s !! k.
Proof.
  intros Hk. unfold gunzip_files. apply for_each_frame. intros f s Hf.
  destruct (Hk f Hf) as [H1 H2].
  destruct (endswith ".gz" f); [|reflexivity].
  destruct (s !! strip_gz f), (gunzip_exists E (strip_gz f)), (s !! f), allow_missing;
    cbn [snd]; try reflexivity;
    rewrite lookup_insert_ne, lookup_delete_ne by congruence; reflexivity.
Qed.

Lemma rename_files_frame E moves allow_missing k :
  Forall (apart k) moves ->
  forall s, (rename_files E moves allow_missing s).2 !! k = s !! k.
Proof.
  intros Hk. unfold rename_files. apply for_each_frame. intros [o n] s Hop.
  destruct (proj1 (Forall_forall _ _) Hk _ Hop) as [H1 H2]. cbn [fst snd] in H1, H2.
  destruct (s !! o), allow_missing; cbn [snd]; try reflexivity;
    rewrite lookup_insert_ne, lookup_delete_ne by congruence; reflexivity.
Qed.

Lemma selected_listed E listing ext additional req f :
  required_files E listing ext additional = inr req ->
  f ∈ req ++ optional_files listing ext -> f ∈ listing.
Proof.
  intros Hreq [Hf|Hf]%elem_of_app.
  - destruct (required_files_elem _ _ _ _ _ _ Hreq Hf) as (b & _ & Hg).
    exact (proj1 (get_zfile_inr _ _ _ _ Hg)).
  - destruct (optional_files_elem _ _ _ Hf) as (_ & _ & Hin & _). exact Hin.
Qed.

(** The copying of lines 74-97 leaves alone what it does not name, whether
    it completes or raises on the way. *)
Lemma transfer_frame E gunzip fs dir host ext req opt ctp k :
  (forall f, f ∈ req ++ opt -> k ∉ derived_names ext f) ->
  (ctp = true -> k <> "CONTCAR" /\ k <> "POSCAR") ->
  forall s, (transfer E gunzip fs dir host ext req opt ctp s).2 !! k = s !! k.
Proof.
  intros Hk Hctp.
  assert (Hnames : forall f, f ∈ req ++ opt ->
             k <> f /\ k <> strip_gz f /\ k <> replace ".gz" "" f /\
             k <> replace ".gz" "" (replace ext "" f)).
  { intros f Hf. specialize (Hk f Hf). unfold derived_names in Hk.
    repeat split; intros ->; apply Hk; repeat first [left | right]. }
  unfold transfer. apply seq_frame; [|apply seq_frame; [|apply seq_frame]].
  - apply copy_files_frame. intros Hin. destruct (Hnames k Hin) as [H _]. congruence.
  - apply gunzip_files_frame. intros f Hf. destruct (Hnames f Hf) as (H1 & H2 & _).
    split; assumption.
  - destruct (negb (String.eqb ext "")); [|reflexivity].
    apply rename_files_frame. apply Forall_forall. intros [o n] Hop.
    apply dict_comprehension_elem in Hop as (f & Hf & -> & ->).
    destruct (Hnames f) as (_ & _ & H3 & H4).
    { apply elem_of_app. apply elem_of_app in Hf. tauto. }
    split; cbn [fst snd]; congruence.
  - destruct ctp; [|reflexivity]. destruct (Hctp eq_refl) as [Hc Hp].
    apply rename_files_frame. repeat constructor; cbn [fst snd]; congruence.
Qed.

(** X6.  A file of the working directory whose name is none of the names
    the run derives from the listed files (the name itself, the name without
    its last three characters, without ".gz", without the relax extension),
    and is neither CONTCAR nor POSCAR when CONTCAR is moved, is left as it
    was, whether the run completes or raises. *)
Theorem unrelated_files_untouched
    E gunzip fs src_dir src_host additional ctp cwd k :
  (forall ext f,
     get_largest_relax_extension fs (strip_hostname src_dir) src_host = inr ext ->
     f ∈ FileClient.listdir fs (strip_hostname src_dir) src_host ->
     k ∉ derived_names ext f) ->
  (ctp = true -> k <> "CONTCAR" /\ k <> "POSCAR") ->
  (copy_vasp_outputs E gunzip fs src_dir src_host additional ctp cwd).2 !! k = cwd !! k.
Proof.
  intros Hk Hctp. rewrite copy_vasp_outputs_unfold.
  destruct (get_largest_relax_extension fs (strip_hostname src_dir) src_host)
    as [e0|ext] eqn:Hget; [reflexivity|]. cbv zeta.
  destruct (required_files E (FileClient.listdir fs (strip_hostname src_dir) src_host)
              ext additional) as [e0|req] eqn:Hreq; [reflexivity|].
  destruct (length _ =? 0)%nat; [reflexivity|].
  apply transfer_frame; [|exact Hctp].
  intros f Hf. apply (Hk ext f eq_refl).
  exact (selected_listed _ _ _ _ _ _ Hreq Hf).
Qed.

(** X6 on the directory with two relaxations: a submission script and a
    stale file stay. *)
Lemma unrelated_files_untouched_witness :
  (copy_vasp_outputs sample_exns sample_gunzip (local_calc two_relax_dir)
     "/calc" None ["CHGCAR"] true
     (<["job.sh" := "run"]> {["INCAR" := "stale"]})).2 !! "job.sh"
  = Some "run".
Proof.
  refine (unrelated_files_untouched sample_exns sample_gunzip (local_calc two_relax_dir)
            "/calc" None ["CHGCAR"] true _ "job.sh" _ _).
  - intros ext f Hget. vm_compute in Hget. injection Hget as <-.
    revert f. apply (proj1 (Forall_forall _ _)). by_decide.
  - intros _. split; discriminate.
Defined.

End VaspFileMore.

(** ** The names the copied files end under *)

Module VaspFileNames.
Import PyStr PyStrSpec PyStrProps CommonFile VaspFile RelaxExt RelaxExtSpec RelaxExtProps.
Import NameSpec NameProps MoveSpec MoveProps DictProps VaspFileSpec VaspFileProps.
Import TransferSpec.

(** *** The optional files *)

Lemma optional_bases_names ext b e :
  (b, e) ∈ optional_bases ext ->
  b +:+ e ∈ ["POTCAR"; "POTCAR.spec"; "KPOINTS" +:+ ext] /\
  b ∈ ["POTCAR"; "POTCAR.spec"; "KPOINTS"] /\ clean b = true /\ (e = "" \/ e = ext).
Proof.
  unfold optional_bases. intros H.
  repeat (apply elem_of_cons in H as [[= -> ->]|H]); [| | |inversion H].
  - split; [left|]. split; [left|]. split; [reflexivity | left; reflexivity].
  - split; [right; left|]. split; [right; left|]. split; [reflexivity | left; reflexivity].
  - split; [right; right; left|]. split; [right; right; left|].
    split; [reflexivity | right; reflexivity].
Qed.

(** An optional file that was found: its key is its base name. *)
Lemma optional_found listing ext b e f :
  relax_shaped ext -> (b, e) ∈ optional_bases ext ->
  get_zfile_allow_missing listing (b +:+ e) = Some f ->
  f ∈ optional_files listing ext /\ key_of ext f = b.
Proof.
  intros Hext Hbe Hfind.
  destruct (optional_bases_names _ _ _ Hbe) as (Hname & _ & Hcb & He). split.
  - unfold optional_files. apply list_elem_of_omap. exists (b +:+ e).
    split; [exact Hname | exact Hfind].
  - apply find_zfile_Some in Hfind as [_ [->| ->]].
    + rewrite <- (append_nil_r e).
      apply (key_of_named ext b Hext Hcb e ""); [exact He | left; reflexivity].
    + rewrite append_assoc.
      apply (key_of_named ext b Hext Hcb e ".gz"); [exact He | right; reflexivity].
Qed.

(** X7.  For additional names free of ".gz" and ".relax" that are distinct
    from one another and from the standard and optional names, and a working
    directory that holds none of the names the run writes: a run that finds
    its files delivers the optional ones too: a POTCAR or POTCAR.spec of the
    source (looked up without the relax extension) and a KPOINTS carrying the
    relax extension end in the working directory under "POTCAR",
    "POTCAR.spec" and "KPOINTS", decompressed if they were gzipped. *)
Theorem optional_files_delivered
    E gunzip fs src_dir src_host additional ctp cwd ext :
  get_largest_relax_extension fs (strip_hostname src_dir) src_host = inr ext ->
  Forall (fun b => present (FileClient.listdir fs (strip_hostname src_dir) src_host)
                           (b +:+ ext)) (standard_files ++ additional) ->
  potcar_present (FileClient.listdir fs (strip_hostname src_dir) src_host) ->
  Forall (fun b => clean b = true) additional ->
  distinct_names additional ->
  fresh_directory ext (FileClient.listdir fs (strip_hostname src_dir) src_host)
    additional ctp cwd ->
  exists cwd',
    copy_vasp_outputs E gunzip fs src_dir src_host additional ctp cwd = (inr tt, cwd') /\
    forall b e f data,
      (b, e) ∈ optional_bases ext ->
      get_zfile_allow_missing (FileClient.listdir fs (strip_hostname src_dir) src_host)
        (b +:+ e) = Some f ->
      lookup_entry (fs src_host (strip_hostname src_dir)) f = Some data ->
      cwd' !! b = Some (if endswith ".gz" f then gunzip data else data).
Proof.
  intros Hget Hall Hpot Hclean Hdistinct Hfresh.
  pose proof (relax_extension_shaped _ _ _ _ Hget) as Hext.
  destruct (run_succeeds E gunzip fs src_dir src_host additional ctp cwd ext
              Hget Hall Hpot Hclean Hdistinct Hfresh)
    as (req & contcar & cdata & Hreq & _ & _ & Hrun).
  eexists. split; [exact Hrun|].
  intros b e f data Hbe Hfind Hdata.
  set (listing := FileClient.listdir fs (strip_hostname src_dir) src_host) in *.
  destruct (optional_found listing ext b e f Hext Hbe Hfind) as [Hfopt Hkey].
  destruct (optional_bases_names _ _ _ Hbe) as (_ & Hb & _ & _).
  destruct (selected_items E listing ext additional Hext Hclean req Hreq) as [Hitems _].
  assert (Hsel : f ∈ req ++ optional_files listing ext)
    by (apply elem_of_app; right; exact Hfopt).
  assert (Hren : renamed gunzip fs (strip_hostname src_dir) src_host ext req cwd !! b
                 = Some (if endswith ".gz" f then gunzip data else data)).
  { rewrite <- Hkey. unfold renamed. fold listing.
    apply (tracked ext Hext gunzip (fs src_host (strip_hostname src_dir))
             (req ++ optional_files listing ext) (optional_files listing ext ++ req) Hitems).
    - intros g. rewrite !elem_of_app. tauto.
    - exact Hsel.
    - exact Hdata.
    - intros g Hg Hgkey.
      exact (selected_unique E listing ext additional Hext Hclean req Hreq Hdistinct
               g f Hg Hsel Hgkey). }
  destruct ctp; [|exact Hren].
  assert (b <> "POSCAR" /\ b <> "CONTCAR") as [Hp Hc].
  { repeat (apply elem_of_cons in Hb as [->|Hb]); [| | |inversion Hb]; split; discriminate. }
  rewrite lookup_insert_ne by congruence. rewrite lookup_delete_ne by congruence.
  exact Hren.
Qed.

(** X7 on the directory with two relaxations: POTCAR.gz and KPOINTS.relax2. *)
Lemma optional_files_delivered_witness :
  get_largest_relax_extension (local_calc two_relax_dir) (strip_hostname "/calc") None
    = inr ".relax2" /\
  exists cwd',
    copy_vasp_outputs sample_exns sample_gunzip (local_calc two_relax_dir)
      "/calc" None ["CHGCAR"] true ∅ = (inr tt, cwd') /\
    cwd' !! "POTCAR" = Some "gunzip(potcar)" /\
    cwd' !! "KPOINTS" = Some "kpoints 2".
Proof.
  assert (Hget : get_largest_relax_extension (local_calc two_relax_dir)
                   (strip_hostname "/calc") None = inr ".relax2")
    by (vm_compute; reflexivity).
  split; [exact Hget|].
  destruct (optional_files_delivered sample_exns sample_gunzip (local_calc two_relax_dir)
              "/calc" None ["CHGCAR"] true ∅ ".relax2" Hget)
    as (cwd' & Hrun & Hfiles).
  - unfold present. by_decide.
  - unfold potcar_present, present. by_decide.
  - by_decide.
  - unfold distinct_names. by_decide.
  - apply fresh_empty. intros _. by_decide.
  - exists cwd'. split; [exact Hrun|]. split.
    + apply (Hfiles "POTCAR" "" "POTCAR.gz" "potcar"); [left | reflexivity | reflexivity].
    + apply (Hfiles "KPOINTS" ".relax2" "KPOINTS.relax2" "kpoints 2");
        [right; right; left | reflexivity | reflexivity].
Defined.

(** *** The names that are given up *)

Section Leftover.

Variable ext : string.
Hypothesis Hext : relax_shaped ext.
Variables (gunzip : string -> string) (dir : list (string * string)).
Variables (files all_files : list string).
Hypothesis Hitems : Forall (item ext) files.
Hypothesis Hsame : forall f, f ∈ all_files <-> f ∈ files.
Variables (n0 data0 : string).
Hypothesis Hn0 : n0 ∈ files.
Hypothesis Hdata0 : lookup_entry dir n0 = Some data0.
Hypothesis Hunique : forall f, f ∈ files -> key_of ext f = key_of ext n0 -> f = n0.

Lemma rename_moves op :
  ext <> "" -> op ∈ files_to_rename ext all_files ->
  exists f, f ∈ files /\ op = (replace ".gz" "" f, key_of ext f).
Proof.
  intros Hne. destruct op as [k v]. intros Hop.
  apply dict_comprehension_elem in Hop as (f & Hf & -> & ->).
  exists f. split; [apply Hsame, Hf|]. rewrite (key_of_target _ _ Hne). reflexivity.
Qed.

Lemma other_file_apart f :
  f ∈ files -> f <> n0 -> key_of ext f <> key_of ext n0.
Proof. intros Hf Hfn Hk. exact (Hfn (Hunique _ Hf Hk)). Qed.

Lemma gz_key_differs f : item ext f -> endswith ".gz" f = true -> key_of ext f <> f.
Proof.
  intros (b & e & z & Hb & He & Hz & ->) Hgz.
  rewrite (key_of_named ext b Hext Hb e z He Hz).
  destruct Hz as [->| ->].
  - rewrite append_nil_r, (not_gz_named ext b Hext Hb e He) in Hgz. discriminate.
  - intros Heq. apply (f_equal String.length) in Heq.
    rewrite !length_append in Heq. cbn [String.length] in Heq. lia.
Qed.

(** A gzipped file is gone from its own name after decompression, and the
    renaming does not bring it back. *)
Lemma gz_name_removed m :
  endswith ".gz" n0 = true ->
  foldl (mv id)
        (foldl (mv gunzip) (foldl (copy_step dir) m files) (gz_moves files))
        (if negb (String.eqb ext "") then files_to_rename ext all_files else [])
  !! n0 = None.
Proof.
  intros Hgz.
  pose proof (item_n0 ext files Hitems n0 Hn0) as Hitem0.
  destruct (item_gz ext Hext _ Hitem0 Hgz) as [Hstrip Hneq].
  pose proof (copy_fold_lookup dir files m n0 data0 Hdata0 (or_introl Hn0)) as Hcopied.
  assert (H2 : foldl (mv gunzip) (foldl (copy_step dir) m files) (gz_moves files) !! n0
               = None).
  { apply (fold_mv_track gunzip (gz_moves files) _ n0 (strip_gz n0) data0);
      [congruence | exact Hcopied | |].
    - unfold gz_moves. apply list_elem_of_omap. exists n0. rewrite Hgz.
      split; [exact Hn0 | reflexivity].
    - apply Forall_forall. intros op Hop.
      apply gz_moves_elem in Hop as (f & Hf & Hfgz & ->).
      destruct (decide (f = n0)) as [->|Hfn]; [left; reflexivity|]. right.
      pose proof (proj1 (Forall_forall _ _) Hitems _ Hf) as Hitem.
      pose proof (other_file_apart f Hf Hfn) as Hkey.
      destruct (item_gz ext Hext _ Hitem Hfgz) as [Hfs _]. rewrite Hfs, Hstrip.
      unfold apart; cbn [fst snd]. repeat split;
        apply (other_key_apart ext Hext files Hitems n0 Hn0 f _ _ Hitem Hkey); auto. }
  destruct (String.eqb_spec ext "") as [Heq|Hne]; cbn [negb]; [exact H2|].
  rewrite fold_mv_apart; [exact H2|].
  apply Forall_forall. intros op Hop.
  destruct (rename_moves op Hne Hop) as (f & Hf & ->).
  unfold apart; cbn [fst snd].
  destruct (decide (f = n0)) as [->|Hfn].
  - split; [rewrite <- Hstrip; exact Hneq | apply gz_key_differs; assumption].
  - pose proof (proj1 (Forall_forall _ _) Hitems _ Hf) as Hitem.
    pose proof (other_file_apart f Hf Hfn) as Hkey.
    split; apply (other_key_apart ext Hext files Hitems n0 Hn0 f _ _ Hitem Hkey); auto.
Qed.

(** The name without ".gz" is given up when the relax extension is taken
    off it. *)
Lemma stem_removed m :
  ext <> "" -> replace ".gz" "" n0 <> key_of ext n0 ->
  foldl (mv id)
        (foldl (mv gunzip) (foldl (copy_step dir) m files) (gz_moves files))
        (if negb (String.eqb ext "") then files_to_rename ext all_files else [])
  !! replace ".gz" "" n0 = None.
Proof.
  intros Hne Hneq.
  pose proof (item_n0 ext files Hitems n0 Hn0) as Hitem0.
  pose proof (after_gunzip ext Hext gunzip dir files Hitems n0 data0 Hn0 Hdata0 Hunique m)
    as H2.
  destruct (String.eqb_spec ext "") as [Heq|_]; [contradiction|]. cbn [negb].
  refine (proj2 (fold_mv_track id (files_to_rename ext all_files) _
                   (replace ".gz" "" n0) (key_of ext n0) _ Hneq H2 _ _)).
  - destruct (dict_comprehension_key (fun k => replace ".gz" "" k)
                (fun k => replace ".gz" "" (replace ext "" k)) all_files n0) as [v Hv];
      [apply Hsame, Hn0|].
    fold (files_to_rename ext all_files) in Hv.
    destruct (rename_moves _ Hne Hv) as (f & Hf & Hfv). injection Hfv as Hstem ->.
    assert (f = n0) as ->; [|exact Hv].
    apply (Hunique _ Hf).
    rewrite <- (item_stem ext Hext f (proj1 (Forall_forall _ _) Hitems _ Hf)).
    rewrite <- (item_stem ext Hext n0 Hitem0). f_equal. symmetry. exact Hstem.
  - apply Forall_forall. intros op Hop. destruct (rename_moves op Hne Hop) as (f & Hf & ->).
    destruct (decide (f = n0)) as [->|Hfn]; [left; reflexivity|]. right.
    pose proof (proj1 (Forall_forall _ _) Hitems _ Hf) as Hitem.
    pose proof (other_file_apart f Hf Hfn) as Hkey.
    unfold apart; cbn [fst snd]. repeat split;
      apply (other_key_apart ext Hext files Hitems n0 Hn0 f _ _ Hitem Hkey); auto.
Qed.

End Leftover.

(** X8.  For additional names free of ".gz" and ".relax" that are distinct
    from one another and from the standard and optional names, and a working
    directory that holds none of the names the run writes: the completed run
    leaves no required file under a name of the source: the name the file was
    copied under is gone unless it is the base name itself, and so is the
    base name with the relax extension. *)
Theorem source_names_given_up
    E gunzip fs src_dir src_host additional ctp cwd ext :
  get_largest_relax_extension fs (strip_hostname src_dir) src_host = inr ext ->
  Forall (fun b => present (FileClient.listdir fs (strip_hostname src_dir) src_host)
                           (b +:+ ext)) (standard_files ++ additional) ->
  potcar_present (FileClient.listdir fs (strip_hostname src_dir) src_host) ->
  Forall (fun b => clean b = true) additional ->
  distinct_names additional ->
  fresh_directory ext (FileClient.listdir fs (strip_hostname src_dir) src_host)
    additional ctp cwd ->
  exists cwd',
    copy_vasp_outputs E gunzip fs src_dir src_host additional ctp cwd = (inr tt, cwd') /\
    forall b f,
      b ∈ standard_files ++ additional ->
      get_zfile E (FileClient.listdir fs (strip_hostname src_dir) src_host) (b +:+ ext)
        = inr f ->
      (f <> b -> cwd' !! f = None) /\
      (ext <> "" -> cwd' !! (b +:+ ext) = None).
Proof.
  intros Hget Hall Hpot Hclean Hdistinct Hfresh.
  pose proof (relax_extension_shaped _ _ _ _ Hget) as Hext.
  destruct (run_succeeds E gunzip fs src_dir src_host additional ctp cwd ext
              Hget Hall Hpot Hclean Hdistinct Hfresh)
    as (req & contcar & cdata & Hreq & _ & _ & Hrun).
  eexists. split; [exact Hrun|].
  intros b f Hb Hf.
  set (listing := FileClient.listdir fs (strip_hostname src_dir) src_host) in *.
  destruct (selected_items E listing ext additional Hext Hclean req Hreq) as [Hitems Hlisted].
  destruct (required_item E listing ext additional Hext Hclean b f Hb Hf)
    as (Hin & Hitem & Hkey).
  destruct (required_files_of _ _ _ _ _ _ Hreq Hb) as (f' & Hf' & Hg).
  assert (f' = f) as -> by congruence.
  assert (Hsel : f ∈ req ++ optional_files listing ext) by (apply elem_of_app; left; exact Hf').
  destruct (lookup_entry_listed _ _ Hin) as [data Hdata].
  assert (Hunique : forall g, g ∈ req ++ optional_files listing ext ->
                              key_of ext g = key_of ext f -> g = f).
  { intros g Hgsel Hgkey.
    exact (selected_unique E listing ext additional Hext Hclean req Hreq Hdistinct
             g f Hgsel Hsel Hgkey). }
  assert (Hsame : forall g, g ∈ optional_files listing ext ++ req <->
                            g ∈ req ++ optional_files listing ext).
  { intros g. rewrite !elem_of_app. tauto. }
  assert (Hcb : clean b = true)
    by exact (clean_required additional Hclean b Hb).
  assert (Hshape : exists z, (z = "" \/ z = ".gz") /\ f = b +:+ ext +:+ z).
  { apply get_zfile_inr in Hf as [_ [->| ->]].
    - exists "". split; [left; reflexivity | rewrite append_nil_r; reflexivity].
    - exists ".gz". split; [right; reflexivity | apply append_assoc]. }
  destruct Hshape as (z & Hz & Hname).
  assert (Hstem : replace ".gz" "" f = b +:+ ext).
  { rewrite Hname. apply (stem_named ext b Hext Hcb ext z); [right; reflexivity | exact Hz]. }
  assert (Hstem_gone : ext <> "" ->
            renamed gunzip fs (strip_hostname src_dir) src_host ext req cwd !! (b +:+ ext)
            = None).
  { intros Hne. rewrite <- Hstem. unfold renamed. fold listing.
    apply (stem_removed ext Hext gunzip (fs src_host (strip_hostname src_dir))
             (req ++ optional_files listing ext) (optional_files listing ext ++ req)
             Hitems Hsame f data Hsel Hdata Hunique cwd Hne).
    rewrite Hstem, Hkey. intros Heq. apply (f_equal String.length) in Heq.
    rewrite length_append in Heq. destruct ext; [contradiction Hne; reflexivity|].
    cbn [String.length] in Heq. lia. }
  assert (Hf_gone : f <> b ->
            renamed gunzip fs (strip_hostname src_dir) src_host ext req cwd !! f = None).
  { intros Hfb. destruct (endswith ".gz" f) eqn:Hgz.
    - unfold renamed. fold listing.
      exact (gz_name_removed ext Hext gunzip (fs src_host (strip_hostname src_dir))
               (req ++ optional_files listing ext) (optional_files listing ext ++ req)
               Hitems Hsame f data Hsel Hdata Hunique cwd Hgz).
    - rewrite <- (item_plain ext Hext f Hitem Hgz), Hstem. apply Hstem_gone.
      intros Hee. apply Hfb. rewrite <- (item_plain ext Hext f Hitem Hgz), Hstem, Hee.
      apply append_nil_r. }
  assert (Hposcar : forall n, key_of ext n = b -> n <> b -> n <> "POSCAR").
  { intros n Hn Hnb ->. apply Hnb. rewrite <- Hn. symmetry.
    apply (key_of_named ext "POSCAR" Hext eq_refl "" ""); left; reflexivity. }
  assert (Hfinal : forall n, n <> "POSCAR" ->
            renamed gunzip fs (strip_hostname src_dir) src_host ext req cwd !! n = None ->
            (if ctp
             then <["POSCAR" := if endswith ".gz" contcar then gunzip cdata else cdata]>
                    (delete "CONTCAR"
                       (renamed gunzip fs (strip_hostname src_dir) src_host ext req cwd))
             else renamed gunzip fs (strip_hostname src_dir) src_host ext req cwd) !! n
            = None).
  { intros n Hn Hnone. destruct ctp; [|exact Hnone].
    rewrite lookup_insert_ne by congruence.
    apply lookup_delete_None. right. exact Hnone. }
  split.
  - intros Hfb. apply Hfinal; [exact (Hposcar f Hkey Hfb) | exact (Hf_gone Hfb)].
  - intros Hne. apply Hfinal; [|exact (Hstem_gone Hne)].
    apply Hposcar.
    + rewrite <- (append_nil_r (b +:+ ext)), append_assoc.
      apply (key_of_named ext b Hext Hcb ext ""); [right | left]; reflexivity.
    + intros Heq. apply (f_equal String.length) in Heq.
      rewrite length_append in Heq. destruct ext; [contradiction Hne; reflexivity|].
      cbn [String.length] in Heq. lia.
Qed.

(** X8 on the directory with two relaxations: neither "INCAR.relax2.gz" nor
    "INCAR.relax2" is left. *)
Lemma source_names_given_up_witness :
  get_largest_relax_extension (local_calc two_relax_dir) (strip_hostname "/calc") None
    = inr ".relax2" /\
  exists cwd',
    copy_vasp_outputs sample_exns sample_gunzip (local_calc two_relax_dir)
      "/calc" None ["CHGCAR"] true ∅ = (inr tt, cwd') /\
    cwd' !! "INCAR.relax2.gz" = None /\ cwd' !! "INCAR.relax2" = None.
Proof.
  assert (Hget : get_largest_relax_extension (local_calc two_relax_dir)
                   (strip_hostname "/calc") None = inr ".relax2")
    by (vm_compute; reflexivity).
  split; [exact Hget|].
  destruct (source_names_given_up sample_exns sample_gunzip (local_calc two_relax_dir)
              "/calc" None ["CHGCAR"] true ∅ ".relax2" Hget)
    as (cwd' & Hrun & Hfiles).
  - unfold present. by_decide.
  - unfold potcar_present, present. by_decide.
  - by_decide.
  - unfold distinct_names. by_decide.
  - apply fresh_empty. intros _. by_decide.
  - exists cwd'. split; [exact Hrun|].
    destruct (Hfiles "INCAR" "INCAR.relax2.gz") as [H1 H2]; [by_decide | reflexivity |].
    split; [apply H1; discriminate | apply H2; discriminate].
Defined.

End VaspFileNames.

(** ** More on writing an input set *)

Module InputSetMore.
Import PyStr PyStrProps InputSet InputSetSpec InputSetProps.

Lemma rsplit1_join sep a b :
  contains (String sep "") b = false -> rsplit1 sep (a +:+ String sep b) = Some (a, b).
Proof.
  intros Hb. induction a as [|c a IH].
  - rewrite append_nil_l. cbn [rsplit1].
    rewrite (proj2 (rsplit1_None sep b) Hb), Ascii.eqb_refl. reflexivity.
  - rewrite append_cons. cbn [rsplit1]. rewrite IH. reflexivity.
Qed.

Lemma resolve_join module cls :
  contains "." cls = false -> resolve (module +:+ "." +:+ cls) = inr (module, cls).
Proof.
  intros Hcls. unfold resolve, rsplit_dot.
  assert (contains "." (module +:+ "." +:+ cls) = true) as ->.
  { apply contains_split. exists module, cls. reflexivity. }
  change (module +:+ "." +:+ cls) with (module +:+ String "." cls).
  rewrite (rsplit1_join "." module cls Hcls). reflexivity.
Qed.

Section WriteInputSet.

Context {structure kwargs vis world : Type}.
Variable empty_kwargs : kwargs.
Variable import_module :
  string -> result (string -> option (@input_set_class structure kwargs vis world)).
Variable write_input : vis -> string -> kwargs -> ST world unit.

(** X9.  A class name without a dot, written after a module path and a dot,
    is split back into that module and that name; and the bare name stands
    for the name under "pymatgen.io.vasp.sets": both spellings give the same
    run. *)
Theorem dotted_path_round_trip (cls : string) :
  contains "." cls = false ->
  (forall module, resolve (module +:+ "." +:+ cls) = inr (module, cls)) /\
  (forall s ik wk from_prev w,
     write_vasp_input_set empty_kwargs import_module write_input
       s cls ik wk from_prev w
     = write_vasp_input_set empty_kwargs import_module write_input
         s ("pymatgen.io.vasp.sets" +:+ "." +:+ cls) ik wk from_prev w).
Proof.
  intros Hcls. split.
  - intros module. exact (resolve_join module cls Hcls).
  - intros s ik wk from_prev w. unfold write_vasp_input_set, mbind, st_bind, lift.
    rewrite (resolve_join "pymatgen.io.vasp.sets" cls Hcls).
    unfold resolve. rewrite Hcls. reflexivity.
Qed.

End WriteInputSet.

(** X9 on the toy class: "MPStaticSet" and its full path. *)
Lemma dotted_path_round_trip_witness :
  resolve "mypackage.mymodule.MPStaticSet" = inr ("mypackage.mymodule", "MPStaticSet") /\
  forall w : gmap string string,
    write_vasp_input_set [] toy_import_module toy_write_input
      "Si2" "MPStaticSet" None None false w
    = write_vasp_input_set [] toy_import_module toy_write_input
        "Si2" "pymatgen.io.vasp.sets.MPStaticSet" None None false w.
Proof.
  destruct (dotted_path_round_trip [] toy_import_module toy_write_input
              "MPStaticSet" eq_refl) as [Hres Hrun].
  split; [exact (Hres "mypackage.mymodule")|].
  intros w. exact (Hrun "Si2" None None false w).
Defined.

End InputSetMore.

(** ** More on the fake VASP run *)

Module FakeVaspMore.
Import PyStr PyStrProps FakeVasp FakeVaspSpec FakeVaspProps PotcarSpecSpec.

(** *** Lines of a text *)

Lemma contains_char_append c a b :
  contains (String c "") (a +:+ b) = contains (String c "") a || contains (String c "") b.
Proof.
  induction a as [|d a IH].
  - rewrite append_nil_l. reflexivity.
  - rewrite append_cons, !InputSetProps.contains_char, IH, orb_assoc. reflexivity.
Qed.

Lemma one_line_spec s :
  one_line s = true <->
  contains (String newline "") s = false /\ contains (String carriage_return "") s = false.
Proof.
  unfold one_line. rewrite andb_true_iff, !negb_true_iff. reflexivity.
Qed.

Lemma split_no_line_break s :
  contains (String newline "") s = false -> split newline s = [s].
Proof.
  induction s as [|c s IH]; [reflexivity|].
  rewrite InputSetProps.contains_char. intros [Hc Hs]%orb_false_iff.
  rewrite Ascii.eqb_sym in Hc. cbn [split]. rewrite Hc, (IH Hs). reflexivity.
Qed.

Lemma split_line_break s rest :
  contains (String newline "") s = false ->
  split newline (s +:+ String newline rest) = s :: split newline rest.
Proof.
  induction s as [|c s IH].
  - intros _. rewrite append_nil_l. cbn [split]. rewrite Ascii.eqb_refl. reflexivity.
  - rewrite InputSetProps.contains_char. intros [Hc Hs]%orb_false_iff.
    rewrite Ascii.eqb_sym in Hc.
    rewrite append_cons. cbn [split]. rewrite Hc, (IH Hs). reflexivity.
Qed.

Lemma split_spec_text symbols :
  symbols <> [] -> Forall (fun s => one_line s = true) symbols ->
  split newline (spec_text symbols) = symbols.
Proof.
  intros Hne Hall. induction Hall as [|s rest Hs Hrest IH]; [contradiction Hne; reflexivity|].
  apply one_line_spec in Hs as [Hs _].
  unfold spec_text in *. destruct rest as [|s' rest].
  - cbn [String.concat]. exact (split_no_line_break s Hs).
  - change (String.concat (String newline "") (s :: s' :: rest))
      with (s +:+ String newline (String.concat (String newline "") (s' :: rest))).
    rewrite (split_line_break _ _ Hs), IH by discriminate. reflexivity.
Qed.

(** Reading in text mode changes nothing in a text without carriage
    returns. *)
Lemma universal_newlines_plain s :
  contains (String carriage_return "") s = false -> universal_newlines s = s.
Proof.
  induction s as [|c s IH]; [reflexivity|].
  rewrite InputSetProps.contains_char. intros [Hc Hs]%orb_false_iff.
  rewrite Ascii.eqb_sym in Hc. cbn [universal_newlines]. rewrite Hc, (IH Hs). reflexivity.
Qed.

Lemma spec_text_plain symbols :
  Forall (fun s => one_line s = true) symbols ->
  contains (String carriage_return "") (spec_text symbols) = false.
Proof.
  induction 1 as [|s rest Hs Hrest IH]; [reflexivity|].
  apply one_line_spec in Hs as [_ Hs].
  unfold spec_text in *. destruct rest as [|s' rest].
  - cbn [String.concat]. exact Hs.
  - change (String.concat (String newline "") (s :: s' :: rest))
      with (s +:+ String newline (String.concat (String newline "") (s' :: rest))).
    rewrite contains_char_append, Hs, InputSetProps.contains_char, IH. reflexivity.
Qed.

Section Fixture.

Context {value style : Type} `{EqDecision style}.
Variable value_eqb : value -> value -> bool.
Variables (py_int_1 py_float_0_2 : value).
Variable parse_incar : string -> result (gmap string value).
Variable parse_kpoints : string -> result (@Kpoints style).
Variable parse_poscar : string -> result Poscar.
Variable parse_potcar : string -> result Potcar.

Local Abbreviation get_differs := (get_differs value_eqb).
Local Abbreviation incar_defaults := (incar_defaults py_int_1 py_float_0_2).
Local Abbreviation check_incar_settings :=
  (check_incar_settings value_eqb py_int_1 py_float_0_2).
Local Abbreviation check_incar := (check_incar value_eqb py_int_1 py_float_0_2 parse_incar).
Local Abbreviation check_kpoints := (check_kpoints parse_kpoints).
Local Abbreviation check_poscar := (check_poscar parse_poscar).
Local Abbreviation check_potcar := (check_potcar parse_potcar).
Local Abbreviation check_phase :=
  (check_phase value_eqb py_int_1 py_float_0_2
     parse_incar parse_kpoints parse_poscar parse_potcar).
Local Abbreviation fake_run_vasp :=
  (fake_run_vasp value_eqb py_int_1 py_float_0_2
     parse_incar parse_kpoints parse_poscar parse_potcar).
Local Abbreviation requested_checks :=
  (requested_checks value_eqb py_int_1 py_float_0_2
     parse_incar parse_kpoints parse_poscar parse_potcar).

(** *** The INCAR check *)

Lemma dict_get_union (d : gmap string value) p :
  dict_get d p (incar_defaults !! p) = (d ∪ incar_defaults) !! p.
Proof.
  unfold dict_get. rewrite lookup_union.
  destruct (d !! p), (incar_defaults !! p); reflexivity.
Qed.

Lemma check_incar_settings_passes user ref settings :
  check_incar_settings user ref settings = inr tt <->
  forall p, p ∈ settings ->
            get_differs ((user ∪ incar_defaults) !! p) ((ref ∪ incar_defaults) !! p) = false.
Proof.
  induction settings as [|q settings IH]; cbn [FakeVasp.check_incar_settings].
  - split; [intros _ p Hp; inversion Hp | reflexivity].
  - rewrite !dict_get_union.
    destruct (get_differs ((user ∪ incar_defaults) !! q) ((ref ∪ incar_defaults) !! q))
      eqn:Hq.
    + split; [discriminate|]. intros Hall. rewrite (Hall q) in Hq; [discriminate | left].
    + rewrite IH. split.
      * intros Hall p [->|Hp]%elem_of_cons; [exact Hq | exact (Hall p Hp)].
      * intros Hall p Hp. apply Hall. right. exact Hp.
Qed.

Lemma check_incar_settings_raises user ref settings e :
  check_incar_settings user ref settings = inl e ->
  exists before p after,
    settings = before ++ p :: after /\
    e = ValueError ("INCAR value of " +:+ p +:+ " is inconsistent") /\
    get_differs ((user ∪ incar_defaults) !! p) ((ref ∪ incar_defaults) !! p) = true /\
    forall q, q ∈ before ->
              get_differs ((user ∪ incar_defaults) !! q) ((ref ∪ incar_defaults) !! q)
              = false.
Proof.
  induction settings as [|q settings IH]; cbn [FakeVasp.check_incar_settings]; [discriminate|].
  rewrite !dict_get_union.
  destruct (get_differs ((user ∪ incar_defaults) !! q) ((ref ∪ incar_defaults) !! q))
    eqn:Hq.
  - intros [= <-]. exists [], q, settings. split; [reflexivity|]. split; [reflexivity|].
    split; [exact Hq | intros q' Hq'; inversion Hq'].
  - intros He. destruct (IH He) as (before & p & after & -> & -> & Hp & Hbefore).
    exists (q :: before), p, after. split; [reflexivity|]. split; [reflexivity|].
    split; [exact Hp|]. intros q' [->|Hq']%elem_of_cons; [exact Hq | exact (Hbefore _ Hq')].
Qed.

(** X10.  Once both INCAR files are read, the check compares the listed tags
    and no others, each after the defaults ISPIN = 1, ISMEAR = 1 and
    SIGMA = 0.2 have been filled in on both sides: it passes exactly when no
    listed tag differs, and otherwise raises [ValueError] naming the first
    listed tag that does. *)
Theorem check_incar_listed_tags ref_path incar_settings cwd user ref :
  from_file parse_incar cwd "INCAR" = inr user ->
  from_file parse_incar (inputs ref_path) "INCAR" = inr ref ->
  (check_incar ref_path incar_settings cwd = inr tt <->
   forall p, p ∈ incar_settings ->
             get_differs ((user ∪ incar_defaults) !! p) ((ref ∪ incar_defaults) !! p)
             = false) /\
  (forall e,
     check_incar ref_path incar_settings cwd = inl e ->
     exists before p after,
       incar_settings = before ++ p :: after /\
       e = ValueError ("INCAR value of " +:+ p +:+ " is inconsistent") /\
       get_differs ((user ∪ incar_defaults) !! p) ((ref ∪ incar_defaults) !! p) = true /\
       forall q, q ∈ before ->
                 get_differs ((user ∪ incar_defaults) !! q) ((ref ∪ incar_defaults) !! q)
                 = false).
Proof.
  intros Huser Href. unfold FakeVasp.check_incar. rewrite Huser, Href.
  split; [apply check_incar_settings_passes | apply check_incar_settings_raises].
Qed.

(** *** The POTCAR check *)

(** X11.  Without a POTCAR in the working directory, a POTCAR.spec that
    lists symbols free of line feeds and carriage returns, one per line with
    a line feed between them and none after the last, is read back as that
    list: the check passes exactly when the list is the list of the reference
    POTCAR's symbols, and raises [ValueError] otherwise. *)
Theorem potcar_spec_read_back ref_path cwd ref user_symbols :
  from_file parse_potcar (inputs ref_path) "POTCAR" = inr ref ->
  cwd !! "POTCAR" = None ->
  cwd !! "POTCAR.spec" = Some (spec_text user_symbols) ->
  user_symbols <> [] ->
  Forall (fun s => one_line s = true) user_symbols ->
  (check_potcar ref_path cwd = inr tt <-> user_symbols = symbols ref) /\
  (user_symbols <> symbols ref ->
   check_potcar ref_path cwd = inl (ValueError "POTCAR symbols are inconsistent")).
Proof.
  intros Href Hpotcar Hspec Hne Hlines. unfold FakeVasp.check_potcar.
  rewrite Href, Hpotcar, Hspec. cbv zeta.
  rewrite (universal_newlines_plain _ (spec_text_plain _ Hlines)).
  rewrite (split_spec_text _ Hne Hlines).
  case_bool_decide as Heq; cbn [negb].
  - split; [split; [intros _; exact Heq | reflexivity] | intros H'; contradiction].
  - split; [split; [discriminate | intros H'; contradiction] | reflexivity].
Qed.

(** *** The names in [check_inputs] *)

(** X14.  Only membership of "incar", "kpoints", "poscar" and "potcar" in
    [check_inputs] matters: the order of the names, repetitions and any other
    name change nothing, and the checks always run in the order incar,
    kpoints, poscar, potcar. *)
Theorem check_inputs_as_set ref_path incar_settings check_inputs check_inputs'
    clear_inputs cwd :
  (forall name, name ∈ vfiles -> name ∈ check_inputs <-> name ∈ check_inputs') ->
  requested_checks ref_path incar_settings check_inputs cwd
  = requested_checks ref_path incar_settings check_inputs' cwd /\
  fake_run_vasp ref_path incar_settings check_inputs clear_inputs cwd
  = fake_run_vasp ref_path incar_settings check_inputs' clear_inputs cwd.
Proof.
  intros Hsame.
  assert (Hb : forall name, name ∈ vfiles ->
                 bool_decide (name ∈ check_inputs) = bool_decide (name ∈ check_inputs')).
  { intros name Hname. apply bool_decide_ext, Hsame, Hname. }
  assert (H1 := Hb "incar"). assert (H2 := Hb "kpoints").
  assert (H3 := Hb "poscar"). assert (H4 := Hb "potcar").
  unfold FakeVasp.fake_run_vasp, FakeVasp.check_phase, FakeVaspSpec.requested_checks.
  rewrite H1, H2, H3, H4 by (unfold vfiles; repeat first [left | right]).
  split; reflexivity.
Qed.

(** *** The reference inputs themselves *)

Lemma check_incar_settings_same (m : gmap string value) settings :
  (forall v, value_eqb v v = true) -> check_incar_settings m m settings = inr tt.
Proof.
  intros Hrefl. apply check_incar_settings_passes. intros p _.
  destruct ((m ∪ incar_defaults) !! p) as [v|]; cbn; [rewrite Hrefl|]; reflexivity.
Qed.

(** X15.  A working directory that holds the four reference input files
    passes every check, whatever is listed in [incar_settings] and
    [check_inputs], provided the reference files parse and every tag value
    equals itself; the run then clears and copies as it does after any
    successful check. *)
Theorem reference_inputs_pass ref_path incar_settings check_inputs clear_inputs cwd entries :
  (forall v, value_eqb v v = true) ->
  (forall name, name ∈ ["INCAR"; "KPOINTS"; "POSCAR"; "POTCAR"] ->
                cwd !! name = inputs ref_path !! name) ->
  (exists incar, from_file parse_incar (inputs ref_path) "INCAR" = inr incar) ->
  (exists kpoints, from_file parse_kpoints (inputs ref_path) "KPOINTS" = inr kpoints) ->
  (exists poscar, from_file parse_poscar (inputs ref_path) "POSCAR" = inr poscar) ->
  (exists potcar, from_file parse_potcar (inputs ref_path) "POTCAR" = inr potcar) ->
  outputs ref_path = Some entries ->
  Forall (fun r => r = inr tt)
         (requested_checks ref_path incar_settings check_inputs cwd) /\
  fake_run_vasp ref_path incar_settings check_inputs clear_inputs cwd
  = (inr tt,
     reference_files entries ∪
       (if clear_inputs then foldl (fun m f => delete f m) cwd cleared_names else cwd)).
Proof.
  intros Hrefl Hsame [incar Hincar] [kpoints Hkpoints] [poscar Hposcar] [potcar Hpotcar] Hout.
  assert (Hfile : forall A (parse : string -> result A) name,
             name ∈ ["INCAR"; "KPOINTS"; "POSCAR"; "POTCAR"] ->
             from_file parse cwd name = from_file parse (inputs ref_path) name).
  { intros A parse name Hname. unfold from_file, read_file. rewrite (Hsame _ Hname).
    reflexivity. }
  assert (Hpass : Forall (fun r => r = inr tt)
                    (requested_checks ref_path incar_settings check_inputs cwd)).
  { apply Forall_forall. intros r Hr. apply requested_checks_elem in Hr.
    destruct Hr as [[_ ->]|[[_ ->]|[[_ ->]|[_ ->]]]].
    - unfold FakeVasp.check_incar. rewrite Hfile by (repeat first [left | right]).
      rewrite Hincar. apply check_incar_settings_same, Hrefl.
    - unfold FakeVasp.check_kpoints. rewrite Hfile by (repeat first [left | right]).
      rewrite Hkpoints. rewrite bool_decide_eq_true_2 by reflexivity.
      rewrite N.eqb_refl. reflexivity.
    - unfold FakeVasp.check_poscar. rewrite Hfile by (repeat first [left | right]).
      rewrite Hposcar. rewrite !bool_decide_eq_true_2 by reflexivity. reflexivity.
    - unfold FakeVasp.check_potcar. rewrite Hpotcar.
      rewrite (Hsame "POTCAR") by (repeat first [left | right]).
      unfold from_file, read_file in Hpotcar.
      destruct (inputs ref_path !! "POTCAR") as [data|]; [|discriminate].
      rewrite Hpotcar. rewrite bool_decide_eq_true_2 by reflexivity. reflexivity. }
  split; [exact Hpass|].
  apply first_raised_None in Hpass.
  unfold FakeVasp.fake_run_vasp, mbind, st_bind.
  rewrite check_phase_run, Hpass. destruct clear_inputs.
  - rewrite clear_vasp_inputs_run. apply copy_vasp_outputs_run. exact Hout.
  - unfold mret, st_ret. apply copy_vasp_outputs_run. exact Hout.
Qed.

(** *** A reference directory without outputs *)

(** X16.  The run is not undone when the copy fails: with all requested
    checks passed and no "outputs" folder in the reference directory, the run
    raises [FileNotFoundError] after the inputs have been cleared, so that
    with [clear_inputs] none of the seven cleared names is left. *)
Theorem missing_outputs_after_clearing
    ref_path incar_settings check_inputs clear_inputs cwd :
  Forall (fun r => r = inr tt)
         (requested_checks ref_path incar_settings check_inputs cwd) ->
  outputs ref_path = None ->
  exists (msg : string) (cwd' : gmap string string),
    fake_run_vasp ref_path incar_settings check_inputs clear_inputs cwd
    = (inl (FileNotFoundError msg), cwd') /\
    (forall name,
       cwd' !! name = if clear_inputs && bool_decide (name ∈ cleared_names)
                      then None else cwd !! name).
Proof.
  intros Hpass Hout. apply first_raised_None in Hpass.
  exists "No such file or directory: 'outputs'".
  exists (if clear_inputs then foldl (fun m f => delete f m) cwd cleared_names else cwd).
  split.
  - unfold FakeVasp.fake_run_vasp, mbind, st_bind.
    rewrite check_phase_run, Hpass. unfold FakeVasp.copy_vasp_outputs. rewrite Hout.
    destruct clear_inputs; [rewrite clear_vasp_inputs_run|]; reflexivity.
  - intros name. destruct clear_inputs; [apply cleared_lookup | reflexivity].
Qed.

(** *** POTCAR before POTCAR.spec *)

(** X17.  When the working directory holds a POTCAR, the check never reads
    POTCAR.spec: writing any text to it, or removing it, does not change the
    outcome. *)
Theorem potcar_file_preferred ref_path cwd data :
  cwd !! "POTCAR" = Some data ->
  (forall text,
     check_potcar ref_path (<["POTCAR.spec" := text]> cwd) = check_potcar ref_path cwd) /\
  check_potcar ref_path (delete "POTCAR.spec" cwd) = check_potcar ref_path cwd.
Proof.
  intros Hpotcar. unfold FakeVasp.check_potcar.
  destruct (from_file parse_potcar (inputs ref_path) "POTCAR") as [e|ref];
    [split; reflexivity|].
  split.
  - intros text. rewrite lookup_insert_ne by discriminate. rewrite Hpotcar. reflexivity.
  - rewrite lookup_delete_ne by discriminate. rewrite Hpotcar. reflexivity.
Qed.

End Fixture.

(** X16 on the toy directories, with the reference outputs taken away. *)
Lemma missing_outputs_after_clearing_witness :
  exists msg cwd',
    fake_run_vasp String.eqb "1" "0.2"
      toy_parse_incar toy_parse_kpoints toy_parse_poscar toy_parse_potcar
      {| inputs := toy_inputs; outputs := None |} [] vfiles true toy_cwd
    = (inl (FileNotFoundError msg), cwd') /\
    cwd' !! "INCAR" = None /\ cwd' !! "job.sh" = Some "run".
Proof.
  destruct (missing_outputs_after_clearing String.eqb "1" "0.2"
              toy_parse_incar toy_parse_kpoints toy_parse_poscar toy_parse_potcar
              {| inputs := toy_inputs; outputs := None |} [] vfiles true toy_cwd)
    as (msg & cwd' & Hrun & Hlookup).
  - apply Forall_forall. intros r Hr. apply requested_checks_elem in Hr.
    destruct Hr as [[_ ->]|[[_ ->]|[[_ ->]|[_ ->]]]]; vm_compute; reflexivity.
  - reflexivity.
  - exists msg, cwd'. split; [exact Hrun|]. rewrite !Hlookup. split; reflexivity.
Defined.

(** X17 on a working directory with a POTCAR and a POTCAR.spec that names
    another element. *)
Lemma potcar_file_preferred_witness :
  check_potcar toy_parse_potcar toy_ref
    (<["POTCAR.spec" := "Ge"]> (<["POTCAR" := "Si"]> toy_cwd))
  = check_potcar toy_parse_potcar toy_ref (<["POTCAR" := "Si"]> toy_cwd).
Proof.
  assert (H : (<["POTCAR" := "Si"]> toy_cwd : gmap string string) !! "POTCAR" = Some "Si")
    by apply lookup_insert_eq.
  apply (proj1 (potcar_file_preferred toy_parse_potcar toy_ref
                  (<["POTCAR" := "Si"]> toy_cwd) "Si" H)).
Defined.

(** X10 on the toy directories: ENCUT is given on both sides, ISPIN on
    neither. *)
Lemma check_incar_listed_tags_witness :
  check_incar String.eqb "1" "0.2" toy_parse_incar toy_ref ["ENCUT"; "ISPIN"] toy_cwd
  = inr tt <->
  forall p, p ∈ ["ENCUT"; "ISPIN"] ->
            get_differs String.eqb
              (({["ENCUT" := "520"]} ∪ incar_defaults "1" "0.2") !! p)
              (({["ENCUT" := "520"]} ∪ incar_defaults "1" "0.2") !! p) = false.
Proof.
  exact (proj1 (check_incar_listed_tags String.eqb "1" "0.2" toy_parse_incar
                  toy_ref ["ENCUT"; "ISPIN"] toy_cwd
                  {["ENCUT" := "520"]} {["ENCUT" := "520"]} eq_refl eq_refl)).
Defined.

(** X11 on a POTCAR.spec with two symbols against a reference POTCAR that
    lists the same two. *)
Lemma potcar_spec_read_back_witness :
  check_potcar toy_parse_potcar
    {| inputs := {["POTCAR" := spec_text ["Si"; "O"]]}; outputs := None |}
    {["POTCAR.spec" := spec_text ["Si"; "O"]]}
  = inr tt.
Proof.
  refine (proj2 (proj1 (potcar_spec_read_back toy_parse_potcar
                          {| inputs := {["POTCAR" := spec_text ["Si"; "O"]]};
                             outputs := None |}
                          {["POTCAR.spec" := spec_text ["Si"; "O"]]}
                          {| symbols := ["Si"; "O"] |} ["Si"; "O"] _ _ _ _ _)) _).
  - reflexivity.
  - reflexivity.
  - reflexivity.
  - discriminate.
  - repeat constructor.
  - reflexivity.
Defined.

(** X14 on the toy directories: the default [vfiles] and a list that
    reorders it, repeats a name and adds an unknown one. *)
Lemma check_inputs_as_set_witness :
  fake_run_vasp String.eqb "1" "0.2"
    toy_parse_incar toy_parse_kpoints toy_parse_poscar toy_parse_potcar
    toy_ref [] vfiles true toy_cwd
  = fake_run_vasp String.eqb "1" "0.2"
      toy_parse_incar toy_parse_kpoints toy_parse_poscar toy_parse_potcar
      toy_ref [] ["poscar"; "chgcar"; "potcar"; "incar"; "kpoints"; "incar"] true toy_cwd.
Proof.
  apply (check_inputs_as_set String.eqb "1" "0.2"
           toy_parse_incar toy_parse_kpoints toy_parse_poscar toy_parse_potcar
           toy_ref [] vfiles ["poscar"; "chgcar"; "potcar"; "incar"; "kpoints"; "incar"]
           true toy_cwd).
  intros name Hname. unfold vfiles in *.
  repeat (apply elem_of_cons in Hname as [->|Hname]); [| | | |inversion Hname];
    split; intros _; repeat first [left | right].
Defined.

(** X15 on the toy reference directory, run on its own inputs. *)
Lemma reference_inputs_pass_witness :
  fake_run_vasp String.eqb "1" "0.2"
    toy_parse_incar toy_parse_kpoints toy_parse_poscar toy_parse_potcar
    toy_ref ["ENCUT"] vfiles false toy_inputs
  = (inr tt,
     reference_files
       [("OUTCAR", RegularFile "outcar"); ("logs", Directory);
        ("CONTCAR", RegularFile "contcar"); ("vasprun.xml", RegularFile "vasprun")]
     ∪ toy_inputs).
Proof.
  refine (proj2 (reference_inputs_pass String.eqb "1" "0.2"
                   toy_parse_incar toy_parse_kpoints toy_parse_poscar toy_parse_potcar
                   toy_ref ["ENCUT"] vfiles false toy_inputs _ _ _ _ _ _ _ _)).
  - intros v. apply String.eqb_refl.
  - intros name _. reflexivity.
  - eexists. reflexivity.
  - eexists. reflexivity.
  - eexists. reflexivity.
  - eexists. reflexivity.
  - reflexivity.
Defined.

End FakeVaspMore.
